(** * GitTornado: a shallow embedding of the smart-HTTP gateway

    The development follows the three source modules:
    - [gittornado/server.py]   : [auth], [gitlookup], [auth_failed];
    - [gittornado/__init__.py] : [BaseHandler], [RPCHandler], [InfoRefsHandler];
    - [gittornado/iowrapper.py]: [ProcessWrapper], the bridge between the HTTP
      connection and the [git] child process.

    Python 2 [str] values are byte strings; they are modelled as [list ascii].
    Code that can raise returns a [result]; code that writes to the HTTP
    connection threads the connection explicitly. *)

From Stdlib Require Import Ascii String List Arith ZArith Lia Bool.
Import ListNotations.

(** ** Byte strings *)

Definition bytes := list ascii.

(** A Python literal ['...'] is written [str "..."]. *)
Abbreviation str := list_ascii_of_string.

Definition CR : ascii := "013"%char.
Definition LF : ascii := "010"%char.
Definition CRLF : bytes := [CR; LF].

Definition bytes_eqb (a b : bytes) : bool :=
  if list_eq_dec ascii_dec a b then true else false.

(** [x in l] for a list of strings. *)
Definition mem (x : bytes) (l : list bytes) : bool := existsb (bytes_eqb x) l.

(** ** The Python string methods the sources use *)

Module Py.

(** [s.startswith(p)] *)
Fixpoint startswith (s p : bytes) {struct p} : bool :=
  match p with
  | [] => true
  | c :: p' =>
      match s with
      | [] => false
      | d :: s' => Ascii.eqb c d && startswith s' p'
      end
  end.

(** [s.endswith(p)] *)
Definition endswith (s p : bytes) : bool := startswith (rev s) (rev p).

(** [p in s] for strings (substring test). *)
Fixpoint contains (s p : bytes) : bool :=
  startswith s p ||
  match s with
  | [] => false
  | _ :: s' => contains s' p
  end.

(** [s[:-k]] and [s[-k:]] *)
Definition drop_last (k : nat) (s : bytes) : bytes := firstn (length s - k) s.
Definition last_n (k : nat) (s : bytes) : bytes := skipn (length s - k) s.

(** [s.lstrip(chars)], [s.rstrip(chars)], [s.strip(chars)] where
    membership in [chars] is given as a predicate. *)
Fixpoint lstrip_by (f : ascii -> bool) (s : bytes) : bytes :=
  match s with
  | [] => []
  | c :: s' => if f c then lstrip_by f s' else s
  end.

Definition rstrip_by (f : ascii -> bool) (s : bytes) : bytes :=
  rev (lstrip_by f (rev s)).

Definition strip_by (f : ascii -> bool) (s : bytes) : bytes :=
  rstrip_by f (lstrip_by f s).

(** [s.strip('/')] *)
Definition strip_char (c : ascii) : bytes -> bytes := strip_by (Ascii.eqb c).

(** [string.whitespace] of the C locale: space, TAB, LF, VT, FF, CR. *)
Definition isspace (c : ascii) : bool :=
  let n := nat_of_ascii c in (n =? 32) || ((9 <=? n) && (n <=? 13)).

(** [s.strip()] *)
Definition strip : bytes -> bytes := strip_by isspace.

(** [s.lower()] *)
Definition lower_char (c : ascii) : ascii :=
  let n := nat_of_ascii c in
  if (65 <=? n) && (n <=? 90) then ascii_of_nat (n + 32) else c.

Definition lower : bytes -> bytes := map lower_char.

(** [s.split(sep)] for a one-character separator: the result is never
    empty, and an empty [s] gives [['']]. *)
Fixpoint split (sep : ascii) (s : bytes) : list bytes :=
  match s with
  | [] => [[]]
  | c :: s' =>
      if Ascii.eqb c sep then [] :: split sep s'
      else match split sep s' with
           | [] => [[c]]
           | w :: ws => (c :: w) :: ws
           end
  end.

(** [s.split(sep, 1)]: at most one split, at the first separator. *)
Fixpoint split1 (sep : ascii) (s : bytes) : list bytes :=
  match s with
  | [] => [[]]
  | c :: s' =>
      if Ascii.eqb c sep then [[]; s']
      else match split1 sep s' with
           | [] => [[c]]
           | w :: ws => (c :: w) :: ws
           end
  end.

(** [sep.join(l)] *)
Fixpoint join (sep : bytes) (l : list bytes) : bytes :=
  match l with
  | [] => []
  | [w] => w
  | w :: ws => w ++ sep ++ join sep ws
  end.

(** [s.rjust(width, fill)] *)
Definition rjust (width : nat) (fill : ascii) (s : bytes) : bytes :=
  repeat fill (width - length s) ++ s.

(** The digit characters [0-9a-f] of [hex] and [str]. *)
Definition digit_char (d : nat) : ascii :=
  if d <? 10 then ascii_of_nat (48 + d) else ascii_of_nat (87 + d).

Fixpoint digits_go (base fuel n : nat) : bytes :=
  match fuel with
  | 0 => []
  | S fuel' =>
      if n <? base then [digit_char n]
      else digits_go base fuel' (n / base) ++ [digit_char (n mod base)]
  end.

(** [hex(n)[2:]] for a non-negative machine integer [n]: lower-case
    hexadecimal digits without the [0x] prefix. *)
Definition hex_digits (n : nat) : bytes := digits_go 16 (S n) n.

(** [str(n)] and ['%d' % n] for a non-negative integer. *)
Definition str_of_nat (n : nat) : bytes := digits_go 10 (S n) n.

(** The value of one hexadecimal digit, either case. *)
Definition hex_value (c : ascii) : option nat :=
  let n := nat_of_ascii c in
  if (48 <=? n) && (n <=? 57) then Some (n - 48)
  else if (97 <=? n) && (n <=? 102) then Some (n - 87)
  else if (65 <=? n) && (n <=? 70) then Some (n - 55)
  else None.

Fixpoint hex_fold (acc : nat) (s : bytes) : option nat :=
  match s with
  | [] => Some acc
  | c :: s' =>
      match hex_value c with
      | Some d => hex_fold (16 * acc + d) s'
      | None => None
      end
  end.

(** [int(s, 16)]: surrounding whitespace is ignored, then an optional
    sign, an optional [0x] or [0X], and at least one hexadecimal digit;
    anything else is a [ValueError] ([None]). *)
Definition int16 (s : bytes) : option Z :=
  let s := strip s in
  let '(neg, s) :=
    match s with
    | c :: s' =>
        if Ascii.eqb c "-" then (true, s')
        else if Ascii.eqb c "+" then (false, s')
        else (false, s)
    | [] => (false, s)
    end in
  let s :=
    match s with
    | c0 :: cx :: s' =>
        if Ascii.eqb c0 "0" && (Ascii.eqb cx "x" || Ascii.eqb cx "X")
        then s' else s
    | _ => s
    end in
  match s with
  | [] => None
  | _ =>
      match hex_fold 0 s with
      | Some n => Some (if neg then (- Z.of_nat n)%Z else Z.of_nat n)
      | None => None
      end
  end.

End Py.

(** ** Exceptions and results *)

Inductive exn :=
| HTTPError (code : nat) (msg : bytes)   (* tornado.web.HTTPError *)
| ValueError
| BinasciiError                          (* binascii.Error *)
| ConfigError                            (* ConfigParser.Error and subclasses *)
| OSError                                (* also IOError *)
| ZlibError                              (* zlib.error *)
| WouldBlock                             (* a blocking call the model does not follow *)
| AttributeError (name : bytes)
| AssertionError (msg : bytes).

Inductive result (A : Type) :=
| Ok (a : A)
| Raise (e : exn).
Arguments Ok {A} a.
Arguments Raise {A} e.

Definition rbind {A B} (r : result A) (k : A -> result B) : result B :=
  match r with
  | Ok a => k a
  | Raise e => Raise e
  end.

(** ** The HTTP request, as tornado hands it to the handlers *)

Record HTTPRequest := {
  method : bytes;
  path : bytes;                      (* the URI before ['?'], undecoded *)
  query : bytes;                     (* the URI after ['?'] *)
  headers : list (bytes * bytes);    (* names as tornado normalises them *)
  body : bytes;
  supports_http_1_1 : bool
}.

(** [request.headers.get(name, None)] *)
Fixpoint headers_get (name : bytes) (hs : list (bytes * bytes)) : option bytes :=
  match hs with
  | [] => None
  | (k, v) :: hs' => if bytes_eqb k name then Some v else headers_get name hs'
  end.

(** What a handler has done to the connection: the bytes given to
    [request.write], in order, and the number of calls of [request.finish]. *)
Record Connection := {
  written : bytes;
  finish_calls : nat
}.

Definition fresh_connection : Connection := {| written := []; finish_calls := 0 |}.

Definition request_write (data : bytes) (c : Connection) : Connection :=
  {| written := written c ++ data; finish_calls := finish_calls c |}.

Definition request_finish (c : Connection) : Connection :=
  {| written := written c; finish_calls := S (finish_calls c) |}.

(** ** Library functions of the Python runtime *)

(** *** [binascii.a2b_base64], which [s.decode('base64')] calls *)

Module Base64.

(** [table_a2b_base64]: the value of an alphabet character; the pad ['=']
    is in the table with value 0. *)
Definition table (c : ascii) : option nat :=
  let n := nat_of_ascii c in
  if (65 <=? n) && (n <=? 90) then Some (n - 65)
  else if (97 <=? n) && (n <=? 122) then Some (n - 71)
  else if (48 <=? n) && (n <=? 57) then Some (n + 4)
  else if n =? 43 then Some 62
  else if n =? 47 then Some 63
  else if n =? 61 then Some 0
  else None.

Definition is_pad (c : ascii) : bool := Ascii.eqb c "=".

(** [binascii_find_valid(s, len, num)]: the [num]-th (from 0) character
    of [s] that is in the table. *)
Fixpoint find_valid (s : bytes) (num : nat) : option ascii :=
  match s with
  | [] => None
  | c :: s' =>
      match table c with
      | Some _ =>
          match num with
          | 0 => Some c
          | S num' => find_valid s' num'
          end
      | None => find_valid s' num
      end
  end.

(** The decoding loop, with the C variables [leftchar], [leftbits] and
    [quad_pos]; the result is the final [leftbits] and the output. *)
Fixpoint loop (s : bytes) (leftchar leftbits quad_pos : nat) (out : bytes)
  : nat * bytes :=
  match s with
  | [] => (leftbits, out)
  | c :: s' =>
      let n := nat_of_ascii c in
      if (127 <? n) || (n =? 13) || (n =? 10) || (n =? 32) then
        loop s' leftchar leftbits quad_pos out
      else if is_pad c then
        if (quad_pos <? 2) ||
           ((quad_pos =? 2) &&
            negb (match find_valid s 1 with
                  | Some d => is_pad d
                  | None => false
                  end))
        then loop s' leftchar leftbits quad_pos out
        else (0, out)
      else
        match table c with
        | None => loop s' leftchar leftbits quad_pos out
        | Some v =>
            let quad_pos := (quad_pos + 1) mod 4 in
            let leftchar := leftchar * 64 + v in
            let leftbits := leftbits + 6 in
            if 8 <=? leftbits then
              let leftbits := leftbits - 8 in
              loop s' (leftchar mod 2 ^ leftbits) leftbits quad_pos
                (out ++ [ascii_of_nat ((leftchar / 2 ^ leftbits) mod 256)])
            else loop s' leftchar leftbits quad_pos out
        end
  end.

(** [s.decode('base64')]; [None] is [binascii.Error: Incorrect padding]. *)
Definition decode (s : bytes) : option bytes :=
  let '(leftbits, out) := loop s 0 0 0 [] in
  if leftbits =? 0 then Some out else None.

End Base64.

(** *** [urlparse.parse_qs] *)

Module Urlparse.

(** [s.replace('+', ' ')] *)
Definition plus_to_space (s : bytes) : bytes :=
  map (fun c => if Ascii.eqb c "+" then " "%char else c) s.

(** One item of [s.split('%')[1:]]: two hexadecimal digits become the
    character they encode, anything else keeps its ['%']. *)
Definition unquote_item (item : bytes) : bytes :=
  match item with
  | h :: l :: rest =>
      match Py.hex_value h, Py.hex_value l with
      | Some a, Some b => ascii_of_nat (16 * a + b) :: rest
      | _, _ => "%"%char :: item
      end
  | _ => "%"%char :: item
  end.

(** [urllib.unquote] *)
Definition unquote (s : bytes) : bytes :=
  match Py.split "%" s with
  | [] => s
  | first :: items => first ++ concat (map unquote_item items)
  end.

(** [parse_qsl(qs)] with the default [keep_blank_values=0] and
    [strict_parsing=0]. *)
Definition parse_qsl (qs : bytes) : list (bytes * bytes) :=
  let pairs := flat_map (Py.split ";") (Py.split "&" qs) in
  flat_map
    (fun name_value =>
       match name_value with
       | [] => []
       | _ =>
           match Py.split1 "=" name_value with
           | [n; v] =>
               match v with
               | [] => []
               | _ => [(unquote (plus_to_space n), unquote (plus_to_space v))]
               end
           | _ => []
           end
       end)
    pairs.

(** Adding one pair to the dictionary [parse_qs] builds. *)
Fixpoint dict_add (name value : bytes) (d : list (bytes * list bytes))
  : list (bytes * list bytes) :=
  match d with
  | [] => [(name, [value])]
  | (k, vs) :: d' =>
      if bytes_eqb k name then (k, vs ++ [value]) :: d'
      else (k, vs) :: dict_add name value d'
  end.

Definition parse_qs (qs : bytes) : list (bytes * list bytes) :=
  fold_left (fun d nv => dict_add (fst nv) (snd nv) d) (parse_qsl qs) [].

(** [d.get(key, default)] *)
Fixpoint dict_get (key : bytes) (default : list bytes)
  (d : list (bytes * list bytes)) : list bytes :=
  match d with
  | [] => default
  | (k, vs) :: d' => if bytes_eqb k key then vs else dict_get key default d'
  end.

End Urlparse.

(** *** [posixpath] (Python's [os.path] on POSIX) *)

Module Posixpath.

Definition isabs (s : bytes) : bool := Py.startswith s (str "/").

(** [join(a, b)] for one further component. *)
Definition join (a b : bytes) : bytes :=
  if Py.startswith b (str "/") then b
  else if bytes_eqb a [] || Py.endswith a (str "/") then a ++ b
  else a ++ str "/" ++ b.

(** The number of leading slashes [normpath] keeps: none, one, or two
    when the path starts with exactly two. *)
Definition initial_slashes (path : bytes) : nat :=
  if Py.startswith path (str "/") then
    if Py.startswith path (str "//") && negb (Py.startswith path (str "///"))
    then 2 else 1
  else 0.

(** One turn of the loop over the components. *)
Definition norm_step (slashes : nat) (new_comps : list bytes) (comp : bytes)
  : list bytes :=
  if bytes_eqb comp [] || bytes_eqb comp (str ".") then new_comps
  else if negb (bytes_eqb comp (str ".."))
          || ((slashes =? 0) && (length new_comps =? 0))
          || (negb (length new_comps =? 0)
              && bytes_eqb (last new_comps []) (str ".."))
  then new_comps ++ [comp]
  else removelast new_comps.

Definition normpath (path : bytes) : bytes :=
  match path with
  | [] => str "."
  | _ =>
      let slashes := initial_slashes path in
      let comps := fold_left (norm_step slashes) (Py.split "/" path) [] in
      let path := repeat "/"%char slashes ++ Py.join (str "/") comps in
      match path with
      | [] => str "."
      | _ => path
      end
  end.

(** [abspath(path)], with [cwd] the result of [os.getcwd()]. *)
Definition abspath (cwd path : bytes) : bytes :=
  if isabs path then normpath path else normpath (join cwd path).

End Posixpath.

(** *** The file system behind [os.path.exists] *)

Module FS.

Inductive node :=
| Dir
| File
| Symlink (target : bytes).

(** A file system: the nodes other than the root directory, each under
    its absolute path given as the list of its components. *)
Definition t := list (list bytes * node).

Fixpoint comps_eqb (a b : list bytes) : bool :=
  match a, b with
  | [], [] => true
  | x :: a', y :: b' => bytes_eqb x y && comps_eqb a' b'
  | _, _ => false
  end.

Fixpoint lookup (fs : t) (p : list bytes) : option node :=
  match fs with
  | [] => None
  | (q, n) :: fs' => if comps_eqb q p then Some n else lookup fs' p
  end.

(** Path resolution as the kernel does it: walk the components from the
    directory [done], following symbolic links; [None] when a component
    does not exist, is not a directory, or the links do not end. *)
Fixpoint resolve (fuel : nat) (fs : t) (done rest : list bytes)
  : option (list bytes) :=
  match fuel with
  | 0 => None
  | S fuel' =>
      match rest with
      | [] => Some done
      | name :: rest' =>
          if bytes_eqb name [] || bytes_eqb name (str ".") then
            resolve fuel' fs done rest'
          else if bytes_eqb name (str "..") then
            resolve fuel' fs (removelast done) rest'
          else
            match lookup fs (done ++ [name]) with
            | None => None
            | Some Dir => resolve fuel' fs (done ++ [name]) rest'
            | Some File =>
                match rest' with
                | [] => Some (done ++ [name])
                | _ => None
                end
            | Some (Symlink target) =>
                resolve fuel' fs
                  (if Posixpath.isabs target then [] else done)
                  (Py.split "/" target ++ rest')
            end
      end
  end.

(** The canonical path of an absolute path: the components of the node
    it names once every symbolic link is followed. *)
Definition canonical (fs : t) (path : bytes) : option (list bytes) :=
  resolve (40 + 41 * length path) fs [] (Py.split "/" path).

(** [os.path.exists(path)] for an absolute path: true when [stat]
    succeeds, which follows symbolic links. *)
Definition exists_ (fs : t) (path : bytes) : bool :=
  match canonical fs path with
  | Some _ => true
  | None => false
  end.

(** [a] is [b] or lies underneath it, component by component. *)
Fixpoint under (b a : list bytes) : bool :=
  match b, a with
  | [], _ => true
  | x :: b', y :: a' => bytes_eqb x y && under b' a'
  | _ :: _, [] => false
  end.

End FS.

(** *** [ConfigParser.ConfigParser], the policy file once read *)

(** The two methods [auth] calls.  [get] can raise (a missing section or
    option, a failed interpolation). *)
Record ConfigParser := {
  has_option : bytes -> bytes -> bool;
  get : bytes -> bytes -> result bytes
}.

Module Config.

(** A policy file as its sections, for values that hold no [%(]
    interpolation; option names are compared in lower case
    ([optionxform]). *)
Definition sections := list (bytes * list (bytes * bytes)).

Fixpoint find_section (name : bytes) (s : sections)
  : option (list (bytes * bytes)) :=
  match s with
  | [] => None
  | (k, opts) :: s' => if bytes_eqb k name then Some opts else find_section name s'
  end.

Definition of_sections (s : sections) : ConfigParser :=
  {| has_option := fun sec opt =>
       match find_section sec s with
       | None => false
       | Some opts =>
           match headers_get (Py.lower opt) opts with
           | Some _ => true
           | None => false
           end
       end;
     get := fun sec opt =>
       match find_section sec s with
       | None => Raise ConfigError
       | Some opts =>
           match headers_get (Py.lower opt) opts with
           | Some v => Ok v
           | None => Raise ConfigError
           end
       end |}.

End Config.

(** ** [gittornado/server.py] *)

(** The process-wide state [server.py] reads: the tornado [options], the
    policy file, and the operating system's view ([os.getcwd()], the file
    system). *)
Record Options := {
  gitbase : bytes;
  realm : bytes;                 (* [options.realm.encode('utf-8')] *)
  accessfile : ConfigParser;
  cwd : bytes;
  fs : FS.t
}.

Module Server.

Definition auth (options : Options) (request : HTTPRequest)
  : result (bool * bool) :=
  let pathlets := Py.split "/" (Py.strip_char "/" (path request)) in
  match headers_get (str "Authorization") (headers request) with
  | None => Ok (true, false)
  | Some author =>
      if negb (bytes_eqb (firstn 5 (Py.lower (Py.strip author))) (str "basic"))
      then Ok (true, false)
      else
        let userpw_base64 := Py.strip (skipn 5 (Py.strip author)) in
        match Base64.decode userpw_base64 with
        | None => Raise BinasciiError
        | Some userpw =>
            match Py.split1 ":" userpw with
            | [user; pw] =>
                if has_option (accessfile options) (str "users") user then
                  rbind (get (accessfile options) (str "users") user)
                    (fun stored =>
                       if bytes_eqb stored pw then
                         if has_option (accessfile options) (str "access") user
                         then
                           rbind (get (accessfile options) (str "access") user)
                             (fun allowed =>
                                Ok (true,
                                    mem (hd [] pathlets)
                                      (Py.split "," allowed)))
                         else Ok (true, false)
                       else Ok (true, false))
                else Ok (true, false)
            | _ => Raise ValueError
            end
        end
  end.

(** [None] is Python's [None], also returned by falling off the end. *)
Definition gitlookup (options : Options) (request : HTTPRequest)
  : option bytes :=
  let pathlets := Py.split "/" (Py.strip_char "/" (path request)) in
  let path :=
    Posixpath.abspath (cwd options)
      (Posixpath.join (gitbase options) (hd [] pathlets)) in
  if negb (Py.startswith path (Posixpath.abspath (cwd options) (gitbase options)))
  then None
  else if FS.exists_ (fs options) path then Some path
  else None.

Definition auth_failed_msg : bytes :=
  str "Authorization needed to access this repository".

Definition DQUOTE : ascii := "034"%char.

Definition auth_failed (options : Options) (request : HTTPRequest)
  (c : Connection) : Connection :=
  let msg := auth_failed_msg in
  request_write
    (str "HTTP/1.1 401 Unauthorized" ++ CRLF
     ++ str "Content-Type: text/plain" ++ CRLF
     ++ str "Content-Length: " ++ Py.str_of_nat (length msg) ++ CRLF
     ++ str "WWW-Authenticate: Basic realm=" ++ [DQUOTE] ++ realm options
     ++ [DQUOTE] ++ CRLF ++ CRLF
     ++ msg)
    c.

End Server.

(** ** [gittornado/__init__.py] *)

(** Code that runs against a state of type [S] and can raise: the state
    at the point of the exception is kept. *)
Definition ST (S A : Type) := S -> result A * S.

Definition ret {S A} (a : A) : ST S A := fun s => (Ok a, s).
Definition raise {S A} (e : exn) : ST S A := fun s => (Raise e, s).
Definition bind {S A B} (m : ST S A) (k : A -> ST S B) : ST S B :=
  fun s =>
    match m s with
    | (Ok a, s') => k a s'
    | (Raise e, s') => (Raise e, s')
    end.
Definition lift {S A} (r : result A) : ST S A := fun s => (r, s).
Definition effect {S} (f : S -> S) : ST S unit := fun s => (Ok tt, f s).
Definition read {S A} (f : S -> A) : ST S A := fun s => (Ok (f s), s).
Definition when {S} (b : bool) (m : ST S unit) : ST S unit :=
  if b then m else ret tt.
Definition assert {S} (b : bool) (msg : bytes) : ST S unit :=
  if b then ret tt else raise (AssertionError msg).

Declare Scope st_scope.
Delimit Scope st_scope with st.
Notation "x <- m ;; k" := (bind m (fun x => k))
  (at level 61, m at next level, right associativity) : st_scope.
Notation "m ;;; k" := (bind m (fun _ => k))
  (at level 61, right associativity) : st_scope.
Open Scope st_scope.

(** Handler code runs against the connection. *)
Definition M (A : Type) := ST Connection A.

(** The arguments of a [ProcessWrapper(request, command, headers, prelude)]
    call: the child to spawn and what to send on success. *)
Record Spawn := {
  command : list bytes;
  success_headers : list (bytes * bytes);
  spawn_prelude : bytes
}.

(** The keyword arguments a route passes to [initialize]. *)
Record Conf := {
  conf_auth : option (HTTPRequest -> result (bool * bool));
  conf_auth_failed : option (HTTPRequest -> Connection -> Connection);
  conf_gitlookup : option (HTTPRequest -> option bytes);
  conf_gitcommand : option bytes
}.

Module BaseHandler.

(** The attributes of a handler instance. *)
Record t := {
  auth : option (HTTPRequest -> result (bool * bool));
  auth_failed : option (HTTPRequest -> Connection -> Connection);
  gitlookup : option (HTTPRequest -> option bytes);
  gitcommand : bytes;
  public_readble : bool;
  public_writable : bool;
  request : HTTPRequest
}.

(** The class attributes are [None] for the four hooks, so every keyword
    argument is taken; [gitcommand] then defaults to ['git']. *)
Definition initialize (conf : Conf) (request : HTTPRequest) : t :=
  {| auth := conf_auth conf;
     auth_failed := conf_auth_failed conf;
     gitlookup := conf_gitlookup conf;
     gitcommand := match conf_gitcommand conf with
                   | Some g => g
                   | None => str "git"
                   end;
     public_readble := true;
     public_writable := false;
     request := request |}.

Definition get_gitdir (self : t) : M bytes :=
  match gitlookup self with
  | None => raise (HTTPError 500 (str "no git lookup configured"))
  | Some lookup =>
      match lookup (request self) with
      | None => raise (HTTPError 404 (str "unable to find repository"))
      | Some gitdir => ret gitdir
      end
  end.

Definition check_auth (self : t) : M (bool * bool) :=
  match auth self with
  | Some f => lift (f (request self))
  | None => ret (public_readble self, public_writable self)
  end.

(** What both branches do when the permission is missing. *)
Definition deny (self : t) : M bool :=
  match auth_failed self with
  | Some f =>
      effect (f (request self)) ;;;
      effect request_finish ;;;
      ret false
  | None =>
      raise (HTTPError 403 (str "You are not allowed to perform this action"))
  end.

Definition enforce_perms (self : t) (rpc : bytes) : M bool :=
  rw <- check_auth self ;;
  let '(read, write) := rw in
  if mem rpc [str "git-receive-pack"; str "receive-pack"] then
    if negb write then deny self else ret true
  else if mem rpc [str "git-upload-pack"; str "upload-pack"] then
    if negb read then deny self else ret true
  else raise (HTTPError 400 (str "Unknown RPC command")).

End BaseHandler.

Module RPCHandler.
Import BaseHandler.

(** [Ok None]: the handler returned without constructing a bridge;
    [Ok (Some s)]: it ended by constructing [ProcessWrapper] with [s]. *)
Definition post (self : t) : M (option Spawn) :=
  gitdir <- get_gitdir self ;;
  let pathlets := Py.split "/" (Py.strip_char "/" (path (request self))) in
  let rpc := last pathlets [] in
  allowed <- enforce_perms self rpc ;;
  if negb allowed then ret None
  else
    let rpc := skipn 4 rpc in
    ret (Some {| command := [gitcommand self; rpc; str "--stateless-rpc"; gitdir];
                 success_headers :=
                   [(str "Content-Type",
                     str "application/x-git-" ++ rpc ++ str "-result")];
                 spawn_prelude := [] |}).

End RPCHandler.

Module InfoRefsHandler.
Import BaseHandler.

(** The advertisement prelude built from the name left after [rpc[4:]]. *)
Definition make_prelude (rpc : bytes) : bytes :=
  let prelude := str "# service=git-" ++ rpc in
  let prelude := Py.rjust 4 "0" (Py.hex_digits (length prelude + 4)) ++ prelude in
  prelude ++ str "0000".

(** The RPC name of the request: the first [service] parameter of the
    query string, and ['git-upload-pack'] when there is none. *)
Definition requested_service (request : HTTPRequest) : bytes :=
  let rpc :=
    hd [] (Urlparse.dict_get (str "service") [[]]
             (Urlparse.parse_qs (query request))) in
  match rpc with
  | [] => str "git-upload-pack"
  | _ => rpc
  end.

Definition get (self : t) : M (option Spawn) :=
  gitdir <- get_gitdir self ;;
  let rpc := requested_service (request self) in
  allowed <- enforce_perms self rpc ;;
  if negb allowed then ret None
  else
    let rpc := skipn 4 rpc in
    let prelude := make_prelude rpc in
    ret (Some {| command := [gitcommand self; rpc; str "--stateless-rpc";
                             str "--advertise-refs"; gitdir];
                 success_headers :=
                   [(str "Content-Type",
                     str "application/x-git-" ++ rpc ++ str "-advertisement");
                    (str "Expires", str "Fri, 01 Jan 1980 00:00:00 GMT");
                    (str "Pragma", str "no-cache");
                    (str "Cache-Control",
                     str "no-cache, max-age=0, must-revalidate")];
                 spawn_prelude := prelude |}).

End InfoRefsHandler.

(** The [conf] dictionary of [server.main], given to every route. *)
Definition server_conf (options : Options) : Conf :=
  {| conf_auth := Some (Server.auth options);
     conf_auth_failed := Some (Server.auth_failed options);
     conf_gitlookup := Some (Server.gitlookup options);
     conf_gitcommand := None |}.

(** ** A sample deployment, for the concrete evaluations below *)

Module Sample.

(** [alice] may push to [repo.git]. *)
Definition policy : ConfigParser :=
  Config.of_sections
    [(str "users", [(str "alice", str "secret")]);
     (str "access", [(str "alice", str "repo.git")])].

(** [/srv/git] holds the repository [repo.git] and a symbolic link
    [evil] to [/etc]. *)
Definition files : FS.t :=
  [([str "srv"], FS.Dir);
   ([str "srv"; str "git"], FS.Dir);
   ([str "srv"; str "git"; str "repo.git"], FS.Dir);
   ([str "etc"], FS.Dir);
   ([str "srv"; str "git"; str "evil"], FS.Symlink (str "/etc"))].

Definition options : Options :=
  {| gitbase := str "/srv/git";
     realm := str "my git repos";
     accessfile := policy;
     cwd := str "/home/git";
     fs := files |}.

Definition request (m p q : string) (hs : list (bytes * bytes)) : HTTPRequest :=
  {| method := str m; path := str p; query := str q; headers := hs;
     body := []; supports_http_1_1 := true |}.

Definition handler (r : HTTPRequest) : BaseHandler.t :=
  BaseHandler.initialize (server_conf options) r.

End Sample.

(** The components of a path: what lies between its slashes. *)
Definition components (p : bytes) : list bytes :=
  filter (fun c => negb (bytes_eqb c [])) (Py.split "/" p).

(** The repository segment of a request: [pathlets[0]]. *)
Definition repo_segment (request : HTTPRequest) : bytes :=
  hd [] (Py.split "/" (Py.strip_char "/" (path request))).

(** ** Notions the statements about [normpath] use *)

(** What [normpath] computes for an absolute path: the kept components
    behind the kept slashes. *)
Definition norm_comps (path : bytes) : list bytes :=
  fold_left (Posixpath.norm_step (Posixpath.initial_slashes path))
    (Py.split "/" path) [].

Definition render (slashes : nat) (comps : list bytes) : bytes :=
  repeat "/"%char slashes ++ Py.join (str "/") comps.

(** A component that [normpath] keeps in an absolute path. *)
Definition kept (w : bytes) : Prop :=
  w <> [] /\ w <> str "." /\ w <> str ".." /\ ~ In "/"%char w.

(** [join(cwd, b)] for a relative [b] puts [b] behind the working
    directory and one slash. *)
Definition cwd_slash (cwd : bytes) : bytes :=
  if Py.endswith cwd (str "/") then cwd else cwd ++ str "/".

(** ** [gittornado/iowrapper.py] *)

(** *** The world a bridge runs in *)

(** The three descriptors of the child the bridge registers with the loop. *)
Inductive fd := Stdin | Stdout | Stderr.

Definition fd_eqb (a b : fd) : bool :=
  match a, b with
  | Stdin, Stdin | Stdout, Stdout | Stderr, Stderr => true
  | _, _ => false
  end.

(** The event bits of [tornado.ioloop]: [READ] is [EPOLLIN], [WRITE] is
    [EPOLLOUT], [ERROR] is [EPOLLERR | EPOLLHUP]. *)
Definition READ : Z := 1.
Definition WRITE : Z := 4.
Definition EPOLLERR : Z := 8.
Definition EPOLLHUP : Z := 16.
Definition ERROR : Z := Z.lor EPOLLERR EPOLLHUP.

(** [events & mask] as a condition. *)
Definition has (events mask : Z) : bool := negb (Z.land events mask =? 0)%Z.

(** A read the HTTP stream has been asked for and not yet served; the
    callback is [_chunk_length] for the first, [_chunk_data] for the second. *)
Inductive read_request :=
| ReadUntilCRLF
| ReadBytes (num_bytes : Z).

(** A pipe from the child, seen from the bridge: the bytes in the kernel
    buffer, the bytes the child has yet to write, whether the child has
    closed its end, and whether the bridge has closed its file object. *)
Record Pipe := {
  buf : bytes;
  todo : bytes;
  hup : bool;
  closed : bool
}.

Record Process := {
  stdin_closed : bool;           (* [process.stdin.closed] *)
  stdin_received : bytes;        (* what [os.write] has handed to the child *)
  stdin_hup : bool;              (* the child has closed its standard input *)
  stdin_room : nat;              (* room in the pipe at the next [os.write] *)
  stdout : Pipe;
  stderr : Pipe
}.

(** The loop: the registered handlers with their interest, the events of
    the current batch not yet dispatched, the scheduled [read_chunks]
    callbacks, and the exceptions the loop has caught and logged. *)
Record IOLoop := {
  handlers : list (fd * Z);
  events : list (fd * Z);
  callbacks : nat;
  logged : list exn
}.

(** The request's [IOStream]: bytes that have reached the socket, bytes
    the stream has pulled into its buffer, and the pending read. *)
Record IOStream := {
  socket : bytes;
  read_buffer : bytes;
  reading : option read_request
}.

(** What stays fixed during a bridge's life: the request, the value of
    [get_date_header()], and zlib.  [inflate s] is the output of a gzip
    decompressor that has been fed [s] so far; [None] is [zlib.error]. *)
Record Env := {
  request : HTTPRequest;
  date_header : bytes;
  inflate : bytes -> option bytes
}.

(** The child as the bridge meets it: whether [poll()] already reports an
    exit code, and what it writes to its two output streams. *)
Record Child := {
  child_exited : bool;
  child_stdout : bytes;
  child_stderr : bytes
}.

Definition request_headers := headers.

Module ProcessWrapper.

(** The attributes of a [ProcessWrapper]; [gzip_decompressor] holds what
    the decompressor has been fed. *)
Record t := {
  reading_chunks : bool;
  got_chunk : bool;
  headers_sent : bool;
  got_request : bool;
  sent_chunks : bool;
  gzip_decompressor : option bytes;
  gzip_header_seen : bool;
  process_input_buffer : bytes;
  output_prelude : bytes;
  headers : list (bytes * bytes)
}.

Record State := {
  self : t;
  process : Process;
  ioloop : IOLoop;
  httpstream : IOStream;
  connection : Connection
}.

(** **** Field updates *)

Definition set_reading_chunks (v : bool) (r : t) : t :=
  {| reading_chunks := v; got_chunk := got_chunk r; headers_sent :=
     headers_sent r; got_request := got_request r; sent_chunks :=
     sent_chunks r; gzip_decompressor := gzip_decompressor r;
     gzip_header_seen := gzip_header_seen r; process_input_buffer :=
     process_input_buffer r; output_prelude := output_prelude r; headers :=
     headers r |}.
Definition set_got_chunk (v : bool) (r : t) : t :=
  {| reading_chunks := reading_chunks r; got_chunk := v; headers_sent :=
     headers_sent r; got_request := got_request r; sent_chunks :=
     sent_chunks r; gzip_decompressor := gzip_decompressor r;
     gzip_header_seen := gzip_header_seen r; process_input_buffer :=
     process_input_buffer r; output_prelude := output_prelude r; headers :=
     headers r |}.
Definition set_headers_sent (v : bool) (r : t) : t :=
  {| reading_chunks := reading_chunks r; got_chunk := got_chunk r;
     headers_sent := v; got_request := got_request r; sent_chunks :=
     sent_chunks r; gzip_decompressor := gzip_decompressor r;
     gzip_header_seen := gzip_header_seen r; process_input_buffer :=
     process_input_buffer r; output_prelude := output_prelude r; headers :=
     headers r |}.
Definition set_got_request (v : bool) (r : t) : t :=
  {| reading_chunks := reading_chunks r; got_chunk := got_chunk r;
     headers_sent := headers_sent r; got_request := v; sent_chunks :=
     sent_chunks r; gzip_decompressor := gzip_decompressor r;
     gzip_header_seen := gzip_header_seen r; process_input_buffer :=
     process_input_buffer r; output_prelude := output_prelude r; headers :=
     headers r |}.
Definition set_sent_chunks (v : bool) (r : t) : t :=
  {| reading_chunks := reading_chunks r; got_chunk := got_chunk r;
     headers_sent := headers_sent r; got_request := got_request r;
     sent_chunks := v; gzip_decompressor := gzip_decompressor r;
     gzip_header_seen := gzip_header_seen r; process_input_buffer :=
     process_input_buffer r; output_prelude := output_prelude r; headers :=
     headers r |}.
Definition set_gzip_decompressor (v : option bytes) (r : t) : t :=
  {| reading_chunks := reading_chunks r; got_chunk := got_chunk r;
     headers_sent := headers_sent r; got_request := got_request r;
     sent_chunks := sent_chunks r; gzip_decompressor := v; gzip_header_seen
     := gzip_header_seen r; process_input_buffer := process_input_buffer r;
     output_prelude := output_prelude r; headers := headers r |}.
Definition set_gzip_header_seen (v : bool) (r : t) : t :=
  {| reading_chunks := reading_chunks r; got_chunk := got_chunk r;
     headers_sent := headers_sent r; got_request := got_request r;
     sent_chunks := sent_chunks r; gzip_decompressor := gzip_decompressor r;
     gzip_header_seen := v; process_input_buffer := process_input_buffer r;
     output_prelude := output_prelude r; headers := headers r |}.
Definition set_process_input_buffer (v : bytes) (r : t) : t :=
  {| reading_chunks := reading_chunks r; got_chunk := got_chunk r;
     headers_sent := headers_sent r; got_request := got_request r;
     sent_chunks := sent_chunks r; gzip_decompressor := gzip_decompressor r;
     gzip_header_seen := gzip_header_seen r; process_input_buffer := v;
     output_prelude := output_prelude r; headers := headers r |}.
Definition set_headers (v : list (bytes * bytes)) (r : t) : t :=
  {| reading_chunks := reading_chunks r; got_chunk := got_chunk r;
     headers_sent := headers_sent r; got_request := got_request r;
     sent_chunks := sent_chunks r; gzip_decompressor := gzip_decompressor r;
     gzip_header_seen := gzip_header_seen r; process_input_buffer :=
     process_input_buffer r; output_prelude := output_prelude r; headers :=
     v |}.

Definition set_buf (v : bytes) (r : Pipe) : Pipe :=
  {| buf := v; todo := todo r; hup := hup r; closed := closed r |}.
Definition set_todo (v : bytes) (r : Pipe) : Pipe :=
  {| buf := buf r; todo := v; hup := hup r; closed := closed r |}.
Definition set_hup (v : bool) (r : Pipe) : Pipe :=
  {| buf := buf r; todo := todo r; hup := v; closed := closed r |}.
Definition set_closed (v : bool) (r : Pipe) : Pipe :=
  {| buf := buf r; todo := todo r; hup := hup r; closed := v |}.

Definition set_stdin_closed (v : bool) (r : Process) : Process :=
  {| stdin_closed := v; stdin_received := stdin_received r; stdin_hup :=
     stdin_hup r; stdin_room := stdin_room r; stdout := stdout r; stderr :=
     stderr r |}.
Definition set_stdin_received (v : bytes) (r : Process) : Process :=
  {| stdin_closed := stdin_closed r; stdin_received := v; stdin_hup :=
     stdin_hup r; stdin_room := stdin_room r; stdout := stdout r; stderr :=
     stderr r |}.
Definition set_stdin_hup (v : bool) (r : Process) : Process :=
  {| stdin_closed := stdin_closed r; stdin_received := stdin_received r;
     stdin_hup := v; stdin_room := stdin_room r; stdout := stdout r; stderr
     := stderr r |}.
Definition set_stdin_room (v : nat) (r : Process) : Process :=
  {| stdin_closed := stdin_closed r; stdin_received := stdin_received r;
     stdin_hup := stdin_hup r; stdin_room := v; stdout := stdout r; stderr
     := stderr r |}.
Definition set_stdout (v : Pipe) (r : Process) : Process :=
  {| stdin_closed := stdin_closed r; stdin_received := stdin_received r;
     stdin_hup := stdin_hup r; stdin_room := stdin_room r; stdout := v;
     stderr := stderr r |}.
Definition set_stderr (v : Pipe) (r : Process) : Process :=
  {| stdin_closed := stdin_closed r; stdin_received := stdin_received r;
     stdin_hup := stdin_hup r; stdin_room := stdin_room r; stdout := stdout
     r; stderr := v |}.

Definition set_handlers (v : list (fd * Z)) (r : IOLoop) : IOLoop :=
  {| handlers := v; events := events r; callbacks := callbacks r; logged :=
     logged r |}.
Definition set_events (v : list (fd * Z)) (r : IOLoop) : IOLoop :=
  {| handlers := handlers r; events := v; callbacks := callbacks r; logged
     := logged r |}.
Definition set_callbacks (v : nat) (r : IOLoop) : IOLoop :=
  {| handlers := handlers r; events := events r; callbacks := v; logged :=
     logged r |}.
Definition set_logged (v : list exn) (r : IOLoop) : IOLoop :=
  {| handlers := handlers r; events := events r; callbacks := callbacks r;
     logged := v |}.

Definition set_socket (v : bytes) (r : IOStream) : IOStream :=
  {| socket := v; read_buffer := read_buffer r; reading := reading r |}.
Definition set_read_buffer (v : bytes) (r : IOStream) : IOStream :=
  {| socket := socket r; read_buffer := v; reading := reading r |}.
Definition set_reading (v : option read_request) (r : IOStream) : IOStream :=
  {| socket := socket r; read_buffer := read_buffer r; reading := v |}.

Definition set_self (v : t) (r : State) : State :=
  {| self := v; process := process r; ioloop := ioloop r; httpstream :=
     httpstream r; connection := connection r |}.
Definition set_process (v : Process) (r : State) : State :=
  {| self := self r; process := v; ioloop := ioloop r; httpstream :=
     httpstream r; connection := connection r |}.
Definition set_ioloop (v : IOLoop) (r : State) : State :=
  {| self := self r; process := process r; ioloop := v; httpstream :=
     httpstream r; connection := connection r |}.
Definition set_httpstream (v : IOStream) (r : State) : State :=
  {| self := self r; process := process r; ioloop := ioloop r; httpstream :=
     v; connection := connection r |}.
Definition set_connection (v : Connection) (r : State) : State :=
  {| self := self r; process := process r; ioloop := ioloop r; httpstream :=
     httpstream r; connection := v |}.


Definition B (A : Type) := ST State A.

Definition upd_self (f : t -> t) : B unit := effect (fun s => set_self (f (self s)) s).
Definition upd_process (f : Process -> Process) : B unit :=
  effect (fun s => set_process (f (process s)) s).
Definition upd_ioloop (f : IOLoop -> IOLoop) : B unit :=
  effect (fun s => set_ioloop (f (ioloop s)) s).
Definition upd_stream (f : IOStream -> IOStream) : B unit :=
  effect (fun s => set_httpstream (f (httpstream s)) s).

(** **** The connection *)

(** [self.request.write(data)] and [self.request.finish()] *)
Definition write (data : bytes) : B unit :=
  effect (fun s => set_connection (request_write data (connection s)) s).
Definition finish : B unit :=
  effect (fun s => set_connection (request_finish (connection s)) s).

(** **** The pipes *)

Definition pipe_of (f : fd) (p : Process) : Pipe :=
  match f with
  | Stderr => stderr p
  | _ => stdout p
  end.

Definition set_pipe (f : fd) (v : Pipe) (p : Process) : Process :=
  match f with
  | Stderr => set_stderr v p
  | _ => set_stdout v p
  end.

(** [os.read(fd, n)] on one of the child's output pipes. *)
Definition os_read (f : fd) (n : nat) : B bytes :=
  p <- read (fun s => pipe_of f (process s)) ;;
  if closed p then raise OSError
  else
    match buf p with
    | [] => if hup p then ret [] else raise WouldBlock
    | _ =>
        upd_process (set_pipe f (set_buf (skipn n (buf p)) p)) ;;;
        ret (firstn n (buf p))
    end.

(** [file.read()] on an output pipe: everything up to end of file, which
    is everything the child still writes. *)
Definition file_read (f : fd) : B bytes :=
  p <- read (fun s => pipe_of f (process s)) ;;
  if closed p then raise ValueError
  else
    upd_process (set_pipe f (set_hup true (set_todo [] (set_buf [] p)))) ;;;
    ret (buf p ++ todo p).

(** [file.close()] on an output pipe. *)
Definition file_close (f : fd) : B unit :=
  upd_process (fun p => set_pipe f (set_closed true (pipe_of f p)) p).

(** [os.write(fd_stdin, data)]: the kernel takes what there is room for. *)
Definition os_write (data : bytes) : B nat :=
  p <- read process ;;
  if stdin_closed p || stdin_hup p then raise OSError
  else
    let count := Nat.min (stdin_room p) (length data) in
    upd_process (set_stdin_received (stdin_received p ++ firstn count data)) ;;;
    ret count.

Definition stdin_close : B unit := upd_process (set_stdin_closed true).

Definition fd_closed (f : fd) (p : Process) : bool :=
  match f with
  | Stdin => stdin_closed p
  | Stdout => closed (stdout p)
  | Stderr => closed (stderr p)
  end.

(** **** The loop *)

Fixpoint lookup_fd (f : fd) (l : list (fd * Z)) : option Z :=
  match l with
  | [] => None
  | (g, v) :: l' => if fd_eqb g f then Some v else lookup_fd f l'
  end.

Definition remove_fd (f : fd) (l : list (fd * Z)) : list (fd * Z) :=
  filter (fun e => negb (fd_eqb (fst e) f)) l.

(** [ioloop.add_handler(fd, handler, events)] *)
Definition add_handler (f : fd) (interest : Z) : B unit :=
  upd_ioloop (fun l => set_handlers (handlers l ++ [(f, interest)]) l).

(** [ioloop.update_handler(fd, events)]: the kernel refuses a descriptor
    that is closed or not registered. *)
Definition update_handler (f : fd) (interest : Z) : B unit :=
  s <- read (fun s => s) ;;
  match lookup_fd f (handlers (ioloop s)) with
  | Some _ =>
      if fd_closed f (process s) then raise OSError
      else
        upd_ioloop (fun l =>
          set_handlers
            (map (fun e => if fd_eqb (fst e) f then (f, interest) else e)
               (handlers l)) l)
  | None => raise OSError
  end.

(** [ioloop.remove_handler(fd)]: the handler and its pending event go. *)
Definition remove_handler (f : fd) : B unit :=
  upd_ioloop (fun l =>
    set_events (remove_fd f (events l)) (set_handlers (remove_fd f (handlers l)) l)).

(** [ioloop.add_callback(self.read_chunks)] *)
Definition add_callback : B unit :=
  upd_ioloop (fun l => set_callbacks (S (callbacks l)) l).

(** **** zlib *)

(** [self.gzip_decompressor.decompress(data)]: the output the new input
    adds. *)
Definition decompress (env : Env) (data : bytes) : B bytes :=
  z <- read (fun s => gzip_decompressor (self s)) ;;
  match z with
  | None => raise (AttributeError (str "decompress"))
  | Some fed =>
      match inflate env fed, inflate env (fed ++ data) with
      | Some before, Some after =>
          upd_self (set_gzip_decompressor (Some (fed ++ data))) ;;;
          ret (skipn (length before) after)
      | _, _ => raise ZlibError
      end
  end.

Definition gzip_magic : bytes := [ascii_of_nat 31; ascii_of_nat 139].

(** **** The inbound path *)

Definition _chunk_data (env : Env) (data : bytes) : B unit :=
  assert (bytes_eqb (Py.last_n 2 data) CRLF) (str "CRLF") ;;;
  z <- read (fun s => gzip_decompressor (self s)) ;;
  match z with
  | Some _ =>
      seen <- read (fun s => gzip_header_seen (self s)) ;;
      when (negb seen)
        (assert (bytes_eqb (firstn 2 data) gzip_magic) (str "gzip header") ;;;
         upd_self (set_gzip_header_seen true)) ;;;
      out <- decompress env (Py.drop_last 2 data) ;;
      upd_self (fun r => set_process_input_buffer (process_input_buffer r ++ out) r)
  | None =>
      upd_self (fun r =>
        set_process_input_buffer (process_input_buffer r ++ Py.drop_last 2 data) r)
  end ;;;
  upd_self (set_got_chunk true) ;;;
  b <- read (fun s => process_input_buffer (self s)) ;;
  when (negb (bytes_eqb b [])) (update_handler Stdin (Z.lor WRITE ERROR)) ;;;
  add_callback.

(** [s[:n]] and [s[n:]] for any integer [n]. *)
Definition slice_to (n : Z) (s : bytes) : bytes :=
  if (0 <=? n)%Z then firstn (Z.to_nat n) s
  else firstn (length s - Z.to_nat (- n)) s.
Definition slice_from (n : Z) (s : bytes) : bytes :=
  if (0 <=? n)%Z then skipn (Z.to_nat n) s
  else skipn (length s - Z.to_nat (- n)) s.

(** [stream._consume(loc)] *)
Definition consume (loc : Z) : B bytes :=
  b <- read (fun s => read_buffer (httpstream s)) ;;
  upd_stream (set_read_buffer (slice_from loc b)) ;;;
  ret (slice_to loc b).

(** [httpstream.read_bytes(num_bytes, self._chunk_data)]: served at once
    when the buffer holds enough, pending otherwise. *)
Definition read_bytes (env : Env) (num_bytes : Z) : B unit :=
  st <- read httpstream ;;
  assert (match reading st with None => true | Some _ => false end)
    (str "Already reading") ;;;
  if (num_bytes <=? Z.of_nat (length (read_buffer st)))%Z then
    data <- consume num_bytes ;;
    _chunk_data env data
  else upd_stream (set_reading (Some (ReadBytes num_bytes))).

Definition _chunk_length (env : Env) (data : bytes) : B unit :=
  assert (bytes_eqb (Py.last_n 2 data) CRLF) (str "CRLF") ;;;
  let length := hd [] (Py.split ";" (Py.drop_last 2 data)) in
  match Py.int16 (Py.strip length) with
  | None => raise ValueError
  | Some length =>
      if negb (length =? 0)%Z then read_bytes env (length + 2)
      else
        upd_self (set_got_request true) ;;;
        update_handler Stdin (Z.lor WRITE ERROR)
  end.

(** [s.find(sub)] *)
Fixpoint find (sub s : bytes) : option nat :=
  if Py.startswith s sub then Some 0
  else match s with
       | [] => None
       | _ :: s' => option_map S (find sub s')
       end.

(** [httpstream.read_until("\r\n", self._chunk_length)] *)
Definition read_until (env : Env) : B unit :=
  st <- read httpstream ;;
  assert (match reading st with None => true | Some _ => false end)
    (str "Already reading") ;;;
  match find CRLF (read_buffer st) with
  | Some loc =>
      data <- consume (Z.of_nat (loc + 2)) ;;
      _chunk_length env data
  | None => upd_stream (set_reading (Some ReadUntilCRLF))
  end.

(** The [while not self.got_request] loop; every further turn follows a
    chunk read from the buffer, so [fuel] beyond the buffer's length is
    never used up. *)
Fixpoint read_chunks_loop (env : Env) (fuel : nat) : B unit :=
  match fuel with
  | 0 => ret tt
  | S fuel' =>
      done <- read (fun s => got_request (self s)) ;;
      if done then ret tt
      else
        upd_self (set_reading_chunks true) ;;;
        upd_self (set_got_chunk false) ;;;
        read_until env ;;;
        upd_self (set_reading_chunks false) ;;;
        again <- read (fun s => got_chunk (self s)) ;;
        if again then read_chunks_loop env fuel' else ret tt
  end.

Definition read_chunks (env : Env) : B unit :=
  r <- read self ;;
  if reading_chunks r && got_chunk r then ret tt
  else
    b <- read (fun s => read_buffer (httpstream s)) ;;
    read_chunks_loop env (S (length b)).

(** **** Completion *)

(** [ProcessWrapper] defines no [_get_date]: the attribute lookup raises. *)
Definition _get_date : B bytes := raise (AttributeError (str "_get_date")).

Definition _graceful_finish : B unit :=
  p <- read process ;;
  if negb (closed (stdout p)) || negb (closed (stderr p)) then ret tt
  else
    when (negb (stdin_closed p)) stdin_close ;;;
    sent <- read (fun s => headers_sent (self s)) ;;
    chunked <- read (fun s => sent_chunks (self s)) ;;
    (if negb sent then
       let payload := str "did not produce any data" in
       date <- _get_date ;;
       let data := str "HTTP/1.1 500 Internal Server Error" ++ CRLF
                   ++ str "Date: " ++ date ++ CRLF
                   ++ str "Content-Length: " ++ Py.str_of_nat (length payload)
                   ++ CRLF ++ CRLF in
       upd_self (set_headers_sent true) ;;;
       write (data ++ payload)
     else if chunked then
       write (str "0" ++ CRLF) ;;;
       write CRLF
     else ret tt) ;;;
    finish.

(** **** The three handlers *)

Definition _handle_stdin_event (events : Z) : B unit :=
  if has events ERROR then
    p <- read process ;;
    when (negb (stdin_closed p)) stdin_close ;;;
    remove_handler Stdin ;;;
    _graceful_finish
  else
    b <- read (fun s => process_input_buffer (self s)) ;;
    when (negb (bytes_eqb b []))
      (count <- os_write b ;;
       upd_self (set_process_input_buffer (skipn count b))) ;;;
    r <- read self ;;
    when (bytes_eqb (process_input_buffer r) [])
      (if got_request r then
         stdin_close ;;;
         remove_handler Stdin
       else update_handler Stdin ERROR).

(** [d.update({k: v})] on the headers, kept in insertion order. *)
Fixpoint dict_set (k v : bytes) (d : list (bytes * bytes)) : list (bytes * bytes) :=
  match d with
  | [] => [(k, v)]
  | (k', v') :: d' =>
      if bytes_eqb k' k then (k', v) :: d' else (k', v') :: dict_set k v d'
  end.

(** [status + '\r\n'.join([k + ': ' + v ...]) + '\r\n\r\n'] *)
Definition response_head (status : bytes) (hs : list (bytes * bytes)) : bytes :=
  status ++ CRLF
  ++ Py.join CRLF (map (fun kv => fst kv ++ str ": " ++ snd kv) hs)
  ++ CRLF ++ CRLF.

(** One chunk of the chunked transfer encoding. *)
Definition chunk (payload : bytes) : bytes :=
  Py.hex_digits (length payload) ++ CRLF ++ payload ++ CRLF.

(** The [while remainder != ''] loop after a hang-up. *)
Fixpoint drain (fuel : nat) (payload : bytes) : B bytes :=
  match fuel with
  | 0 => ret payload
  | S fuel' =>
      remainder <- os_read Stdout 8192 ;;
      let payload := payload ++ remainder in
      match remainder with
      | [] => ret payload
      | _ => drain fuel' payload
      end
  end.

Definition _handle_stdout_event (env : Env) (events : Z) : B unit :=
  when (has events READ)
    (data <-
       (if supports_http_1_1 (request env) then
          sent <- read (fun s => headers_sent (self s)) ;;
          data <-
            (if negb sent then
               upd_self (set_sent_chunks true) ;;;
               upd_self (fun r =>
                 set_headers
                   (dict_set (str "Transfer-Encoding") (str "chunked")
                      (dict_set (str "Date") (date_header env) (headers r))) r) ;;;
               r <- read self ;;
               let data := response_head (str "HTTP/1.1 200 OK") (headers r) in
               let data :=
                 match output_prelude r with
                 | [] => data
                 | prelude => data ++ Py.hex_digits (length prelude) ++ CRLF
                              ++ prelude ++ CRLF
                 end in
               upd_self (set_headers_sent true) ;;;
               ret data
             else ret []) ;;
          payload <- os_read Stdout 8192 ;;
          payload <-
            (if has events ERROR then
               rest <- read (fun s => buf (stdout (process s))) ;;
               drain (S (length rest)) payload
             else ret payload) ;;
          ret (data ++ Py.hex_digits (length payload) ++ CRLF ++ payload ++ CRLF)
        else
          sent <- read (fun s => headers_sent (self s)) ;;
          if negb sent then
            payload <- file_read Stdout ;;
            upd_self (fun r =>
              set_headers
                (dict_set (str "Content-Length") (Py.str_of_nat (length payload))
                   (dict_set (str "Date") (date_header env) (headers r))) r) ;;;
            r <- read self ;;
            let data := response_head (str "HTTP/1.0 200 OK") (headers r) in
            upd_self (set_headers_sent true) ;;;
            ret (data ++ output_prelude r ++ payload)
          else file_read Stdout) ;;
     write data) ;;;
  when (has events ERROR)
    (p <- read process ;;
     when (negb (closed (stdout p))) (file_close Stdout) ;;;
     remove_handler Stdout ;;;
     _graceful_finish).

Definition _handle_stderr_event (env : Env) (events : Z) : B unit :=
  when (has events READ)
    (sent <- read (fun s => headers_sent (self s)) ;;
     data <-
       (if negb sent then
          payload <- file_read Stderr ;;
          let data := str "HTTP/1.1 500 Internal Server Error" ++ CRLF
                      ++ str "Date: " ++ date_header env ++ CRLF
                      ++ str "Content-Length: " ++ Py.str_of_nat (length payload)
                      ++ CRLF ++ CRLF in
          upd_self (set_headers_sent true) ;;;
          ret (data ++ payload)
        else file_read Stderr) ;;
     write data) ;;;
  when (has events ERROR)
    (p <- read process ;;
     when (negb (closed (stderr p))) (file_close Stderr) ;;;
     remove_handler Stderr ;;;
     _graceful_finish).

(** **** Construction *)

(** The state [__init__] starts from: the class attributes, the child
    behind its pipes, and the request body split between what the stream
    has already buffered and what is still on the socket. *)
Definition blank (spawn : Spawn) (child : Child) (c : Connection)
  (buffered on_socket : bytes) : State :=
  {| self := {| reading_chunks := false; got_chunk := false;
                headers_sent := false; got_request := false;
                sent_chunks := false; gzip_decompressor := None;
                gzip_header_seen := false; process_input_buffer := [];
                output_prelude := spawn_prelude spawn;
                headers := success_headers spawn |};
     process := {| stdin_closed := false; stdin_received := [];
                   stdin_hup := false; stdin_room := 0;
                   stdout := {| buf := []; todo := child_stdout child;
                                hup := false; closed := false |};
                   stderr := {| buf := []; todo := child_stderr child;
                                hup := false; closed := false |} |};
     ioloop := {| handlers := []; events := []; callbacks := 0; logged := [] |};
     httpstream := {| socket := on_socket; read_buffer := buffered;
                      reading := None |};
     connection := c |}.

Definition default (d : bytes) (o : option bytes) : bytes :=
  match o with
  | Some v => v
  | None => d
  end.

Definition __init__ (env : Env) (child : Child) : B unit :=
  when (child_exited child)
    (raise (HTTPError 500 (str "subprocess returned prematurely"))) ;;;
  add_handler Stdout (Z.lor READ ERROR) ;;;
  add_handler Stderr (Z.lor READ ERROR) ;;;
  add_handler Stdin (Z.lor WRITE ERROR) ;;;
  let hs := request_headers (request env) in
  when (Py.contains
          (Py.lower (default [] (headers_get (str "Content-Encoding") hs)))
          (str "gzip"))
    (upd_self (set_gzip_decompressor (Some []))) ;;;
  if bytes_eqb (method (request env)) (str "POST") then
    if bytes_eqb (default [] (headers_get (str "Expect") hs)) (str "100-continue")
       && bytes_eqb (default [] (headers_get (str "Transfer-Encoding") hs))
            (str "chunked")
    then
      write (str "HTTP/1.1 100 (Continue)" ++ CRLF ++ CRLF) ;;;
      read_chunks env
    else
      z <- read (fun s => gzip_decompressor (self s)) ;;
      match z with
      | Some _ =>
          assert (bytes_eqb (firstn 2 (body (request env))) gzip_magic)
            (str "gzip header") ;;;
          out <- decompress env (body (request env)) ;;
          upd_self (set_process_input_buffer out)
      | None => upd_self (set_process_input_buffer (body (request env)))
      end ;;;
      upd_self (set_got_request true)
  else upd_self (set_got_request true).

End ProcessWrapper.

(** *** Running a bridge *)

(** What happens around a bridge, one step at a time. *)
Inductive action :=
| ChildWrite (f : fd) (n : nat)   (* the child writes its next [n] bytes to [f] *)
| ChildClose (f : fd)             (* the child closes its end of [f] *)
| Poll (stdin_writable : bool)    (* the loop collects the ready descriptors *)
| Dispatch (f : fd) (room : nat)  (* the loop runs the handler of a pending event *)
| StreamRead (n : nat)            (* the stream pulls [n] bytes from the socket *)
| RunCallback.                    (* the loop runs one scheduled callback *)

Module Run.
Import ProcessWrapper.

(** The loop logs what a handler or callback raises and goes on. *)
Definition run_logged (m : B unit) (s : State) : State :=
  match m s with
  | (Ok _, s') => s'
  | (Raise e, s') =>
      set_ioloop (set_logged (logged (ioloop s') ++ [e]) (ioloop s')) s'
  end.

Definition child_write (f : fd) (n : nat) (p : Process) : Process :=
  match f with
  | Stdin => p
  | _ =>
      let q := pipe_of f p in
      if hup q then p
      else set_pipe f (set_todo (skipn n (todo q)) (set_buf (buf q ++ firstn n (todo q)) q)) p
  end.

(** The child closes an output once it has written all of it. *)
Definition child_close (f : fd) (p : Process) : Process :=
  match f with
  | Stdin => set_stdin_hup true p
  | _ =>
      let q := pipe_of f p in
      match todo q with
      | [] => set_pipe f (set_hup true q) p
      | _ => p
      end
  end.

(** What level-triggered [epoll] reports for a descriptor. *)
Definition pipe_ready (q : Pipe) : Z :=
  if closed q then 0%Z
  else Z.lor (match buf q with [] => 0%Z | _ => READ end)
             (if hup q then EPOLLHUP else 0%Z).

Definition ready (stdin_writable : bool) (p : Process) (f : fd) : Z :=
  match f with
  | Stdin =>
      if stdin_closed p then 0%Z
      else Z.lor (if stdin_writable then WRITE else 0%Z)
                 (if stdin_hup p then EPOLLERR else 0%Z)
  | Stdout => pipe_ready (stdout p)
  | Stderr => pipe_ready (stderr p)
  end.

(** A new batch of events, once the previous one is used up. *)
Definition poll (stdin_writable : bool) (s : State) : State :=
  match events (ioloop s) with
  | [] =>
      set_ioloop
        (set_events
           (filter (fun e => negb (snd e =? 0)%Z)
              (map (fun h => (fst h,
                              Z.land (ready stdin_writable (process s) (fst h))
                                     (Z.lor (snd h) ERROR)))
                 (handlers (ioloop s))))
           (ioloop s)) s
  | _ => s
  end.

Definition handler (env : Env) (f : fd) (ev : Z) : B unit :=
  match f with
  | Stdin => _handle_stdin_event ev
  | Stdout => _handle_stdout_event env ev
  | Stderr => _handle_stderr_event env ev
  end.

Definition dispatch (env : Env) (f : fd) (room : nat) (s : State) : State :=
  match lookup_fd f (events (ioloop s)) with
  | None => s
  | Some ev =>
      let s := set_ioloop (set_events (remove_fd f (events (ioloop s))) (ioloop s)) s in
      let s := set_process (set_stdin_room room (process s)) s in
      match lookup_fd f (handlers (ioloop s)) with
      | None => s
      | Some _ => run_logged (handler env f ev) s
      end
  end.

(** [IOStream._handle_read]: more bytes reach the buffer, and the pending
    read is served when they suffice. *)
Definition stream_read (env : Env) (n : nat) (s : State) : State :=
  let st := httpstream s in
  match reading st, firstn n (socket st) with
  | None, _ => s
  | Some _, [] => s
  | Some r, chunk =>
      let b := read_buffer st ++ chunk in
      let s := set_httpstream (set_read_buffer b (set_socket (skipn n (socket st)) st)) s in
      match r with
      | ReadBytes k =>
          if (k <=? Z.of_nat (length b))%Z then
            run_logged
              (upd_stream (set_reading None) ;;;
               data <- consume k ;;
               _chunk_data env data) s
          else s
      | ReadUntilCRLF =>
          match find CRLF b with
          | Some loc =>
              run_logged
                (upd_stream (set_reading None) ;;;
                 data <- consume (Z.of_nat (loc + 2)) ;;
                 _chunk_length env data) s
          | None => s
          end
      end
  end.

Definition run_callback (env : Env) (s : State) : State :=
  match callbacks (ioloop s) with
  | 0 => s
  | S n => run_logged (read_chunks env) (set_ioloop (set_callbacks n (ioloop s)) s)
  end.

Definition step (env : Env) (s : State) (a : action) : State :=
  match a with
  | ChildWrite f n => set_process (child_write f n (process s)) s
  | ChildClose f => set_process (child_close f (process s)) s
  | Poll w => poll w s
  | Dispatch f room => dispatch env f room s
  | StreamRead n => stream_read env n s
  | RunCallback => run_callback env s
  end.

Definition run (env : Env) (trace : list action) (s : State) : State :=
  fold_left (step env) trace s.

(** The bridge [ProcessWrapper(request, command, headers, prelude)]
    constructs, or the exception the constructor raises. *)
Definition start (env : Env) (spawn : Spawn) (child : Child) (c : Connection)
  (buffered on_socket : bytes) : result State :=
  match __init__ env child (blank spawn child c buffered on_socket) with
  | (Ok _, s) => Ok s
  | (Raise e, _) => Raise e
  end.

End Run.

(** *** Chunked transfer decoding, as the specification words it *)

(** Each chunk-size line is read up to its CRLF and its first
    [;]-separated field parsed as a hexadecimal length; that many bytes
    and a CRLF follow; a zero length ends the body. *)
Fixpoint dechunk_go (fuel : nat) (s : bytes) : option bytes :=
  match fuel with
  | 0 => None
  | S fuel' =>
      match ProcessWrapper.find CRLF s with
      | None => None
      | Some loc =>
          let rest := skipn (loc + 2) s in
          match Py.int16 (Py.strip (hd [] (Py.split ";" (firstn loc s)))) with
          | None => None
          | Some n =>
              if (n =? 0)%Z then Some []
              else if (n <? 0)%Z then None
              else
                let k := Z.to_nat n in
                if (k + 2 <=? length rest)
                   && bytes_eqb (firstn 2 (skipn k rest)) CRLF
                then option_map (app (firstn k rest))
                       (dechunk_go fuel' (skipn (k + 2) rest))
                else None
          end
      end
  end.

Definition dechunk (s : bytes) : option bytes := dechunk_go (S (length s)) s.

(** ** Sample bridges, for the concrete evaluations below *)

Module SampleBridge.

(** A stand-in for gzip that a test can compute with: the two magic
    bytes, then the data stored as it is. *)
Definition stored (s : bytes) : option bytes :=
  match s with
  | [] => Some []
  | [a] => if bytes_eqb [a] (firstn 1 ProcessWrapper.gzip_magic) then Some [] else None
  | a :: b :: rest =>
      if bytes_eqb [a; b] ProcessWrapper.gzip_magic then Some rest else None
  end.

Definition date : bytes := str "Thu, 05 Nov 2026 00:00:00 GMT".

(** [GET /repo.git/info/refs?service=git-upload-pack] over HTTP/1.1. *)
Definition advert_env : Env :=
  {| request := Sample.request "GET" "/repo.git/info/refs" "service=git-upload-pack" [];
     date_header := date;
     inflate := stored |}.

(** What [InfoRefsHandler.get] hands to [ProcessWrapper] for it. *)
Definition advert : Spawn :=
  {| command := [str "git"; str "upload-pack"; str "--stateless-rpc";
                 str "--advertise-refs"; str "/srv/git/repo.git"];
     success_headers :=
       [(str "Content-Type", str "application/x-git-upload-pack-advertisement");
        (str "Expires", str "Fri, 01 Jan 1980 00:00:00 GMT");
        (str "Pragma", str "no-cache");
        (str "Cache-Control", str "no-cache, max-age=0, must-revalidate")];
     spawn_prelude := str "001d# service=git-upload-pack0000" |}.

(** The head of the chunked answer to it. *)
Definition advert_head : bytes :=
  str "HTTP/1.1 200 OK" ++ CRLF
  ++ str "Content-Type: application/x-git-upload-pack-advertisement" ++ CRLF
  ++ str "Expires: Fri, 01 Jan 1980 00:00:00 GMT" ++ CRLF
  ++ str "Pragma: no-cache" ++ CRLF
  ++ str "Cache-Control: no-cache, max-age=0, must-revalidate" ++ CRLF
  ++ str "Date: Thu, 05 Nov 2026 00:00:00 GMT" ++ CRLF
  ++ str "Transfer-Encoding: chunked" ++ CRLF ++ CRLF.

(** A child that writes [out] and [err] and is alive when spawned. *)
Definition child (out err : string) : Child :=
  {| child_exited := false; child_stdout := str out; child_stderr := str err |}.

(** [POST /repo.git/git-upload-pack], chunked and gzipped, the body still
    to come after [100 Continue]. *)
Definition upload_env : Env :=
  {| request :=
       {| method := str "POST"; path := str "/repo.git/git-upload-pack";
          query := [];
          headers := [(str "Expect", str "100-continue");
                      (str "Transfer-Encoding", str "chunked");
                      (str "Content-Encoding", str "gzip")];
          body := []; supports_http_1_1 := true |};
     date_header := date;
     inflate := stored |}.

Definition upload : Spawn :=
  {| command := [str "git"; str "upload-pack"; str "--stateless-rpc";
                 str "/srv/git/repo.git"];
     success_headers :=
       [(str "Content-Type", str "application/x-git-upload-pack-result")];
     spawn_prelude := [] |}.

(** The stored stream of [abcdef] in two chunks, the second with a
    chunk extension. *)
Definition body_two_chunks : bytes :=
  str "5" ++ CRLF ++ ProcessWrapper.gzip_magic ++ str "abc" ++ CRLF
  ++ str "3;x=y" ++ CRLF ++ str "def" ++ CRLF
  ++ str "0" ++ CRLF ++ CRLF.

(** The stored stream of [def], its first chunk one byte long. *)
Definition body_split_magic : bytes :=
  str "1" ++ CRLF ++ firstn 1 ProcessWrapper.gzip_magic ++ CRLF
  ++ str "4" ++ CRLF ++ skipn 1 ProcessWrapper.gzip_magic ++ str "def" ++ CRLF
  ++ str "0" ++ CRLF ++ CRLF.

End SampleBridge.

(** ** Reasoning about stateful code *)

(** [wp m Q E s]: run from [s], [m] either returns [a] in a state with
    [Q a], or raises in a state with [E]. *)
Definition wp {S A} (m : ST S A) (Q : A -> S -> Prop) (E : S -> Prop) (s : S)
  : Prop :=
  match m s with
  | (Ok a, s') => Q a s'
  | (Raise _, s') => E s'
  end.

(** [m] leaves the observation [view] of the state as it is. *)
Definition keeps {S A V} (view : S -> V) (m : ST S A) : Prop :=
  forall s, view (snd (m s)) = view s.

(** ** The inbound path, chunk by chunk *)

(** The first chunk-size line of [s]: the length it announces and what
    follows the line. *)
Definition chunk_size (s : bytes) : option (Z * bytes) :=
  match ProcessWrapper.find CRLF s with
  | None => None
  | Some loc =>
      match Py.int16 (Py.strip (hd [] (Py.split ";" (firstn loc s)))) with
      | None => None
      | Some n => Some (n, skipn (loc + 2) s)
      end
  end.

(** [Dechunk s p]: [s] starts with a chunked body whose payload is [p]. *)
Inductive Dechunk : bytes -> bytes -> Prop :=
| Dechunk_last (s rest : bytes) :
    chunk_size s = Some (0%Z, rest) ->
    Dechunk s []
| Dechunk_chunk (s rest p : bytes) (n : nat) :
    chunk_size s = Some (Z.of_nat n, rest) ->
    0 < n ->
    n + 2 <= length rest ->
    firstn 2 (skipn n rest) = CRLF ->
    Dechunk (skipn (n + 2) rest) p ->
    Dechunk s (firstn n rest ++ p).

(** The first chunk, if there is one, starts with the gzip magic. *)
Definition magic_first (s : bytes) : Prop :=
  forall n rest, chunk_size s = Some (n, rest) -> n <> 0%Z ->
    firstn 2 rest = ProcessWrapper.gzip_magic.

(** The same, decided. *)
Definition magic_firstb (s : bytes) : bool :=
  match chunk_size s with
  | Some (n, rest) =>
      (n =? 0)%Z || bytes_eqb (firstn 2 rest) ProcessWrapper.gzip_magic
  | None => true
  end.

(** What the inbound path reads and writes of a bridge. *)
Definition inbound (s : ProcessWrapper.State) :=
  (ProcessWrapper.gzip_decompressor (ProcessWrapper.self s),
   ProcessWrapper.gzip_header_seen (ProcessWrapper.self s),
   ProcessWrapper.process_input_buffer (ProcessWrapper.self s),
   ProcessWrapper.got_request (ProcessWrapper.self s),
   stdin_received (ProcessWrapper.process s),
   ProcessWrapper.httpstream s).

(** The bytes of the request body the bridge has not consumed. *)
Definition unread (s : ProcessWrapper.State) : bytes :=
  read_buffer (ProcessWrapper.httpstream s) ++ socket (ProcessWrapper.httpstream s).

(** The invariant of the inbound path for a request whose de-chunked body
    is [payload]: the decompressor has been fed a prefix of [payload], its
    output is what stdin has received followed by the input buffer, and
    the unread bytes hold the rest of [payload], from a chunk-size line or
    from the data of a chunk whose line has been read. *)
Definition inbound_inv (env : Env) (payload : bytes) (s : ProcessWrapper.State)
  : Prop :=
  exists fed : bytes,
    ProcessWrapper.gzip_decompressor (ProcessWrapper.self s) = Some fed
    /\ inflate env fed
       = Some (stdin_received (ProcessWrapper.process s)
               ++ ProcessWrapper.process_input_buffer (ProcessWrapper.self s))
    /\ if ProcessWrapper.got_request (ProcessWrapper.self s)
       then fed = payload /\ reading (ProcessWrapper.httpstream s) = None
       else
         match reading (ProcessWrapper.httpstream s) with
         | Some (ReadBytes k) =>
             exists (n : nat) (rp : bytes),
               k = (Z.of_nat n + 2)%Z /\ 0 < n
               /\ n + 2 <= length (unread s)
               /\ firstn 2 (skipn n (unread s)) = CRLF
               /\ Dechunk (skipn (n + 2) (unread s)) rp
               /\ fed ++ firstn n (unread s) ++ rp = payload
               /\ (ProcessWrapper.gzip_header_seen (ProcessWrapper.self s) = false ->
                   fed = [] /\ firstn 2 (unread s) = ProcessWrapper.gzip_magic)
         | _ =>
             exists rp : bytes,
               Dechunk (unread s) rp
               /\ fed ++ rp = payload
               /\ (ProcessWrapper.gzip_header_seen (ProcessWrapper.self s) = false ->
                   fed = [] /\ magic_first (unread s))
         end.

(** A decompressor is a stream decoder: the output for a prefix of the
    input is a prefix of the output. *)
Definition streaming (f : bytes -> option bytes) : Prop :=
  f [] = Some []
  /\ forall a b o, f (a ++ b) = Some o ->
       exists o1 o2, f a = Some o1 /\ o = o1 ++ o2.

(** The handlers [__init__] registers. *)
Definition registered : list (fd * Z) :=
  [(Stdout, Z.lor READ ERROR); (Stderr, Z.lor READ ERROR);
   (Stdin, Z.lor WRITE ERROR)].

(** A bridge whose whole request body is in the stream buffer and whose
    child and loop have not moved since construction. *)
Definition settled (p0 : Process) (s : ProcessWrapper.State) : Prop :=
  ProcessWrapper.process s = p0
  /\ handlers (ProcessWrapper.ioloop s) = registered
  /\ events (ProcessWrapper.ioloop s) = []
  /\ socket (ProcessWrapper.httpstream s) = []
  /\ reading (ProcessWrapper.httpstream s) = None.

(** *** A chunked, gzipped request from construction on *)

(** What makes [__init__] take the streaming branch with a decompressor. *)
Definition chunked_gzip_request (r : HTTPRequest) : Prop :=
  method r = str "POST"
  /\ headers_get (str "Expect") (headers r) = Some (str "100-continue")
  /\ headers_get (str "Transfer-Encoding") (headers r) = Some (str "chunked")
  /\ Py.contains
       (Py.lower (ProcessWrapper.default []
                    (headers_get (str "Content-Encoding") (headers r))))
       (str "gzip") = true.

(** The state in which [__init__] calls [read_chunks]. *)
Definition armed (spawn : Spawn) (child : Child) (c : Connection)
  (buffered on_socket : bytes) : ProcessWrapper.State :=
  let s := ProcessWrapper.blank spawn child c buffered on_socket in
  ProcessWrapper.set_connection
    (request_write (str "HTTP/1.1 100 (Continue)" ++ CRLF ++ CRLF) c)
    (ProcessWrapper.set_self
       (ProcessWrapper.set_gzip_decompressor (Some []) (ProcessWrapper.self s))
       (ProcessWrapper.set_ioloop
          (ProcessWrapper.set_handlers
             [(Stdout, Z.lor READ ERROR); (Stderr, Z.lor READ ERROR);
              (Stdin, Z.lor WRITE ERROR)]
             (ProcessWrapper.ioloop s))
          s)).

(** What one call of [read_until] achieves on a body buffered whole in a
    bridge settled at [p0]: the end of the request, or one more chunk
    taken from the buffer. *)
Definition advanced (p0 : Process) (s s' : ProcessWrapper.State) : Prop :=
  settled p0 s'
  /\ ((ProcessWrapper.got_request (ProcessWrapper.self s') = true
       /\ ProcessWrapper.got_chunk (ProcessWrapper.self s')
          = ProcessWrapper.got_chunk (ProcessWrapper.self s))
      \/ (ProcessWrapper.got_request (ProcessWrapper.self s') = false
          /\ ProcessWrapper.got_chunk (ProcessWrapper.self s') = true
          /\ length (read_buffer (ProcessWrapper.httpstream s'))
             < length (read_buffer (ProcessWrapper.httpstream s)))).

(** *** Requests that are not streamed *)

(** Every byte meant for the child's stdin that the bridge holds or has
    handed over, in order. *)
Definition delivered (s : ProcessWrapper.State) : bytes :=
  stdin_received (ProcessWrapper.process s)
  ++ ProcessWrapper.process_input_buffer (ProcessWrapper.self s).

(** What the handler of stdin can change of the inbound path only by
    moving bytes from the buffer to the pipe. *)
Definition intake (s : ProcessWrapper.State) :=
  (delivered s,
   ProcessWrapper.got_request (ProcessWrapper.self s),
   ProcessWrapper.httpstream s).

(** What the handler of stdin does to the inbound path: it moves bytes
    from the buffer to the pipe. *)
Definition moved (s s' : ProcessWrapper.State) : Prop :=
  stdin_received (ProcessWrapper.process s')
  ++ ProcessWrapper.process_input_buffer (ProcessWrapper.self s')
  = stdin_received (ProcessWrapper.process s)
    ++ ProcessWrapper.process_input_buffer (ProcessWrapper.self s)
  /\ (exists w, stdin_received (ProcessWrapper.process s')
                = stdin_received (ProcessWrapper.process s) ++ w)
  /\ ProcessWrapper.got_request (ProcessWrapper.self s')
     = ProcessWrapper.got_request (ProcessWrapper.self s)
  /\ ProcessWrapper.httpstream s' = ProcessWrapper.httpstream s.

(** A bridge that holds its whole input [input] from construction on:
    the request is complete and nothing is being read from the client. *)
Definition whole_inv (input : bytes) (s : ProcessWrapper.State) : Prop :=
  ProcessWrapper.got_request (ProcessWrapper.self s) = true
  /\ delivered s = input
  /\ reading (ProcessWrapper.httpstream s) = None.

(** A bridge as the constructor leaves it, before the loop has run: the
    three handlers registered, no event pending, and the child's pipes
    untouched. *)
Definition constructed (child : Child) (s : ProcessWrapper.State) : Prop :=
  handlers (ProcessWrapper.ioloop s) = registered
  /\ events (ProcessWrapper.ioloop s) = []
  /\ ProcessWrapper.process s
     = {| stdin_closed := false; stdin_received := [];
          stdin_hup := false; stdin_room := 0;
          stdout := {| buf := []; todo := child_stdout child;
                       hup := false; closed := false |};
          stderr := {| buf := []; todo := child_stderr child;
                       hup := false; closed := false |} |}.

(** A request whose body the constructor does not read in chunks. *)
Definition streamed (r : HTTPRequest) : bool :=
  bytes_eqb (ProcessWrapper.default [] (headers_get (str "Expect") (headers r)))
    (str "100-continue")
  && bytes_eqb
       (ProcessWrapper.default [] (headers_get (str "Transfer-Encoding") (headers r)))
       (str "chunked").

(** [Content-Encoding] names gzip. *)
Definition gzipped (r : HTTPRequest) : bool :=
  Py.contains
    (Py.lower (ProcessWrapper.default [] (headers_get (str "Content-Encoding") (headers r))))
    (str "gzip").

(** The child is fed [input] by the bridge [s0]: on every run the
    request counts as complete and the bytes handed to the child
    followed by the buffered ones are [input]; and the first writable
    event on stdin with room for [input] writes it and closes stdin. *)
Definition feeds_stdin (env : Env) (s0 : ProcessWrapper.State) (input : bytes)
  : Prop :=
  (forall trace : list action,
      let s := Run.run env trace s0 in
      ProcessWrapper.got_request (ProcessWrapper.self s) = true
      /\ stdin_received (ProcessWrapper.process s)
         ++ ProcessWrapper.process_input_buffer (ProcessWrapper.self s)
         = input)
  /\ let s := Run.run env [Poll true; Dispatch Stdin (length input)] s0 in
     stdin_closed (ProcessWrapper.process s) = true
     /\ stdin_received (ProcessWrapper.process s) = input
     /\ ProcessWrapper.process_input_buffer (ProcessWrapper.self s) = [].

(** Sample requests that are not streamed: a plain POST, and a gzipped
    one under the stand-in decompressor of [SampleBridge]. *)
Definition whole_post_env (hs : list (bytes * bytes)) (b : bytes) : Env :=
  {| request := {| method := str "POST"; path := str "/repo.git/git-upload-pack";
                   query := []; headers := hs; body := b;
                   supports_http_1_1 := true |};
     date_header := SampleBridge.date;
     inflate := SampleBridge.stored |}.

(** *** Sample states of a bridge *)

(** The advertisement request of [SampleBridge] from an HTTP/1.0 client. *)
Definition http10_env : Env :=
  {| request := {| method := str "GET"; path := str "/repo.git/info/refs";
                   query := str "service=git-upload-pack"; headers := [];
                   body := []; supports_http_1_1 := false |};
     date_header := SampleBridge.date;
     inflate := SampleBridge.stored |}.

(** The advertisement bridge, its child writing [out] and [err], after
    the steps of [trace]. *)
Definition advert_state (env : Env) (out err : string) (trace : list action)
  : ProcessWrapper.State :=
  match Run.start env SampleBridge.advert (SampleBridge.child out err)
          fresh_connection [] [] with
  | Ok s0 => Run.run env trace s0
  | Raise _ =>
      ProcessWrapper.blank SampleBridge.advert (SampleBridge.child out err)
        fresh_connection [] []
  end.

(** *** The chunk framing *)

(** The characters [hex] and [str] produce. *)
Definition digit (c : ascii) : Prop := exists d, d < 16 /\ c = Py.digit_char d.

(** [Frames frames data]: [frames] is a sequence of chunks of non-empty
    payloads, and [data] is what they carry. *)
Inductive Frames : bytes -> bytes -> Prop :=
| Frames_nil : Frames [] []
| Frames_snoc (frames data p : bytes) :
    Frames frames data -> p <> [] ->
    Frames (frames ++ ProcessWrapper.chunk p) (data ++ p).

(** *** The response to an HTTP/1.1 client *)

(** What the inbound path leaves alone: the connection, the state of the
    response, the child's two output pipes, and what the loop holds for
    them. *)
Definition outbound (s : ProcessWrapper.State) :=
  (ProcessWrapper.connection s,
   ProcessWrapper.headers_sent (ProcessWrapper.self s),
   ProcessWrapper.sent_chunks (ProcessWrapper.self s),
   ProcessWrapper.headers (ProcessWrapper.self s),
   ProcessWrapper.output_prelude (ProcessWrapper.self s),
   stdout (ProcessWrapper.process s),
   stderr (ProcessWrapper.process s),
   ProcessWrapper.remove_fd Stdin (handlers (ProcessWrapper.ioloop s)),
   ProcessWrapper.remove_fd Stdin (events (ProcessWrapper.ioloop s))).

(** A pending event agrees with the pipe it is about: stdout is reported
    readable only with bytes in its buffer, a hang-up only once the child
    has closed its end, and a hang-up alone only with the buffer empty;
    stderr, on which the child writes nothing, is never reported
    readable. *)
Definition pending_ok (p : Process) (e : fd * Z) : Prop :=
  match fst e with
  | Stdout =>
      (has (snd e) READ = true ->
       buf (stdout p) <> [] /\ closed (stdout p) = false)
      /\ (has (snd e) ERROR = true -> hup (stdout p) = true)
      /\ (has (snd e) READ = false -> has (snd e) ERROR = true ->
          buf (stdout p) = [])
  | Stderr => has (snd e) READ = false
  | Stdin => True
  end.

(** The status line and headers of a chunked response. *)
Definition response_start (env : Env) (hs0 : list (bytes * bytes)) : bytes :=
  ProcessWrapper.response_head (str "HTTP/1.1 200 OK")
    (ProcessWrapper.dict_set (str "Transfer-Encoding") (str "chunked")
       (ProcessWrapper.dict_set (str "Date") (date_header env) hs0)).

(** The invariant of the outbound path of a bridge whose child writes
    [out] to stdout and nothing to stderr, for a response with the
    headers [hs0] and the prelude [prelude], on a connection that held
    [w0] and had been finished [f0] times when the bridge was
    constructed.  Before the headers are sent nothing has been written
    and nothing read from the child; afterwards the connection holds the
    head and chunks that carry the prelude and what has been read from
    the child, and, once the request has been finished, the last chunk. *)
Definition outbound_inv (env : Env) (hs0 : list (bytes * bytes))
  (prelude out w0 : bytes) (f0 : nat) (s : ProcessWrapper.State) : Prop :=
  let o := stdout (ProcessWrapper.process s) in
  let e := stderr (ProcessWrapper.process s) in
  let c := ProcessWrapper.connection s in
  buf e = [] /\ todo e = []
  /\ (hup o = true -> todo o = [])
  /\ (closed o = true -> buf o = [] /\ hup o = true)
  /\ Forall (fun h => snd h = Z.lor READ ERROR)
       (ProcessWrapper.remove_fd Stdin (handlers (ProcessWrapper.ioloop s)))
  /\ Forall (pending_ok (ProcessWrapper.process s))
       (ProcessWrapper.remove_fd Stdin (events (ProcessWrapper.ioloop s)))
  /\ ProcessWrapper.output_prelude (ProcessWrapper.self s) = prelude
  /\ if ProcessWrapper.headers_sent (ProcessWrapper.self s)
     then ProcessWrapper.sent_chunks (ProcessWrapper.self s) = true
          /\ exists frames data tail : bytes,
               written c = w0 ++ response_start env hs0 ++ frames ++ tail
               /\ Frames frames data
               /\ data ++ buf o ++ todo o = prelude ++ out
               /\ ((tail = [] /\ finish_calls c = f0)
                   \/ (closed o = true /\ f0 < finish_calls c
                       /\ exists junk, tail = str "0" ++ CRLF ++ CRLF ++ junk))
     else written c = w0 /\ finish_calls c = f0
          /\ ProcessWrapper.headers (ProcessWrapper.self s) = hs0
          /\ buf o ++ todo o = out.

(* ================================================================== *)
(** * Properties *)

(** ** Byte strings and string methods *)

Lemma bytes_eqb_eq (a b : bytes) : bytes_eqb a b = true <-> a = b.
Proof.
  unfold bytes_eqb. destruct (list_eq_dec ascii_dec a b); split; congruence.
Qed.

Lemma bytes_eqb_refl (a : bytes) : bytes_eqb a a = true.
Proof. now apply bytes_eqb_eq. Qed.

Lemma bytes_eqb_neq (a b : bytes) : bytes_eqb a b = false <-> a <> b.
Proof.
  unfold bytes_eqb. destruct (list_eq_dec ascii_dec a b); split; congruence.
Qed.

Example hex_digits_29 : Py.hex_digits 29 = str "1d".
Proof. reflexivity. Qed.

Example int16_ext : Py.int16 (str " 1A ") = Some 26%Z.
Proof. reflexivity. Qed.

Example split_path :
  Py.split "/" (Py.strip_char "/" (str "/repo.git/info/refs"))
  = [str "repo.git"; str "info"; str "refs"].
Proof. reflexivity. Qed.

#[local] Arguments Ascii.eqb : simpl never.

(** ** Splitting and joining *)

Lemma split_nonempty (sep : ascii) (s : bytes) : Py.split sep s <> [].
Proof.
  destruct s as [|c s]; simpl; [discriminate|].
  destruct (Ascii.eqb c sep); [discriminate|].
  destruct (Py.split sep s); discriminate.
Qed.

Lemma split_app_sep (sep : ascii) (a b : bytes) :
  Py.split sep (a ++ sep :: b) = Py.split sep a ++ Py.split sep b.
Proof.
  induction a as [|c a IH]; simpl.
  - now rewrite Ascii.eqb_refl.
  - destruct (Ascii.eqb c sep); [now rewrite IH|].
    rewrite IH. pose proof (split_nonempty sep a).
    destruct (Py.split sep a); [contradiction|reflexivity].
Qed.

Lemma split_no_sep (sep : ascii) (s : bytes) :
  ~ In sep s -> Py.split sep s = [s].
Proof.
  induction s as [|c s IH]; simpl; [reflexivity|].
  intros H. destruct (Ascii.eqb_spec c sep) as [->|_]; [tauto|].
  rewrite IH by tauto. reflexivity.
Qed.

Lemma split_pieces_no_sep (sep : ascii) (s : bytes) :
  Forall (fun w => ~ In sep w) (Py.split sep s).
Proof.
  induction s as [|c s IH]; simpl.
  - constructor; [tauto|constructor].
  - destruct (Ascii.eqb_spec c sep) as [->|Hne].
    + constructor; [tauto|assumption].
    + destruct (Py.split sep s) as [|w ws].
      * constructor; [|constructor]. simpl. intros [H|[]]. congruence.
      * inversion IH; subst. constructor; [|assumption].
        simpl. intros [H|H]; [congruence|tauto].
Qed.

Lemma repo_segment_no_slash (request : HTTPRequest) :
  ~ In "/"%char (repo_segment request).
Proof.
  unfold repo_segment.
  pose proof (split_pieces_no_sep "/" (Py.strip_char "/" (path request))) as H.
  destruct (Py.split "/" _); simpl; [tauto|]. now inversion H.
Qed.

Lemma startswith_length (s p : bytes) :
  Py.startswith s p = true -> length p <= length s.
Proof.
  revert s. induction p as [|c p IH]; intros s; simpl; [lia|].
  destruct s as [|d s]; simpl; [discriminate|].
  rewrite andb_true_iff. intros [_ H]. apply IH in H. lia.
Qed.

Lemma startswith_app (s t : bytes) : Py.startswith (s ++ t) s = true.
Proof.
  induction s as [|c s IH]; simpl; [reflexivity|].
  now rewrite Ascii.eqb_refl.
Qed.

Lemma endswith_slash (a : bytes) :
  Py.endswith a (str "/") = true -> exists a', a = a' ++ ["/"%char].
Proof.
  unfold Py.endswith. simpl.
  destruct (rev a) as [|c r] eqn:Hr; [discriminate|].
  rewrite andb_true_r. intros H. apply Ascii.eqb_eq in H. subst c.
  exists (rev r). rewrite <- (rev_involutive a), Hr. reflexivity.
Qed.

Lemma endswith_slash_false (a : bytes) :
  Py.endswith (a ++ ["/"%char]) (str "/") = true.
Proof. unfold Py.endswith. rewrite rev_app_distr. reflexivity. Qed.

(** ** Path normalisation *)

Lemma isabs_cons (p : bytes) :
  Posixpath.isabs p = true -> exists p', p = "/"%char :: p'.
Proof.
  unfold Posixpath.isabs. destruct p as [|c p]; simpl; [discriminate|].
  rewrite andb_true_r. intros H. apply Ascii.eqb_eq in H. subst. now exists p.
Qed.

Lemma initial_slashes_abs (p : bytes) :
  Posixpath.isabs p = true -> 1 <= Posixpath.initial_slashes p.
Proof.
  unfold Posixpath.isabs, Posixpath.initial_slashes. intros ->.
  destruct (_ && _); lia.
Qed.

Lemma normpath_abs (p : bytes) :
  Posixpath.isabs p = true ->
  Posixpath.normpath p = render (Posixpath.initial_slashes p) (norm_comps p).
Proof.
  intros Habs. pose proof (initial_slashes_abs p Habs) as Hk.
  destruct (isabs_cons p Habs) as [p' ->].
  unfold Posixpath.normpath, render, norm_comps.
  destruct (Posixpath.initial_slashes ("/"%char :: p')) as [|k]; [lia|].
  reflexivity.
Qed.

Lemma initial_slashes_app (y z : bytes) :
  Posixpath.isabs y = true ->
  (Forall (eq "/"%char) y -> hd "x"%char z <> "/"%char) ->
  Posixpath.initial_slashes (y ++ z) = Posixpath.initial_slashes y.
Proof.
  intros Habs Hz. destruct (isabs_cons y Habs) as [y1 ->].
  unfold Posixpath.initial_slashes. simpl.
  destruct y1 as [|c2 y2]; simpl.
  - assert (Hd : hd "x"%char z <> "/"%char) by (apply Hz; repeat constructor).
    destruct z as [|c z]; simpl; [reflexivity|].
    simpl in Hd. destruct (Ascii.eqb_spec "/" c); [congruence|reflexivity].
  - destruct (Ascii.eqb_spec "/" c2) as [<-|_]; simpl; [|reflexivity].
    destruct y2 as [|c3 y3]; simpl; [|reflexivity].
    assert (Hd : hd "x"%char z <> "/"%char) by (apply Hz; repeat constructor).
    destruct z as [|c z]; simpl; [reflexivity|].
    simpl in Hd. destruct (Ascii.eqb_spec "/" c); [congruence|reflexivity].
Qed.

Lemma norm_step_empty (k : nat) (ns : list bytes) :
  Posixpath.norm_step k ns [] = ns.
Proof. reflexivity. Qed.

(** In an absolute path every component the loop has kept is a proper
    name, so a [..] removes the last one. *)
Lemma norm_step_abs (k : nat) (ns : list bytes) (comp : bytes) :
  1 <= k -> Forall kept ns -> ~ In "/"%char comp ->
  Forall kept (Posixpath.norm_step k ns comp)
  /\ ((comp = [] \/ comp = str ".") /\ Posixpath.norm_step k ns comp = ns
      \/ comp = str ".." /\ Posixpath.norm_step k ns comp = removelast ns
      \/ kept comp /\ Posixpath.norm_step k ns comp = ns ++ [comp]).
Proof.
  intros Hk Hns Hcomp. unfold Posixpath.norm_step.
  destruct (bytes_eqb comp []) eqn:E1; cbn [orb].
  { apply bytes_eqb_eq in E1. split; [assumption|]. left. auto. }
  destruct (bytes_eqb comp (str ".")) eqn:E2; cbn [orb].
  { apply bytes_eqb_eq in E2. split; [assumption|]. left. auto. }
  apply bytes_eqb_neq in E1. apply bytes_eqb_neq in E2.
  destruct (bytes_eqb comp (str "..")) eqn:E3; cbn [orb negb].
  - apply bytes_eqb_eq in E3.
    replace (k =? 0) with false by (symmetry; apply Nat.eqb_neq; lia). cbn [andb orb].
    assert (Hlast : negb (length ns =? 0) && bytes_eqb (last ns []) (str "..") = false).
    { destruct ns as [|n ns']; [reflexivity|].
      apply andb_false_iff. right. apply bytes_eqb_neq.
      assert (Hin : In (last (n :: ns') []) (n :: ns')).
      { destruct (exists_last (l := n :: ns')) as (l' & a & Heq); [discriminate|].
        rewrite Heq, last_last. apply in_or_app. right. simpl. auto. }
      rewrite Forall_forall in Hns. apply Hns in Hin. apply Hin. }
    rewrite Hlast. split.
    + rewrite Forall_forall in *. intros x Hx. apply Hns.
      destruct ns as [|n ns']; [contradiction|].
      destruct (exists_last (l := n :: ns')) as (l' & a & Heq); [discriminate|].
      rewrite Heq in *. rewrite removelast_last in Hx. apply in_or_app. auto.
    + right. left. auto.
  - apply bytes_eqb_neq in E3.
    assert (Hkept : kept comp) by (unfold kept; auto).
    split.
    + apply Forall_app. split; [assumption|]. constructor; [assumption|constructor].
    + right. right. auto.
Qed.

Lemma norm_fold_kept (k : nat) (comps ns : list bytes) :
  1 <= k -> Forall kept ns -> Forall (fun w => ~ In "/"%char w) comps ->
  Forall kept (fold_left (Posixpath.norm_step k) comps ns).
Proof.
  intros Hk. revert ns. induction comps as [|c comps IH]; intros ns Hns Hc; simpl.
  - assumption.
  - inversion Hc; subst. apply IH; [|assumption].
    now apply norm_step_abs.
Qed.

Lemma norm_comps_kept (p : bytes) :
  Posixpath.isabs p = true -> Forall kept (norm_comps p).
Proof.
  intros Habs. apply norm_fold_kept.
  - now apply initial_slashes_abs.
  - constructor.
  - apply split_pieces_no_sep.
Qed.

(** Appending one slash-free segment to an absolute path, the way
    [join] does, runs the loop for one more step. *)
Lemma norm_comps_extend (y x seg : bytes) :
  Posixpath.isabs y = true ->
  ~ In "/"%char seg ->
  (Py.endswith y (str "/") = true /\ x = y ++ seg)
  \/ (Py.endswith y (str "/") = false /\ x = y ++ str "/" ++ seg) ->
  Posixpath.initial_slashes x = Posixpath.initial_slashes y
  /\ norm_comps x = Posixpath.norm_step (Posixpath.initial_slashes y) (norm_comps y) seg.
Proof.
  intros Habs Hseg [[Hend ->] | [Hend ->]].
  - assert (Hk : Posixpath.initial_slashes (y ++ seg) = Posixpath.initial_slashes y).
    { apply initial_slashes_app; [assumption|]. intros _.
      destruct seg as [|c seg]; simpl; [discriminate|]. simpl in Hseg. intuition. }
    split; [assumption|].
    unfold norm_comps. rewrite Hk.
    destruct (endswith_slash y Hend) as [y' ->].
    rewrite <- app_assoc. simpl.
    rewrite (split_app_sep "/" y' seg), (split_app_sep "/" y' []).
    rewrite (split_no_sep "/" seg Hseg). simpl.
    rewrite !fold_left_app. simpl. reflexivity.
  - assert (Hk : Posixpath.initial_slashes (y ++ str "/" ++ seg)
                 = Posixpath.initial_slashes y).
    { apply initial_slashes_app; [assumption|]. intros Hall. exfalso.
      destruct (isabs_cons y Habs) as [y1 Hy].
      destruct (exists_last (l := y)) as (y' & c & Heq); [subst; discriminate|].
      rewrite Heq in Hall. apply Forall_app in Hall. destruct Hall as [_ Hc].
      inversion Hc; subst c. rewrite Heq, endswith_slash_false in Hend. discriminate. }
    split; [assumption|].
    unfold norm_comps. rewrite Hk. simpl.
    rewrite (split_app_sep "/" y seg), (split_no_sep "/" seg Hseg).
    rewrite fold_left_app. reflexivity.
Qed.

(** ** Rendering and reading back the components *)

Lemma components_slash (p : bytes) : components ("/"%char :: p) = components p.
Proof. reflexivity. Qed.

Lemma components_join (ns : list bytes) :
  Forall kept ns -> components (Py.join (str "/") ns) = ns.
Proof.
  induction ns as [|w ws IH]; intros H; [reflexivity|].
  inversion H as [|? ? Hw Hws]; subst. destruct Hw as (Hne & _ & _ & Hsl).
  destruct ws as [|w2 ws'].
  - simpl. unfold components. rewrite (split_no_sep "/" w Hsl). simpl.
    destruct (bytes_eqb w []) eqn:E; [apply bytes_eqb_eq in E; contradiction|reflexivity].
  - change (Py.join (str "/") (w :: w2 :: ws'))
      with (w ++ "/"%char :: Py.join (str "/") (w2 :: ws')).
    unfold components. rewrite split_app_sep, filter_app.
    rewrite (split_no_sep "/" w Hsl). simpl filter at 1.
    destruct (bytes_eqb w []) eqn:E; [apply bytes_eqb_eq in E; contradiction|].
    simpl. f_equal. apply IH. assumption.
Qed.

Lemma components_render (k : nat) (ns : list bytes) :
  Forall kept ns -> components (render k ns) = ns.
Proof.
  intros H. unfold render. induction k as [|k IH]; simpl.
  - now apply components_join.
  - now rewrite components_slash.
Qed.

Lemma join_snoc_length (ns : list bytes) (x : bytes) :
  length (Py.join (str "/") ns) + length x <= length (Py.join (str "/") (ns ++ [x])).
Proof.
  induction ns as [|w ws IH]; [simpl; lia|].
  destruct ws as [|w2 ws'].
  - simpl. rewrite length_app. simpl. lia.
  - change (Py.join (str "/") ((w :: w2 :: ws') ++ [x]))
      with (w ++ "/"%char :: Py.join (str "/") ((w2 :: ws') ++ [x])).
    change (Py.join (str "/") (w :: w2 :: ws'))
      with (w ++ "/"%char :: Py.join (str "/") (w2 :: ws')).
    rewrite !length_app. cbn [length]. lia.
Qed.

Lemma render_removelast_shorter (k : nat) (ns : list bytes) :
  Forall kept ns -> ns <> [] ->
  length (render k (removelast ns)) < length (render k ns).
Proof.
  intros Hns Hne.
  destruct (exists_last Hne) as (ns' & x & ->).
  rewrite removelast_last. unfold render. rewrite !length_app.
  pose proof (join_snoc_length ns' x).
  apply Forall_app in Hns. destruct Hns as [_ Hx]. inversion Hx as [|? ? Hk _]; subst.
  destruct Hk as (Hx0 & _). destruct x; [contradiction|]. simpl in *. lia.
Qed.

Lemma under_refl (a : list bytes) : FS.under a a = true.
Proof. induction a; simpl; [reflexivity|]. now rewrite bytes_eqb_refl. Qed.

Lemma under_app (a b : list bytes) : FS.under a (a ++ b) = true.
Proof. induction a; simpl; [reflexivity|]. now rewrite bytes_eqb_refl. Qed.

(** ** The repository resolver *)

Lemma startswith_slash_false (seg : bytes) :
  ~ In "/"%char seg -> Py.startswith seg (str "/") = false.
Proof.
  destruct seg as [|c seg]; simpl; [reflexivity|].
  intros H. destruct (Ascii.eqb_spec "/" c) as [<-|_]; [|reflexivity].
  exfalso. apply H. now left.
Qed.

Lemma endswith_app (a b : bytes) :
  b <> [] -> Py.endswith (a ++ b) (str "/") = Py.endswith b (str "/").
Proof.
  intros Hb. unfold Py.endswith. rewrite rev_app_distr.
  destruct (exists_last Hb) as (b' & c & ->).
  rewrite rev_app_distr. reflexivity.
Qed.

Lemma isabs_app (a b : bytes) :
  Posixpath.isabs a = true -> Posixpath.isabs (a ++ b) = true.
Proof. intros H. destruct (isabs_cons a H) as [a' ->]. reflexivity. Qed.

Lemma isabs_app_rel (a b : bytes) :
  a <> [] -> Posixpath.isabs a = false -> Posixpath.isabs (a ++ b) = false.
Proof. destruct a; [contradiction|]. intros _ H. exact H. Qed.

(** [join] with a slash-free second argument. *)
Lemma join_segment (a seg : bytes) :
  ~ In "/"%char seg ->
  Posixpath.join a seg
  = if bytes_eqb a [] || Py.endswith a (str "/") then a ++ seg
    else a ++ str "/" ++ seg.
Proof.
  intros H. unfold Posixpath.join. now rewrite (startswith_slash_false seg H).
Qed.

Lemma join_cwd (cwd b : bytes) :
  Posixpath.isabs cwd = true -> Posixpath.isabs b = false ->
  Posixpath.join cwd b = cwd_slash cwd ++ b.
Proof.
  intros Hc Hb. unfold Posixpath.join, cwd_slash.
  unfold Posixpath.isabs in Hb. rewrite Hb.
  destruct (isabs_cons cwd Hc) as [c' ->].
  replace (bytes_eqb ("/"%char :: c') []) with false
    by (symmetry; apply bytes_eqb_neq; discriminate).
  cbn [orb]. destruct (Py.endswith _ _); [reflexivity|].
  now rewrite <- app_assoc.
Qed.

Lemma cwd_slash_abs (cwd : bytes) :
  Posixpath.isabs cwd = true ->
  Posixpath.isabs (cwd_slash cwd) = true
  /\ Py.endswith (cwd_slash cwd) (str "/") = true.
Proof.
  intros H. unfold cwd_slash.
  destruct (Py.endswith cwd (str "/")) eqn:E; [auto|].
  split; [now apply isabs_app|]. apply endswith_slash_false.
Qed.

Local Ltac shape_done :=
  repeat (split; [first [assumption | reflexivity]|]);
  first [left; split; first [assumption | reflexivity]
        | right; split; first [assumption | reflexivity]].

(** The two paths [gitlookup] normalises differ by one [join] step. *)
Lemma abspath_join_shape (cwd base seg : bytes) :
  Posixpath.isabs cwd = true ->
  ~ In "/"%char seg ->
  exists y x : bytes,
    Posixpath.isabs y = true
    /\ Posixpath.abspath cwd base = Posixpath.normpath y
    /\ Posixpath.abspath cwd (Posixpath.join base seg) = Posixpath.normpath x
    /\ ((Py.endswith y (str "/") = true /\ x = y ++ seg)
        \/ (Py.endswith y (str "/") = false /\ x = y ++ str "/" ++ seg)).
Proof.
  intros Hcwd Hseg. unfold Posixpath.abspath.
  rewrite (join_segment base seg Hseg).
  destruct (Posixpath.isabs base) eqn:Habs.
  - exists base.
    destruct (isabs_cons base Habs) as [b' Hb].
    replace (bytes_eqb base []) with false
      by (symmetry; apply bytes_eqb_neq; subst; discriminate).
    cbn [orb].
    destruct (Py.endswith base (str "/")) eqn:Hend.
    + exists (base ++ seg). rewrite (isabs_app base seg Habs). shape_done.
    + exists (base ++ str "/" ++ seg). rewrite (isabs_app base _ Habs). shape_done.
  - destruct (cwd_slash_abs cwd Hcwd) as [Hcabs Hcend].
    rewrite (join_cwd cwd base Hcwd Habs).
    destruct (bytes_eqb base []) eqn:Hnil; cbn [orb].
    + apply bytes_eqb_eq in Hnil. subst base. rewrite app_nil_r. simpl app.
      exists (cwd_slash cwd), (cwd_slash cwd ++ seg).
      pose proof (startswith_slash_false seg Hseg) as Hrel.
      change (Posixpath.isabs seg = false) in Hrel. rewrite Hrel.
      rewrite (join_cwd cwd seg Hcwd Hrel).
      shape_done.
    + apply bytes_eqb_neq in Hnil.
      destruct (Py.endswith base (str "/")) eqn:Hend.
      * rewrite (isabs_app_rel base seg Hnil Habs).
        rewrite join_cwd by auto using isabs_app_rel.
        exists (cwd_slash cwd ++ base), (cwd_slash cwd ++ base ++ seg).
        rewrite isabs_app by assumption.
        rewrite endswith_app, Hend by assumption.
        rewrite <- !app_assoc. shape_done.
      * rewrite (isabs_app_rel base _ Hnil Habs).
        rewrite join_cwd by auto using isabs_app_rel.
        exists (cwd_slash cwd ++ base), (cwd_slash cwd ++ base ++ str "/" ++ seg).
        rewrite isabs_app by assumption.
        rewrite endswith_app, Hend by assumption.
        rewrite <- !app_assoc. shape_done.
Qed.

(** The normalised [join(base, segment)] is the normalised base, its
    child [segment], or its parent. *)
Lemma abspath_join_cases (cwd base seg : bytes) :
  Posixpath.isabs cwd = true ->
  ~ In "/"%char seg ->
  exists (k : nat) (ns : list bytes),
    Forall kept ns
    /\ Posixpath.abspath cwd base = render k ns
    /\ (((seg = [] \/ seg = str ".")
         /\ Posixpath.abspath cwd (Posixpath.join base seg) = render k ns)
        \/ (seg = str ".."
            /\ Posixpath.abspath cwd (Posixpath.join base seg) = render k (removelast ns))
        \/ (kept seg
            /\ Posixpath.abspath cwd (Posixpath.join base seg) = render k (ns ++ [seg]))).
Proof.
  intros Hcwd Hseg.
  destruct (abspath_join_shape cwd base seg Hcwd Hseg) as (y & x & Hy & -> & -> & Hshape).
  destruct (norm_comps_extend y x seg Hy Hseg Hshape) as [Hk Hns].
  assert (Hx : Posixpath.isabs x = true).
  { destruct Hshape as [[_ ->] | [_ ->]]; now apply isabs_app. }
  rewrite (normpath_abs y Hy), (normpath_abs x Hx), Hk, Hns.
  exists (Posixpath.initial_slashes y), (norm_comps y).
  pose proof (norm_comps_kept y Hy) as Hkept.
  split; [assumption|]. split; [reflexivity|].
  destruct (norm_step_abs (Posixpath.initial_slashes y) (norm_comps y) seg
              (initial_slashes_abs y Hy) Hkept Hseg)
    as [_ [[H ->] | [[H ->] | [H ->]]]]; auto.
Qed.

(** C3 (amended).  A directory [gitlookup] returns is the lexically
    normalised absolute path ([os.path.abspath], which resolves no
    symbolic link) of [join(base, first path segment)]; it exists on
    disk, and it is the normalised base or lies directly under it; a
    first segment [..] is refused unless the base is the root. *)
Theorem gitlookup_lexically_under_base
  (options : Options) (request : HTTPRequest) (p : bytes) :
  Posixpath.isabs (cwd options) = true ->
  Server.gitlookup options request = Some p ->
  let base := Posixpath.abspath (cwd options) (gitbase options) in
  let seg := repo_segment request in
  p = Posixpath.abspath (cwd options) (Posixpath.join (gitbase options) seg)
  /\ FS.exists_ (fs options) p = true
  /\ (components p = components base \/ components p = components base ++ [seg])
  /\ FS.under (components base) (components p) = true
  /\ (seg = str ".." -> components base = []).
Proof.
  intros Hcwd Hlook base seg.
  unfold Server.gitlookup in Hlook. fold (repo_segment request) in Hlook. fold seg in Hlook.
  fold base in Hlook.
  destruct (negb (Py.startswith _ base)) eqn:Hpre; [discriminate|].
  destruct (FS.exists_ _ _) eqn:Hex; [|discriminate].
  injection Hlook as <-. apply negb_false_iff in Hpre.
  split; [reflexivity|]. split; [assumption|].
  destruct (abspath_join_cases (cwd options) (gitbase options) seg Hcwd
              (repo_segment_no_slash request))
    as (k & ns & Hkept & Hbase & Hcases).
  fold base in Hbase. rewrite Hbase in *.
  rewrite (components_render k ns Hkept).
  destruct Hcases as [[Hs ->] | [[Hs Hp] | [Hs ->]]].
  - rewrite (components_render k ns Hkept).
    split; [auto|]. split; [apply under_refl|].
    intros ->. destruct Hs; discriminate.
  - rewrite Hp in *.
    assert (Hnil : ns = []).
    { destruct ns as [|n ns']; [reflexivity|]. exfalso.
      apply startswith_length in Hpre.
      pose proof (render_removelast_shorter k (n :: ns') Hkept). 
      assert (n :: ns' <> []) by discriminate. intuition lia. }
    subst ns. simpl removelast. rewrite (components_render k [] Hkept).
    split; [auto|]. split; reflexivity.
  - assert (Hkept' : Forall kept (ns ++ [seg])).
    { apply Forall_app. split; [assumption|]. constructor; [assumption|constructor]. }
    rewrite (components_render k _ Hkept').
    split; [auto|]. split; [apply under_app|].
    intros Heq. destruct Hs as (_ & _ & Hne & _). contradiction.
Qed.

Lemma gitlookup_lexically_under_base_witness :
  str "/srv/git/repo.git"
  = Posixpath.abspath (str "/home/git") (Posixpath.join (str "/srv/git") (str "repo.git"))
  /\ FS.exists_ Sample.files (str "/srv/git/repo.git") = true
  /\ (components (str "/srv/git/repo.git") = components (str "/srv/git")
      \/ components (str "/srv/git/repo.git")
         = components (str "/srv/git") ++ [str "repo.git"])
  /\ FS.under (components (str "/srv/git")) (components (str "/srv/git/repo.git")) = true
  /\ (str "repo.git" = str ".." -> components (str "/srv/git") = []).
Proof.
  apply (gitlookup_lexically_under_base Sample.options
           (Sample.request "GET" "/repo.git/info/refs" "service=git-upload-pack" [])
           (str "/srv/git/repo.git"));
    reflexivity.
Defined.

(** C3, as the claim has it, fails: a symbolic link inside the base that
    points outside of it is followed. *)
Lemma gitlookup_follows_symlink_out_of_base :
  Server.gitlookup Sample.options
    (Sample.request "GET" "/evil/info/refs" "service=git-upload-pack" [])
  = Some (str "/srv/git/evil")
  /\ FS.canonical Sample.files (str "/srv/git/evil") = Some [str "etc"]
  /\ FS.canonical Sample.files (str "/srv/git") = Some [str "srv"; str "git"]
  /\ FS.under [str "srv"; str "git"] [str "etc"] = false.
Proof. repeat split; reflexivity. Qed.

(** ** Permission enforcement and the handlers *)

Lemma mem_two (x a b : bytes) : mem x [a; b] = true -> x = a \/ x = b.
Proof.
  unfold mem; simpl. rewrite !orb_true_iff, !bytes_eqb_eq.
  intros [H | [H | H]]; auto; discriminate.
Qed.

Lemma check_auth_configured (self : BaseHandler.t) f (c : Connection) :
  BaseHandler.auth self = Some f ->
  BaseHandler.check_auth self c = (f (BaseHandler.request self), c).
Proof. unfold BaseHandler.check_auth. now intros ->. Qed.

(** [check_auth] and [get_gitdir] leave the connection alone. *)
Lemma check_auth_pure (self : BaseHandler.t) (c : Connection) :
  snd (BaseHandler.check_auth self c) = c.
Proof. unfold BaseHandler.check_auth. now destruct (BaseHandler.auth self). Qed.

Lemma get_gitdir_pure (self : BaseHandler.t) (c : Connection) :
  snd (BaseHandler.get_gitdir self c) = c.
Proof.
  unfold BaseHandler.get_gitdir.
  destruct (BaseHandler.gitlookup self) as [lookup|]; [|reflexivity].
  now destruct (lookup _).
Qed.

Lemma get_gitdir_found (self : BaseHandler.t) lookup (gitdir : bytes) (c : Connection) :
  BaseHandler.gitlookup self = Some lookup ->
  lookup (BaseHandler.request self) = Some gitdir ->
  BaseHandler.get_gitdir self c = (Ok gitdir, c).
Proof. unfold BaseHandler.get_gitdir. now intros -> ->. Qed.

(** A write RPC without the write permission: the configured
    [auth_failed] hook answers and the request is finished. *)
Lemma enforce_perms_write_denied
  (self : BaseHandler.t) f (rpc : bytes) (c : Connection) (r : bool) :
  BaseHandler.check_auth self c = (Ok (r, false), c) ->
  BaseHandler.auth_failed self = Some f ->
  In rpc [str "git-receive-pack"; str "receive-pack"] ->
  BaseHandler.enforce_perms self rpc c
  = (Ok false, request_finish (f (BaseHandler.request self) c)).
Proof.
  intros Hauth Hfail Hrpc.
  unfold BaseHandler.enforce_perms, bind. rewrite Hauth.
  unfold BaseHandler.deny. rewrite Hfail.
  destruct Hrpc as [<- | [<- | []]]; reflexivity.
Qed.

(** When [enforce_perms] lets the request through, nothing was written,
    the name is one of the four accepted ones and the permission it
    needs was granted. *)
Lemma enforce_perms_true (self : BaseHandler.t) (rpc : bytes) (c c' : Connection) :
  BaseHandler.enforce_perms self rpc c = (Ok true, c') ->
  c' = c /\
  exists r w, BaseHandler.check_auth self c = (Ok (r, w), c) /\
    ((In rpc [str "git-receive-pack"; str "receive-pack"] /\ w = true) \/
     (In rpc [str "git-upload-pack"; str "upload-pack"] /\ r = true)).
Proof.
  unfold BaseHandler.enforce_perms, bind.
  pose proof (check_auth_pure self c) as Hpure.
  destruct (BaseHandler.check_auth self c) as [[[r w]|e] c1]; simpl in Hpure; subst c1;
    [|discriminate].
  destruct (mem rpc [str "git-receive-pack"; str "receive-pack"]) eqn:Hrecv.
  - apply mem_two in Hrecv.
    destruct w; simpl.
    + unfold ret. intros [= <-]. split; [reflexivity|].
      exists r, true. split; [reflexivity|]. left. simpl. intuition.
    + unfold BaseHandler.deny.
      destruct (BaseHandler.auth_failed self); unfold bind, effect, ret, raise;
        discriminate.
  - destruct (mem rpc [str "git-upload-pack"; str "upload-pack"]) eqn:Hup.
    + apply mem_two in Hup.
      destruct r; simpl.
      * unfold ret. intros [= <-]. split; [reflexivity|].
        exists true, w. split; [reflexivity|]. right. simpl. intuition.
      * unfold BaseHandler.deny.
        destruct (BaseHandler.auth_failed self); unfold bind, effect, ret, raise;
          discriminate.
    + unfold raise. discriminate.
Qed.

(** A handler that ends by constructing the bridge has written nothing
    to the connection: every routing error leaves without a child. *)
Lemma post_spawn_clean (self : BaseHandler.t) (c c' : Connection) (s : Spawn) :
  RPCHandler.post self c = (Ok (Some s), c') ->
  c' = c /\
  exists gitdir, BaseHandler.get_gitdir self c = (Ok gitdir, c) /\
    BaseHandler.enforce_perms self
      (last (Py.split "/" (Py.strip_char "/" (path (BaseHandler.request self)))) [])
      c = (Ok true, c).
Proof.
  unfold RPCHandler.post, bind.
  pose proof (get_gitdir_pure self c) as Hpure.
  destruct (BaseHandler.get_gitdir self c) as [[gitdir|e] c1]; simpl in Hpure; subst c1;
    [|discriminate].
  destruct (BaseHandler.enforce_perms self _ c) as [[[|]|e] c1] eqn:Hperm;
    try discriminate.
  destruct (enforce_perms_true _ _ _ _ Hperm) as [-> _].
  simpl. unfold ret. intros [= _ <-]. split; [reflexivity|].
  exists gitdir. split; reflexivity.
Qed.

Lemma get_spawn_clean (self : BaseHandler.t) (c c' : Connection) (s : Spawn) :
  InfoRefsHandler.get self c = (Ok (Some s), c') ->
  c' = c /\
  exists gitdir, BaseHandler.get_gitdir self c = (Ok gitdir, c) /\
    BaseHandler.enforce_perms self
      (InfoRefsHandler.requested_service (BaseHandler.request self)) c = (Ok true, c) /\
    s = {| command := [BaseHandler.gitcommand self;
                       skipn 4 (InfoRefsHandler.requested_service (BaseHandler.request self));
                       str "--stateless-rpc"; str "--advertise-refs"; gitdir];
           success_headers :=
             [(str "Content-Type",
               str "application/x-git-"
               ++ skipn 4 (InfoRefsHandler.requested_service (BaseHandler.request self))
               ++ str "-advertisement");
              (str "Expires", str "Fri, 01 Jan 1980 00:00:00 GMT");
              (str "Pragma", str "no-cache");
              (str "Cache-Control", str "no-cache, max-age=0, must-revalidate")];
           spawn_prelude :=
             InfoRefsHandler.make_prelude
               (skipn 4 (InfoRefsHandler.requested_service (BaseHandler.request self))) |}.
Proof.
  unfold InfoRefsHandler.get, bind.
  pose proof (get_gitdir_pure self c) as Hpure.
  destruct (BaseHandler.get_gitdir self c) as [[gitdir|e] c1]; simpl in Hpure; subst c1;
    [|discriminate].
  destruct (BaseHandler.enforce_perms self _ c) as [[[|]|e] c1] eqn:Hperm;
    try discriminate.
  destruct (enforce_perms_true _ _ _ _ Hperm) as [-> _].
  simpl. unfold ret. intros [= <- <-]. split; [reflexivity|].
  exists gitdir. repeat split; reflexivity.
Qed.

(** C8.  A [git-receive-pack] request of an existing repository for which
    the authenticator returns [may_write = false] is answered by a
    [401 Unauthorized] response with the header
    [WWW-Authenticate: Basic realm="<realm>"] and finished, and the
    handler spawns no child; and whenever a handler does spawn a child,
    it has written nothing to the connection and has not finished the
    request, so no error response goes with a child. *)
Theorem write_denied_answers_401
  (options : Options) (request : HTTPRequest) (c : Connection)
  (gitdir : bytes) (r : bool) :
  let self := BaseHandler.initialize (server_conf options) request in
  last (Py.split "/" (Py.strip_char "/" (path request))) [] = str "git-receive-pack" ->
  Server.gitlookup options request = Some gitdir ->
  Server.auth options request = Ok (r, false) ->
  RPCHandler.post self c
  = (Ok None,
     request_finish
       (request_write
          (str "HTTP/1.1 401 Unauthorized" ++ CRLF
           ++ str "Content-Type: text/plain" ++ CRLF
           ++ str "Content-Length: 46" ++ CRLF
           ++ str "WWW-Authenticate: Basic realm=" ++ [Server.DQUOTE]
           ++ realm options ++ [Server.DQUOTE] ++ CRLF ++ CRLF
           ++ str "Authorization needed to access this repository") c))
  /\ (forall h c0 c1 s, RPCHandler.post h c0 = (Ok (Some s), c1) -> c1 = c0)
  /\ (forall h c0 c1 s, InfoRefsHandler.get h c0 = (Ok (Some s), c1) -> c1 = c0).
Proof.
  intros self Hrpc Hdir Hauth. split; [|split].
  - unfold RPCHandler.post, bind.
    rewrite (get_gitdir_found self (Server.gitlookup options) gitdir c eq_refl Hdir).
    change (path (BaseHandler.request self)) with (path request).
    rewrite Hrpc.
    rewrite (enforce_perms_write_denied self (Server.auth_failed options)
               (str "git-receive-pack") c r).
    + reflexivity.
    + rewrite (check_auth_configured self (Server.auth options) c eq_refl).
      change (BaseHandler.request self) with request. now rewrite Hauth.
    + reflexivity.
    + simpl. auto.
  - intros h c0 c1 s H. now destruct (post_spawn_clean _ _ _ _ H).
  - intros h c0 c1 s H. now destruct (get_spawn_clean _ _ _ _ H).
Qed.

(** The four names [enforce_perms] lets through. *)
Lemma enforce_perms_names (self : BaseHandler.t) (rpc : bytes) (c c' : Connection) :
  BaseHandler.enforce_perms self rpc c = (Ok true, c') ->
  In rpc [str "git-receive-pack"; str "receive-pack";
          str "git-upload-pack"; str "upload-pack"].
Proof.
  intros H. destruct (enforce_perms_true _ _ _ _ H) as (_ & r & w & _ & [[Hin _] | [Hin _]]);
    simpl in *; intuition.
Qed.

(** C6 (amended).  Whenever [InfoRefsHandler.get] spawns the child, the
    prelude is the text [# service=git-<rpc>], without a newline, behind
    four hexadecimal digits that give the length of the text plus 4, and
    followed by the flush packet [0000]; for [service=git-upload-pack] it
    is [001d# service=git-upload-pack0000]. *)
Theorem inforefs_prelude_is_pkt_line
  (self : BaseHandler.t) (c c' : Connection) (s : Spawn) :
  InfoRefsHandler.get self c = (Ok (Some s), c') ->
  let rpc := nth 1 (command s) [] in
  let text := str "# service=git-" ++ rpc in
  exists len4 : bytes,
    spawn_prelude s = len4 ++ text ++ str "0000"
    /\ length len4 = 4
    /\ Py.int16 len4 = Some (Z.of_nat (length text + 4))
    /\ (InfoRefsHandler.requested_service (BaseHandler.request self)
        = str "git-upload-pack" ->
        spawn_prelude s = str "001d# service=git-upload-pack0000").
Proof.
  intros H. destruct (get_spawn_clean _ _ _ _ H) as (-> & gitdir & _ & Hperm & ->).
  apply enforce_perms_names in Hperm.
  cbn [command spawn_prelude nth].
  destruct Hperm as [<- | [<- | [<- | [<- | []]]]].
  - exists (str "001e"). repeat split; try reflexivity. discriminate.
  - exists (str "001a"). repeat split; try reflexivity. discriminate.
  - exists (str "001d"). repeat split; reflexivity.
  - exists (str "0019"). repeat split; try reflexivity. discriminate.
Qed.

Lemma inforefs_prelude_is_pkt_line_witness :
  exists len4 : bytes,
    str "001d# service=git-upload-pack0000"
    = len4 ++ (str "# service=git-" ++ str "upload-pack") ++ str "0000"
    /\ length len4 = 4
    /\ Py.int16 len4 = Some 29%Z
    /\ (InfoRefsHandler.requested_service
          (Sample.request "GET" "/repo.git/info/refs" "service=git-upload-pack" [])
        = str "git-upload-pack" ->
        str "001d# service=git-upload-pack0000"
        = str "001d# service=git-upload-pack0000").
Proof.
  apply (inforefs_prelude_is_pkt_line
           (Sample.handler
              (Sample.request "GET" "/repo.git/info/refs" "service=git-upload-pack" []))
           fresh_connection fresh_connection
           {| command := [str "git"; str "upload-pack"; str "--stateless-rpc";
                          str "--advertise-refs"; str "/srv/git/repo.git"];
              success_headers :=
                [(str "Content-Type", str "application/x-git-upload-pack-advertisement");
                 (str "Expires", str "Fri, 01 Jan 1980 00:00:00 GMT");
                 (str "Pragma", str "no-cache");
                 (str "Cache-Control", str "no-cache, max-age=0, must-revalidate")];
              spawn_prelude := str "001d# service=git-upload-pack0000" |}).
  reflexivity.
Defined.

(** C6, as the claim has it, fails on the sample request. *)
Lemma inforefs_prelude_not_001e :
  exists s : Spawn,
    InfoRefsHandler.get
      (Sample.handler
         (Sample.request "GET" "/repo.git/info/refs" "service=git-upload-pack" []))
      fresh_connection
    = (Ok (Some s), fresh_connection)
    /\ Py.startswith (spawn_prelude s)
         (str "001e# service=git-upload-pack" ++ [LF] ++ str "0000") = false
    /\ spawn_prelude s = str "001d# service=git-upload-pack0000".
Proof. eexists. split; [reflexivity|]. split; reflexivity. Qed.

(** C10.  For an [info/refs] request of an existing repository with
    [service=upload-pack], the permission check accepts the name, as it
    accepts [git-upload-pack], and the handler then drops the first four
    characters of the name: the sub-command of the spawned command is
    [ad-pack]. *)
Theorem inforefs_strips_four_characters
  (self : BaseHandler.t) (c : Connection) lookup (gitdir : bytes) (w : bool) :
  BaseHandler.gitlookup self = Some lookup ->
  lookup (BaseHandler.request self) = Some gitdir ->
  BaseHandler.check_auth self c = (Ok (true, w), c) ->
  InfoRefsHandler.requested_service (BaseHandler.request self) = str "upload-pack" ->
  BaseHandler.enforce_perms self (str "upload-pack") c = (Ok true, c)
  /\ BaseHandler.enforce_perms self (str "git-upload-pack") c = (Ok true, c)
  /\ exists s : Spawn,
       InfoRefsHandler.get self c = (Ok (Some s), c)
       /\ command s = [BaseHandler.gitcommand self; str "ad-pack";
                       str "--stateless-rpc"; str "--advertise-refs"; gitdir].
Proof.
  intros Hlook Hdir Hauth Hsvc.
  assert (Hperm : forall rpc, In rpc [str "git-upload-pack"; str "upload-pack"] ->
            BaseHandler.enforce_perms self rpc c = (Ok true, c)).
  { intros rpc Hin. unfold BaseHandler.enforce_perms, bind. rewrite Hauth.
    destruct Hin as [<- | [<- | []]]; reflexivity. }
  split; [apply Hperm; simpl; auto|].
  split; [apply Hperm; simpl; auto|].
  unfold InfoRefsHandler.get, bind.
  rewrite (get_gitdir_found self lookup gitdir c Hlook Hdir).
  rewrite Hsvc, (Hperm (str "upload-pack")) by (simpl; auto).
  eexists. split; reflexivity.
Qed.

Lemma inforefs_strips_four_characters_witness :
  let self := Sample.handler
                (Sample.request "GET" "/repo.git/info/refs" "service=upload-pack" []) in
  BaseHandler.enforce_perms self (str "upload-pack") fresh_connection
  = (Ok true, fresh_connection)
  /\ BaseHandler.enforce_perms self (str "git-upload-pack") fresh_connection
     = (Ok true, fresh_connection)
  /\ exists s : Spawn,
       InfoRefsHandler.get self fresh_connection = (Ok (Some s), fresh_connection)
       /\ command s = [str "git"; str "ad-pack"; str "--stateless-rpc";
                       str "--advertise-refs"; str "/srv/git/repo.git"].
Proof.
  apply (inforefs_strips_four_characters
           (Sample.handler
              (Sample.request "GET" "/repo.git/info/refs" "service=upload-pack" []))
           fresh_connection (Server.gitlookup Sample.options)
           (str "/srv/git/repo.git") false);
    reflexivity.
Defined.

Lemma write_denied_answers_401_witness :
  RPCHandler.post
    (Sample.handler (Sample.request "POST" "/repo.git/git-receive-pack" "" []))
    fresh_connection
  = (Ok None,
     {| written :=
          str "HTTP/1.1 401 Unauthorized" ++ CRLF
          ++ str "Content-Type: text/plain" ++ CRLF
          ++ str "Content-Length: 46" ++ CRLF
          ++ str "WWW-Authenticate: Basic realm=" ++ [Server.DQUOTE]
          ++ str "my git repos" ++ [Server.DQUOTE] ++ CRLF ++ CRLF
          ++ str "Authorization needed to access this repository";
        finish_calls := 1 |}).
Proof.
  apply (write_denied_answers_401 Sample.options
           (Sample.request "POST" "/repo.git/git-receive-pack" "" [])
           fresh_connection (str "/srv/git/repo.git") true);
    reflexivity.
Defined.

(** ** The authenticator *)

(** Every value [auth] returns has [True] as its first component. *)
Lemma auth_returns_read (options : Options) (request : HTTPRequest) (r w : bool) :
  Server.auth options request = Ok (r, w) -> r = true.
Proof.
  unfold Server.auth.
  destruct (headers_get _ _) as [author|]; [|congruence].
  destruct (negb _); [congruence|].
  destruct (Base64.decode _) as [userpw|]; [|discriminate].
  destruct (Py.split1 ":" userpw) as [|user [|pw [|? ?]]]; try discriminate.
  destruct (has_option _ _ user); [|congruence].
  destruct (get _ _ user) as [stored|]; simpl; [|discriminate].
  destruct (bytes_eqb stored pw); [|congruence].
  destruct (has_option _ _ user); [|congruence].
  destruct (get _ _ user) as [allowed|]; simpl; [|discriminate].
  congruence.
Qed.

Lemma auth_no_credentials (options : Options) (request : HTTPRequest) :
  headers_get (str "Authorization") (headers request) = None ->
  Server.auth options request = Ok (true, false).
Proof. unfold Server.auth. now intros ->. Qed.

(** ** Permission enforcement *)

Lemma enforce_perms_upload (self : BaseHandler.t) (rpc : bytes) (c : Connection) (w : bool) :
  BaseHandler.check_auth self c = (Ok (true, w), c) ->
  In rpc [str "git-upload-pack"; str "upload-pack"] ->
  BaseHandler.enforce_perms self rpc c = (Ok true, c).
Proof.
  intros Hauth Hrpc. unfold BaseHandler.enforce_perms, bind. rewrite Hauth.
  destruct Hrpc as [<- | [<- | []]]; reflexivity.
Qed.

(** C9.  Whatever the request and the policy file, the pair the
    authenticator returns has [may_read = true], and the permission
    check lets a read RPC ([git-upload-pack] or [upload-pack]) through
    without writing to the connection. *)
Theorem read_rpc_never_denied
  (options : Options) (self : BaseHandler.t) (rpc : bytes) (c : Connection)
  (r w : bool) :
  BaseHandler.auth self = Some (Server.auth options) ->
  Server.auth options (BaseHandler.request self) = Ok (r, w) ->
  In rpc [str "git-upload-pack"; str "upload-pack"] ->
  r = true /\ BaseHandler.enforce_perms self rpc c = (Ok true, c).
Proof.
  intros Hconf Hauth Hrpc.
  pose proof (auth_returns_read _ _ _ _ Hauth) as ->.
  split; [reflexivity|].
  apply enforce_perms_upload with (w := w); [|assumption].
  rewrite (check_auth_configured _ _ _ Hconf). now rewrite Hauth.
Qed.

Lemma read_rpc_never_denied_witness :
  let self := Sample.handler (Sample.request "GET" "/repo.git/info/refs" "service=git-upload-pack" []) in
  true = true /\
  BaseHandler.enforce_perms self (str "git-upload-pack") fresh_connection
  = (Ok true, fresh_connection).
Proof.
  apply (read_rpc_never_denied Sample.options
           (Sample.handler (Sample.request "GET" "/repo.git/info/refs" "service=git-upload-pack" []))
           (str "git-upload-pack") fresh_connection true false).
  - reflexivity.
  - reflexivity.
  - simpl. auto.
Defined.

(** C7.  The authenticator is not total: Basic credentials that decode to
    a text without a colon make it raise [ValueError], and credentials
    that are not valid base64 make it raise [binascii.Error], where every
    other failure yields [(True, False)]. *)
Theorem auth_raises_on_undecodable_credentials :
  Server.auth Sample.options
    (Sample.request "POST" "/repo.git/git-receive-pack" ""
       [(str "Authorization", str "Basic YWxpY2U=")])
  = Raise ValueError
  /\
  Server.auth Sample.options
    (Sample.request "POST" "/repo.git/git-receive-pack" ""
       [(str "Authorization", str "Basic YWxpY2U")])
  = Raise BinasciiError.
Proof. split; reflexivity. Qed.

(** ** The bridge on concrete runs *)

(** C4.  Bytes the child writes to stderr after [headers_sent] is set are
    not kept from the client: the handler of stderr passes them to
    [request.write], and they follow the last chunk on the connection. *)
Theorem stderr_after_headers_reaches_client :
  exists s0 : ProcessWrapper.State,
    Run.start SampleBridge.advert_env SampleBridge.advert
      (SampleBridge.child "abcdefgh" "warn") fresh_connection [] [] = Ok s0
    /\ let s1 := Run.run SampleBridge.advert_env
                   [ChildWrite Stdout 3; Poll true; Dispatch Stdin 0;
                    Dispatch Stdout 0] s0 in
       let s2 := Run.run SampleBridge.advert_env
                   [ChildWrite Stderr 4; Poll true; Dispatch Stderr 0] s1 in
       ProcessWrapper.headers_sent (ProcessWrapper.self s1) = true
       /\ written (ProcessWrapper.connection s1)
          = SampleBridge.advert_head
            ++ ProcessWrapper.chunk (str "001d# service=git-upload-pack0000")
            ++ ProcessWrapper.chunk (str "abc")
       /\ written (ProcessWrapper.connection s2)
          = written (ProcessWrapper.connection s1) ++ str "warn".
Proof. eexists. split; [reflexivity|]. vm_compute. repeat split; reflexivity. Qed.

(** C1.  The de-chunked body of a chunked response is not always the
    prelude followed by the child's stdout: when the child writes to
    stderr after the headers have gone out, [_handle_stderr_event] writes
    those bytes to the client as they are, between two chunks, and what
    the client receives after the headers no longer de-chunks at all. *)
Theorem chunked_stream_broken_by_late_stderr :
  exists s0 : ProcessWrapper.State,
    Run.start SampleBridge.advert_env SampleBridge.advert
      (SampleBridge.child "abcdefgh" "warn") fresh_connection [] [] = Ok s0
    /\ let s := Run.run SampleBridge.advert_env
                  [ChildWrite Stdout 3; Poll true; Dispatch Stdin 0;
                   Dispatch Stdout 0;
                   ChildWrite Stderr 4; ChildWrite Stdout 5;
                   ChildClose Stdout; ChildClose Stderr;
                   Poll false; Dispatch Stderr 0; Dispatch Stdout 0] s0 in
       ProcessWrapper.sent_chunks (ProcessWrapper.self s) = true
       /\ finish_calls (ProcessWrapper.connection s) = 1
       /\ exists body : bytes,
            written (ProcessWrapper.connection s) = SampleBridge.advert_head ++ body
            /\ body = ProcessWrapper.chunk (str "001d# service=git-upload-pack0000")
                      ++ ProcessWrapper.chunk (str "abc")
                      ++ str "warn"
                      ++ ProcessWrapper.chunk (str "defgh")
                      ++ str "0" ++ CRLF ++ CRLF
            /\ dechunk body = None
            /\ dechunk body
               <> Some (str "001d# service=git-upload-pack0000" ++ str "abcdefgh").
Proof.
  eexists. split; [reflexivity|]. cbv zeta.
  split; [vm_compute; reflexivity|]. split; [vm_compute; reflexivity|].
  eexists. split; [vm_compute; reflexivity|]. split; [vm_compute; reflexivity|].
  split; [vm_compute; reflexivity|]. vm_compute. discriminate.
Qed.

(** C5.  When the child closes stdout and stderr without having written
    anything, the completion closes stdin and then raises
    [AttributeError] on [self._get_date]: no 500 response is written and
    [finish] is not called. *)
Theorem completion_without_output_raises :
  exists s0 : ProcessWrapper.State,
    Run.start SampleBridge.advert_env SampleBridge.advert
      (SampleBridge.child "" "") fresh_connection [] [] = Ok s0
    /\ let s := Run.run SampleBridge.advert_env
                  [Poll true; Dispatch Stdin 0;
                   ChildClose Stdout; ChildClose Stderr;
                   Poll false; Dispatch Stdout 0; Dispatch Stderr 0] s0 in
       closed (stdout (ProcessWrapper.process s)) = true
       /\ closed (stderr (ProcessWrapper.process s)) = true
       /\ stdin_closed (ProcessWrapper.process s) = true
       /\ ProcessWrapper.headers_sent (ProcessWrapper.self s) = false
       /\ logged (ProcessWrapper.ioloop s) = [AttributeError (str "_get_date")]
       /\ written (ProcessWrapper.connection s) = []
       /\ finish_calls (ProcessWrapper.connection s) = 0.
Proof. eexists. split; [reflexivity|]. vm_compute. repeat split; reflexivity. Qed.

(** The completion is not idempotent either: when the three descriptors
    hang up in one batch and the handler of stdin runs last, the request
    is finished twice. *)
Lemma completion_runs_twice :
  exists s0 : ProcessWrapper.State,
    Run.start SampleBridge.upload_env SampleBridge.upload
      (SampleBridge.child "abc" "") fresh_connection [] SampleBridge.body_two_chunks
    = Ok s0
    /\ let s := Run.run SampleBridge.upload_env
                  [ChildWrite Stdout 3; ChildClose Stdout; ChildClose Stderr;
                   ChildClose Stdin;
                   Poll false; Dispatch Stdout 0; Dispatch Stderr 0;
                   Dispatch Stdin 0] s0 in
       finish_calls (ProcessWrapper.connection s) = 2.
Proof. eexists. split; [reflexivity|]. vm_compute. reflexivity. Qed.

(** C2, as the claim has it, fails when the first chunk is shorter than
    the gzip magic: the body is well formed, and the bridge raises. *)
Lemma split_magic_is_refused :
  dechunk SampleBridge.body_split_magic
  = Some (ProcessWrapper.gzip_magic ++ str "def")
  /\ inflate SampleBridge.upload_env (ProcessWrapper.gzip_magic ++ str "def")
     = Some (str "def")
  /\ Run.start SampleBridge.upload_env SampleBridge.upload
       (SampleBridge.child "" "") fresh_connection SampleBridge.body_split_magic []
     = Raise (AssertionError (str "gzip header"))
  /\ exists s0 : ProcessWrapper.State,
       Run.start SampleBridge.upload_env SampleBridge.upload
         (SampleBridge.child "" "") fresh_connection [] SampleBridge.body_split_magic
       = Ok s0
       /\ let s := Run.run SampleBridge.upload_env
                     [StreamRead 100; RunCallback; Poll true; Dispatch Stdin 100;
                      ChildClose Stdout; ChildClose Stderr;
                      Poll true; Dispatch Stdout 0; Dispatch Stderr 0] s0 in
          logged (ProcessWrapper.ioloop s)
          = [AssertionError (str "gzip header"); AttributeError (str "_get_date")]
          /\ stdin_closed (ProcessWrapper.process s) = true
          /\ stdin_received (ProcessWrapper.process s) = []
          /\ stdin_received (ProcessWrapper.process s) <> str "def".
Proof.
  split; [vm_compute; reflexivity|]. split; [vm_compute; reflexivity|].
  split; [vm_compute; reflexivity|].
  eexists. split; [reflexivity|]. vm_compute.
  repeat split; try reflexivity. discriminate.
Qed.

(** ** Rules for [wp] and [keeps] *)

Section WpRules.
Context {S : Type}.

Lemma wp_ret {A} (a : A) (Q : A -> S -> Prop) E s :
  wp (ret a) Q E s <-> Q a s.
Proof. reflexivity. Qed.

Lemma wp_raise {A} (e : exn) (Q : A -> S -> Prop) E s :
  wp (raise e) Q E s <-> E s.
Proof. reflexivity. Qed.

Lemma wp_read {A} (f : S -> A) (Q : A -> S -> Prop) E s :
  wp (read f) Q E s <-> Q (f s) s.
Proof. reflexivity. Qed.

Lemma wp_effect (f : S -> S) (Q : unit -> S -> Prop) E s :
  wp (effect f) Q E s <-> Q tt (f s).
Proof. reflexivity. Qed.

Lemma wp_bind {A B} (m : ST S A) (k : A -> ST S B) (Q : B -> S -> Prop) E s :
  wp (bind m k) Q E s <-> wp m (fun a s' => wp (k a) Q E s') E s.
Proof. unfold wp, bind. destruct (m s) as [[a|e] s']; reflexivity. Qed.

Lemma wp_when (b : bool) (m : ST S unit) (Q : unit -> S -> Prop) E s :
  wp (when b m) Q E s <-> if b then wp m Q E s else Q tt s.
Proof. destruct b; reflexivity. Qed.

Lemma wp_assert (b : bool) (msg : bytes) (Q : unit -> S -> Prop) E s :
  wp (assert b msg) Q E s <-> if b then Q tt s else E s.
Proof. destruct b; reflexivity. Qed.

Lemma wp_if {A} (b : bool) (m1 m2 : ST S A) (Q : A -> S -> Prop) E s :
  wp (if b then m1 else m2) Q E s <-> if b then wp m1 Q E s else wp m2 Q E s.
Proof. destruct b; reflexivity. Qed.

Lemma wp_mono {A} (m : ST S A) (Q Q' : A -> S -> Prop) (E E' : S -> Prop) s :
  wp m Q E s ->
  (forall a s', Q a s' -> Q' a s') ->
  (forall s', E s' -> E' s') ->
  wp m Q' E' s.
Proof.
  unfold wp. destruct (m s) as [[a|e] s']; intros H HQ HE; auto.
Qed.

(** A computation that keeps a view can be stepped over when the
    postconditions only look at the view. *)
Lemma wp_keeps {A V} (view : S -> V) (m : ST S A) (P : V -> Prop) s :
  keeps view m -> P (view s) ->
  wp m (fun _ s' => P (view s')) (fun s' => P (view s')) s.
Proof.
  intros Hk HP. unfold wp. specialize (Hk s).
  destruct (m s) as [[a|e] s']; simpl in Hk; now rewrite Hk.
Qed.

Context {V : Type} (view : S -> V).

Lemma keeps_ret {A} (a : A) : keeps view (ret a).
Proof. intros s. reflexivity. Qed.

Lemma keeps_raise {A} (e : exn) : keeps view (@raise S A e).
Proof. intros s. reflexivity. Qed.

Lemma keeps_read {A} (f : S -> A) : keeps view (read f).
Proof. intros s. reflexivity. Qed.

Lemma keeps_effect (f : S -> S) :
  (forall s, view (f s) = view s) -> keeps view (effect f).
Proof. intros H s. apply H. Qed.

Lemma keeps_bind {A B} (m : ST S A) (k : A -> ST S B) :
  keeps view m -> (forall a, keeps view (k a)) -> keeps view (bind m k).
Proof.
  intros Hm Hk s. unfold bind. specialize (Hm s).
  destruct (m s) as [[a|e] s']; simpl in *; [|assumption].
  now rewrite Hk.
Qed.

Lemma keeps_when (b : bool) (m : ST S unit) :
  keeps view m -> keeps view (when b m).
Proof. destruct b; [auto|]. intros _ s. reflexivity. Qed.

Lemma keeps_assert (b : bool) (msg : bytes) : keeps view (@assert S b msg).
Proof. destruct b; intros s; reflexivity. Qed.

Lemma keeps_if {A} (b : bool) (m1 m2 : ST S A) :
  keeps view m1 -> keeps view m2 -> keeps view (if b then m1 else m2).
Proof. destruct b; auto. Qed.

End WpRules.

Create HintDb keeps discriminated.
#[local] Hint Resolve keeps_ret keeps_raise keeps_read keeps_bind keeps_when
  keeps_assert keeps_if : keeps.

(** ** Searching and slicing *)

Lemma find_bound (sub s : bytes) (loc : nat) :
  ProcessWrapper.find sub s = Some loc -> loc + length sub <= length s.
Proof.
  revert loc. induction s as [|c s IH]; intros loc; simpl.
  - destruct (Py.startswith [] sub) eqn:E; [|discriminate].
    intros [= <-]. apply startswith_length in E. simpl in *. lia.
  - destruct (Py.startswith (c :: s) sub) eqn:E.
    + intros [= <-]. apply startswith_length in E. simpl in *. lia.
    + destruct (ProcessWrapper.find sub s) as [l|]; simpl; [|discriminate].
      intros [= <-]. specialize (IH l eq_refl). lia.
Qed.

Lemma startswith_app_long (s t p : bytes) :
  length p <= length s -> Py.startswith (s ++ t) p = Py.startswith s p.
Proof.
  revert s. induction p as [|c p IH]; intros s H; [reflexivity|].
  destruct s as [|d s]; simpl in *; [lia|].
  rewrite IH by lia. reflexivity.
Qed.

Lemma find_app (sub s t : bytes) (loc : nat) :
  ProcessWrapper.find sub s = Some loc ->
  ProcessWrapper.find sub (s ++ t) = Some loc.
Proof.
  revert loc. induction s as [|c s IH]; intros loc H.
  - pose proof (find_bound _ _ _ H) as Hb. simpl in Hb.
    destruct sub; [|simpl in Hb; lia].
    simpl in H. injection H as <-. destruct t; reflexivity.
  - pose proof (find_bound _ _ _ H) as Hb.
    cbn [ProcessWrapper.find] in H |- *. change ((c :: s) ++ t) with (c :: (s ++ t)).
    cbn [ProcessWrapper.find].
    destruct (Py.startswith (c :: s) sub) eqn:E.
    + injection H as <-.
      change (c :: s ++ t) with ((c :: s) ++ t).
      rewrite startswith_app_long, E by lia. reflexivity.
    + destruct (ProcessWrapper.find sub s) as [l|] eqn:F; [|discriminate].
      simpl in H. injection H as <-.
      change (c :: s ++ t) with ((c :: s) ++ t).
      rewrite startswith_app_long, E by (simpl in *; lia).
      now rewrite (IH l eq_refl).
Qed.

Lemma find_startswith (sub s : bytes) (loc : nat) :
  ProcessWrapper.find sub s = Some loc -> Py.startswith (skipn loc s) sub = true.
Proof.
  revert loc. induction s as [|c s IH]; intros loc; simpl.
  - destruct (Py.startswith [] sub) eqn:E; [|discriminate]. now intros [= <-].
  - destruct (Py.startswith (c :: s) sub) eqn:E; [now intros [= <-]|].
    destruct (ProcessWrapper.find sub s) as [l|]; [|discriminate].
    simpl. intros [= <-]. now apply IH.
Qed.

Lemma startswith_firstn (s p : bytes) :
  Py.startswith s p = true -> firstn (length p) s = p.
Proof.
  revert s. induction p as [|c p IH]; intros s; [reflexivity|].
  destruct s as [|d s]; simpl; [discriminate|].
  rewrite andb_true_iff. intros [Hc Hp]. apply Ascii.eqb_eq in Hc. subst.
  now rewrite IH.
Qed.

Lemma last_n_firstn (k loc : nat) (s : bytes) :
  loc + k <= length s ->
  Py.last_n k (firstn (loc + k) s) = firstn k (skipn loc s).
Proof.
  intros H. unfold Py.last_n. rewrite length_firstn, Nat.min_l by lia.
  replace (loc + k - k) with loc by lia.
  rewrite skipn_firstn_comm. f_equal. lia.
Qed.

Lemma drop_last_firstn (k loc : nat) (s : bytes) :
  loc + k <= length s ->
  Py.drop_last k (firstn (loc + k) s) = firstn loc s.
Proof.
  intros H. unfold Py.drop_last. rewrite length_firstn, Nat.min_l by lia.
  replace (loc + k - k) with loc by lia.
  rewrite firstn_firstn. f_equal. lia.
Qed.

Lemma slice_to_nat (n : nat) (s : bytes) :
  ProcessWrapper.slice_to (Z.of_nat n) s = firstn n s.
Proof.
  unfold ProcessWrapper.slice_to.
  destruct (Z.leb_spec 0 (Z.of_nat n)); [|lia]. now rewrite Nat2Z.id.
Qed.

Lemma slice_from_nat (n : nat) (s : bytes) :
  ProcessWrapper.slice_from (Z.of_nat n) s = skipn n s.
Proof.
  unfold ProcessWrapper.slice_from.
  destruct (Z.leb_spec 0 (Z.of_nat n)); [|lia]. now rewrite Nat2Z.id.
Qed.

(** ** The decoder of the specification *)

Lemma dechunk_go_sound (fuel : nat) (s p : bytes) :
  dechunk_go fuel s = Some p -> Dechunk s p.
Proof.
  revert s p. induction fuel as [|fuel IH]; intros s p; simpl; [discriminate|].
  destruct (ProcessWrapper.find CRLF s) as [loc|] eqn:Hfind; [|discriminate].
  destruct (Py.int16 _) as [n|] eqn:Hint; [|discriminate].
  assert (Hsize : chunk_size s = Some (n, skipn (loc + 2) s)).
  { unfold chunk_size. now rewrite Hfind, Hint. }
  destruct (Z.eqb_spec n 0) as [->|Hn0].
  { intros [= <-]. eapply Dechunk_last. eassumption. }
  destruct (Z.ltb_spec n 0) as [Hneg|Hpos]; [discriminate|].
  destruct (_ && _) eqn:Hok; [|discriminate].
  apply andb_true_iff in Hok. destruct Hok as [Hlen Hcrlf].
  apply Nat.leb_le in Hlen. apply bytes_eqb_eq in Hcrlf.
  destruct (dechunk_go fuel _) as [r|] eqn:Hrec; [|discriminate].
  simpl. intros [= <-].
  apply Dechunk_chunk with (rest := skipn (loc + 2) s); auto.
  - now rewrite Z2Nat.id by lia.
  - lia.
Qed.

Lemma dechunk_sound (s p : bytes) : dechunk s = Some p -> Dechunk s p.
Proof. apply dechunk_go_sound. Qed.

Lemma magic_firstb_sound (s : bytes) : magic_firstb s = true -> magic_first s.
Proof.
  unfold magic_firstb, magic_first. intros H n rest Hs Hn. rewrite Hs in H.
  apply orb_true_iff in H. destruct H as [H|H].
  - apply Z.eqb_eq in H. contradiction.
  - now apply bytes_eqb_eq.
Qed.

(** ** Stepping through bridge code *)

(** Projections of updated records. *)
Ltac st_simpl :=
  cbn [ProcessWrapper.self ProcessWrapper.process ProcessWrapper.ioloop
       ProcessWrapper.httpstream ProcessWrapper.connection
       ProcessWrapper.set_self ProcessWrapper.set_process ProcessWrapper.set_ioloop
       ProcessWrapper.set_httpstream ProcessWrapper.set_connection
       ProcessWrapper.reading_chunks ProcessWrapper.got_chunk
       ProcessWrapper.headers_sent ProcessWrapper.got_request
       ProcessWrapper.sent_chunks ProcessWrapper.gzip_decompressor
       ProcessWrapper.gzip_header_seen ProcessWrapper.process_input_buffer
       ProcessWrapper.output_prelude ProcessWrapper.headers
       ProcessWrapper.set_reading_chunks ProcessWrapper.set_got_chunk
       ProcessWrapper.set_headers_sent ProcessWrapper.set_got_request
       ProcessWrapper.set_sent_chunks ProcessWrapper.set_gzip_decompressor
       ProcessWrapper.set_gzip_header_seen ProcessWrapper.set_process_input_buffer
       ProcessWrapper.set_headers
       buf todo hup closed
       ProcessWrapper.set_buf ProcessWrapper.set_todo ProcessWrapper.set_hup
       ProcessWrapper.set_closed
       stdin_closed stdin_received stdin_hup stdin_room stdout stderr
       ProcessWrapper.set_stdin_closed ProcessWrapper.set_stdin_received
       ProcessWrapper.set_stdin_hup ProcessWrapper.set_stdin_room
       ProcessWrapper.set_stdout ProcessWrapper.set_stderr
       ProcessWrapper.pipe_of ProcessWrapper.set_pipe ProcessWrapper.fd_closed
       handlers events callbacks logged
       ProcessWrapper.set_handlers ProcessWrapper.set_events
       ProcessWrapper.set_callbacks ProcessWrapper.set_logged
       socket read_buffer reading
       ProcessWrapper.set_socket ProcessWrapper.set_read_buffer
       ProcessWrapper.set_reading
       written finish_calls request_write request_finish
       fst snd] in *.

Section WpIntro.
Context {S : Type}.

Lemma wp_bind_intro {A B} (m : ST S A) (k : A -> ST S B) (Q : B -> S -> Prop) E s :
  wp m (fun a s' => wp (k a) Q E s') E s -> wp (bind m k) Q E s.
Proof. apply wp_bind. Qed.

Lemma wp_ret_intro {A} (a : A) (Q : A -> S -> Prop) (E : S -> Prop) s :
  Q a s -> wp (ret a) Q E s.
Proof. exact (fun H => H). Qed.

Lemma wp_read_intro {A} (f : S -> A) (Q : A -> S -> Prop) (E : S -> Prop) s :
  Q (f s) s -> wp (read f) Q E s.
Proof. exact (fun H => H). Qed.

Lemma wp_effect_intro (f : S -> S) (Q : unit -> S -> Prop) (E : S -> Prop) s :
  Q tt (f s) -> wp (effect f) Q E s.
Proof. exact (fun H => H). Qed.

Lemma wp_raise_intro {A} (e : exn) (Q : A -> S -> Prop) (E : S -> Prop) s :
  E s -> wp (raise e) Q E s.
Proof. exact (fun H => H). Qed.

Lemma wp_when_intro (b : bool) (m : ST S unit) (Q : unit -> S -> Prop) E s :
  (if b then wp m Q E s else Q tt s) -> wp (when b m) Q E s.
Proof. apply wp_when. Qed.

Lemma wp_assert_intro (b : bool) (msg : bytes) (Q : unit -> S -> Prop)
  (E : S -> Prop) s :
  (if b then Q tt s else E s) -> wp (assert b msg) Q E s.
Proof. apply wp_assert. Qed.

End WpIntro.

(** One rule of [wp] at the head of the goal. *)
Ltac wp_head :=
  lazymatch goal with
  | |- wp (bind _ _) _ _ _ => apply wp_bind_intro
  | |- wp (ret _) _ _ _ => apply wp_ret_intro
  | |- wp (read _) _ _ _ => apply wp_read_intro
  | |- wp (effect _) _ _ _ => apply wp_effect_intro
  | |- wp (raise _) _ _ _ => apply wp_raise_intro
  | |- wp (when _ _) _ _ _ => apply wp_when_intro
  | |- wp (assert _ _) _ _ _ => apply wp_assert_intro
  | |- wp (ProcessWrapper.upd_self _) _ _ _ => unfold ProcessWrapper.upd_self at 1
  | |- wp (ProcessWrapper.upd_process _) _ _ _ => unfold ProcessWrapper.upd_process at 1
  | |- wp (ProcessWrapper.upd_ioloop _) _ _ _ => unfold ProcessWrapper.upd_ioloop at 1
  | |- wp (ProcessWrapper.upd_stream _) _ _ _ => unfold ProcessWrapper.upd_stream at 1
  | |- wp (ProcessWrapper.write _) _ _ _ => unfold ProcessWrapper.write at 1
  | |- wp ProcessWrapper.finish _ _ _ => unfold ProcessWrapper.finish at 1
  | |- wp ProcessWrapper.stdin_close _ _ _ => unfold ProcessWrapper.stdin_close at 1
  | |- wp ProcessWrapper.add_callback _ _ _ => unfold ProcessWrapper.add_callback at 1
  | |- wp (ProcessWrapper.add_handler _ _) _ _ _ =>
      unfold ProcessWrapper.add_handler at 1
  | |- wp (ProcessWrapper.remove_handler _) _ _ _ =>
      unfold ProcessWrapper.remove_handler at 1
  | |- wp (ProcessWrapper.file_close _) _ _ _ => unfold ProcessWrapper.file_close at 1
  | |- wp (ProcessWrapper.consume _) _ _ _ => unfold ProcessWrapper.consume at 1
  end; cbv beta.

Ltac wp_run := repeat wp_head.

(** ** The inbound path keeps its invariant *)

Lemma inbound_inv_view (env : Env) (payload : bytes) (s s' : ProcessWrapper.State) :
  inbound s' = inbound s -> inbound_inv env payload s -> inbound_inv env payload s'.
Proof.
  unfold inbound. intros [= Hz Hseen Hbuf Hreq Hrecv Hstream].
  unfold inbound_inv, unread. rewrite Hz, Hseen, Hbuf, Hreq, Hrecv, Hstream.
  trivial.
Qed.

Lemma chunk_size_functional (s : bytes) (n m : Z) (r1 r2 : bytes) :
  chunk_size s = Some (n, r1) -> chunk_size s = Some (m, r2) -> n = m /\ r1 = r2.
Proof. intros H1 H2. rewrite H1 in H2. now injection H2. Qed.

Section Inbound.
Variables (env : Env) (payload plain : bytes).
Hypothesis Hstream : streaming (inflate env).
Hypothesis Hplain : inflate env payload = Some plain.

Local Abbreviation I := (inbound_inv env payload).

(** Every prefix of the payload decompresses, and to a prefix. *)
Lemma inflate_step (fed p rp out : bytes) :
  fed ++ p ++ rp = payload ->
  inflate env fed = Some out ->
  exists more, inflate env (fed ++ p) = Some (out ++ more).
Proof.
  intros Hsplit Hfed. destruct Hstream as [_ Hs].
  rewrite app_assoc in Hsplit. rewrite <- Hsplit in Hplain.
  destruct (Hs _ _ _ Hplain) as (o1 & o2 & Ho1 & _).
  destruct (Hs _ _ _ Ho1) as (o1' & o2' & Ho1' & ->).
  rewrite Hfed in Ho1'. injection Ho1' as <-. now exists o2'.
Qed.

Lemma chunk_data_safe (s : ProcessWrapper.State) (n : nat) (rp fed : bytes) :
  ProcessWrapper.gzip_decompressor (ProcessWrapper.self s) = Some fed ->
  inflate env fed
  = Some (stdin_received (ProcessWrapper.process s)
          ++ ProcessWrapper.process_input_buffer (ProcessWrapper.self s)) ->
  ProcessWrapper.got_request (ProcessWrapper.self s) = false ->
  reading (ProcessWrapper.httpstream s) = None ->
  0 < n ->
  n + 2 <= length (read_buffer (ProcessWrapper.httpstream s)) ->
  firstn 2 (skipn n (unread s)) = CRLF ->
  Dechunk (skipn (n + 2) (unread s)) rp ->
  fed ++ firstn n (unread s) ++ rp = payload ->
  (ProcessWrapper.gzip_header_seen (ProcessWrapper.self s) = false ->
   fed = [] /\ firstn 2 (unread s) = ProcessWrapper.gzip_magic) ->
  wp (data <- ProcessWrapper.consume (Z.of_nat n + 2) ;;
      ProcessWrapper._chunk_data env data)
    (fun _ => I) I s.
Proof.
  intros Hz Hfed Hreq Hread Hn Hlen Hcrlf Hrest Hsplit Hmagic.
  set (b := read_buffer (ProcessWrapper.httpstream s)) in *.
  assert (Hun : unread s = b ++ socket (ProcessWrapper.httpstream s)) by reflexivity.
  assert (Hdata : firstn n (unread s) = firstn n b).
  { rewrite Hun, firstn_app. replace (n - length b) with 0 by lia.
    now rewrite app_nil_r. }
  assert (Hcr : firstn 2 (skipn n b) = CRLF).
  { rewrite Hun, skipn_app, firstn_app in Hcrlf.
    replace (n - length b) with 0 in Hcrlf by lia.
    rewrite length_skipn in Hcrlf. replace (2 - (length b - n)) with 0 in Hcrlf by lia.
    now rewrite app_nil_r in Hcrlf. }
  assert (Hun' : skipn (n + 2) (unread s)
                 = skipn (n + 2) b ++ socket (ProcessWrapper.httpstream s)).
  { rewrite Hun, skipn_app. replace (n + 2 - length b) with 0 by lia. reflexivity. }
  destruct (inflate_step fed (firstn n b) rp _ ltac:(now rewrite <- Hdata) Hfed)
    as [more Hmore].
  replace (Z.of_nat n + 2)%Z with (Z.of_nat (n + 2)) by lia.
  unfold ProcessWrapper._chunk_data.
  wp_run. fold b. rewrite slice_to_nat, slice_from_nat.
  rewrite (last_n_firstn 2 n b Hlen), Hcr, bytes_eqb_refl.
  wp_run. st_simpl. rewrite Hz.
  wp_run. st_simpl.
  set (p := firstn n b) in *.
  assert (HI : forall s2 : ProcessWrapper.State,
             inbound s2
             = (Some (fed ++ p), true,
                ProcessWrapper.process_input_buffer (ProcessWrapper.self s) ++ more,
                false, stdin_received (ProcessWrapper.process s),
                ProcessWrapper.set_read_buffer (skipn (n + 2) b)
                  (ProcessWrapper.httpstream s)) ->
             I s2).
  { intros s2 [= Hz2 Hseen2 Hb2 Hreq2 Hrecv2 Hst2].
    exists (fed ++ p). unfold unread.
    rewrite Hz2, Hb2, Hreq2, Hrecv2, Hst2, Hseen2. st_simpl.
    rewrite Hread. split; [reflexivity|]. split.
    - rewrite Hmore. now rewrite <- app_assoc.
    - exists rp. rewrite <- Hun'. split; [assumption|]. split.
      + rewrite <- app_assoc. subst p. rewrite <- Hdata. assumption.
      + discriminate. }
  assert (Hgo :
    forall s1 : ProcessWrapper.State,
      inbound s1
      = (Some fed, true,
         ProcessWrapper.process_input_buffer (ProcessWrapper.self s),
         false, stdin_received (ProcessWrapper.process s),
         ProcessWrapper.set_read_buffer (skipn (n + 2) b)
           (ProcessWrapper.httpstream s)) ->
      wp (ProcessWrapper.decompress env (Py.drop_last 2 (firstn (n + 2) b)))
        (fun out s' =>
           wp (ProcessWrapper.upd_self
                 (fun r => ProcessWrapper.set_process_input_buffer
                             (ProcessWrapper.process_input_buffer r ++ out) r))
             (fun _ s'0 =>
                wp (ProcessWrapper.upd_self (ProcessWrapper.set_got_chunk true) ;;;
                    b0 <- read (fun s2 => ProcessWrapper.process_input_buffer
                                            (ProcessWrapper.self s2)) ;;
                    when (negb (bytes_eqb b0 []))
                      (ProcessWrapper.update_handler Stdin (Z.lor WRITE ERROR)) ;;;
                    ProcessWrapper.add_callback)
                  (fun _ => I) I s'0)
             I s')
        I s1).
  { intros s1 [= Hz1 Hseen1 Hb1 Hreq1 Hrecv1 Hst1].
    unfold ProcessWrapper.decompress. wp_run. rewrite Hz1.
    rewrite (drop_last_firstn 2 n b Hlen). fold p. rewrite Hfed, Hmore.
    wp_run. st_simpl.
    rewrite length_app, <- length_app, skipn_app, skipn_all, Nat.sub_diag.
    cbn [skipn app]. rewrite Hb1.
    assert (Hview : forall l : IOLoop,
      inbound
        (ProcessWrapper.set_ioloop l
           (ProcessWrapper.set_self
              (ProcessWrapper.set_got_chunk true
                 (ProcessWrapper.set_process_input_buffer
                    (ProcessWrapper.process_input_buffer (ProcessWrapper.self s) ++ more)
                    (ProcessWrapper.set_gzip_decompressor (Some (fed ++ p))
                       (ProcessWrapper.self s1))))
              s1))
      = (Some (fed ++ p), true,
         ProcessWrapper.process_input_buffer (ProcessWrapper.self s) ++ more,
         false, stdin_received (ProcessWrapper.process s),
         ProcessWrapper.set_read_buffer (skipn (n + 2) b)
           (ProcessWrapper.httpstream s))).
    { intros l. unfold inbound. st_simpl. now rewrite Hseen1, Hreq1, Hrecv1, Hst1. }
    assert (Hview0 :
      inbound
        (ProcessWrapper.set_self
           (ProcessWrapper.set_got_chunk true
              (ProcessWrapper.set_process_input_buffer
                 (ProcessWrapper.process_input_buffer (ProcessWrapper.self s) ++ more)
                 (ProcessWrapper.set_gzip_decompressor (Some (fed ++ p))
                    (ProcessWrapper.self s1))))
           s1)
      = (Some (fed ++ p), true,
         ProcessWrapper.process_input_buffer (ProcessWrapper.self s) ++ more,
         false, stdin_received (ProcessWrapper.process s),
         ProcessWrapper.set_read_buffer (skipn (n + 2) b)
           (ProcessWrapper.httpstream s))).
    { unfold inbound. st_simpl. now rewrite Hseen1, Hreq1, Hrecv1, Hst1. }
    destruct (negb (bytes_eqb _ [])).
    - unfold ProcessWrapper.update_handler. wp_run. st_simpl.
      destruct (ProcessWrapper.lookup_fd Stdin _).
      + destruct (stdin_closed _).
        * wp_run. apply HI, Hview0.
        * wp_run. apply HI. st_simpl. apply Hview.
      + wp_run. apply HI, Hview0.
    - wp_run. apply HI. st_simpl. apply Hview. }
  destruct (ProcessWrapper.gzip_header_seen (ProcessWrapper.self s)) eqn:Hseen;
    cbn [negb].
  - wp_head. apply Hgo. unfold inbound. st_simpl. now rewrite Hz, Hseen, Hreq.
  - destruct (Hmagic eq_refl) as [-> Hm].
    wp_run.
    assert (Hm2 : firstn 2 (firstn (n + 2) b) = ProcessWrapper.gzip_magic).
    { rewrite firstn_firstn, Nat.min_l by lia. rewrite <- Hm, Hun, firstn_app.
      replace (2 - length b) with 0 by lia. now rewrite app_nil_r. }
    rewrite Hm2, bytes_eqb_refl. wp_run.
    apply Hgo. unfold inbound. st_simpl. now rewrite Hz, Hreq.
Qed.

Lemma chunk_size_unread (s : ProcessWrapper.State) (loc : nat) :
  ProcessWrapper.find CRLF (read_buffer (ProcessWrapper.httpstream s)) = Some loc ->
  chunk_size (unread s)
  = match Py.int16 (Py.strip (hd [] (Py.split ";"
            (firstn loc (read_buffer (ProcessWrapper.httpstream s)))))) with
    | Some n =>
        Some (n, skipn (loc + 2) (read_buffer (ProcessWrapper.httpstream s))
                 ++ socket (ProcessWrapper.httpstream s))
    | None => None
    end.
Proof.
  intros Hfind. pose proof (find_bound _ _ _ Hfind) as Hb. simpl in Hb.
  unfold chunk_size, unread. rewrite (find_app _ _ _ _ Hfind).
  rewrite firstn_app, skipn_app.
  replace (loc - length (read_buffer (ProcessWrapper.httpstream s))) with 0 by lia.
  replace (loc + 2 - length (read_buffer (ProcessWrapper.httpstream s))) with 0 by lia.
  cbn [firstn skipn]. now rewrite app_nil_r.
Qed.

Lemma chunk_length_safe (s : ProcessWrapper.State) (loc : nat) (rp fed : bytes) :
  ProcessWrapper.gzip_decompressor (ProcessWrapper.self s) = Some fed ->
  inflate env fed
  = Some (stdin_received (ProcessWrapper.process s)
          ++ ProcessWrapper.process_input_buffer (ProcessWrapper.self s)) ->
  ProcessWrapper.got_request (ProcessWrapper.self s) = false ->
  reading (ProcessWrapper.httpstream s) = None ->
  ProcessWrapper.find CRLF (read_buffer (ProcessWrapper.httpstream s)) = Some loc ->
  Dechunk (unread s) rp ->
  fed ++ rp = payload ->
  (ProcessWrapper.gzip_header_seen (ProcessWrapper.self s) = false ->
   fed = [] /\ magic_first (unread s)) ->
  wp (data <- ProcessWrapper.consume (Z.of_nat (loc + 2)) ;;
      ProcessWrapper._chunk_length env data)
    (fun _ => I) I s.
Proof.
  intros Hz Hfed Hreq Hread Hfind Hrest Hsplit Hmagic.
  pose proof (find_bound _ _ _ Hfind) as Hb. simpl in Hb.
  pose proof (chunk_size_unread s loc Hfind) as Hsize.
  set (b := read_buffer (ProcessWrapper.httpstream s)) in *.
  assert (Hcr : firstn 2 (skipn loc b) = CRLF).
  { apply (startswith_firstn _ CRLF). now apply find_startswith. }
  unfold ProcessWrapper._chunk_length.
  wp_run. fold b. rewrite slice_to_nat, slice_from_nat.
  rewrite (last_n_firstn 2 loc b Hb), Hcr, bytes_eqb_refl.
  rewrite (drop_last_firstn 2 loc b Hb).
  destruct (Py.int16 _) as [len|] eqn:Hint.
  2:{ inversion Hrest; congruence. }
  inversion Hrest as [s0 rest Hs0 Es0 Erp|s0 rest p n Hs0 Hn Hlen Hcrlf Hp Es0 Erp];
    subst s0 rp.
  - (* the last chunk *)
    rewrite Hsize in Hs0. injection Hs0 as -> _. cbn [Z.eqb negb].
    assert (HI : forall s2 : ProcessWrapper.State,
               inbound s2
               = (Some fed, ProcessWrapper.gzip_header_seen (ProcessWrapper.self s),
                  ProcessWrapper.process_input_buffer (ProcessWrapper.self s),
                  true, stdin_received (ProcessWrapper.process s),
                  ProcessWrapper.set_read_buffer (skipn (loc + 2) b)
                    (ProcessWrapper.httpstream s)) ->
               I s2).
    { intros s2 [= Hz2 Hseen2 Hb2 Hreq2 Hrecv2 Hst2].
      exists fed. rewrite Hz2, Hb2, Hreq2, Hrecv2, Hst2.
      split; [reflexivity|]. split; [assumption|].
      rewrite app_nil_r in Hsplit. st_simpl. auto. }
    wp_run. unfold ProcessWrapper.update_handler. wp_run. st_simpl.
    destruct (ProcessWrapper.lookup_fd Stdin _).
    + destruct (stdin_closed _); wp_run; apply HI; unfold inbound; st_simpl;
        now rewrite Hz.
    + wp_run. apply HI. unfold inbound. st_simpl. now rewrite Hz.
  - (* a chunk of [n] bytes *)
    rewrite Hsize in Hs0. injection Hs0 as -> <-.
    replace (negb (Z.of_nat n =? 0)%Z) with true
      by (symmetry; apply negb_true_iff, Z.eqb_neq; lia).
    unfold ProcessWrapper.read_bytes. wp_run. st_simpl. rewrite Hread.
    cbv iota. wp_run. st_simpl.
    set (s1 := ProcessWrapper.set_httpstream
                 (ProcessWrapper.set_read_buffer (skipn (loc + 2) b)
                    (ProcessWrapper.httpstream s)) s).
    assert (Hun1 : unread s1 = skipn (loc + 2) b ++ socket (ProcessWrapper.httpstream s))
      by reflexivity.
    assert (Hm1 : ProcessWrapper.gzip_header_seen (ProcessWrapper.self s) = false ->
                  fed = [] /\ firstn 2 (unread s1) = ProcessWrapper.gzip_magic).
    { intros Hseen. destruct (Hmagic Hseen) as [-> Hm]. split; [reflexivity|].
      rewrite Hun1. apply (Hm _ _ Hsize). lia. }
    destruct (Z.leb_spec (Z.of_nat n + 2) (Z.of_nat (length (skipn (loc + 2) b))))
      as [Hin|Hout].
    + apply wp_bind. apply chunk_data_safe with (rp := p) (fed := fed);
        try assumption; try (rewrite Hun1; assumption).
      subst s1. st_simpl. lia.
    + wp_run. exists fed. subst s1. unfold unread in *. st_simpl. rewrite Hz, Hreq.
      split; [reflexivity|]. split; [assumption|].
      exists n, p. repeat split; auto; now apply Hm1.
Qed.

Lemma read_until_safe (s : ProcessWrapper.State) :
  I s -> ProcessWrapper.got_request (ProcessWrapper.self s) = false ->
  wp (ProcessWrapper.read_until env) (fun _ => I) I s.
Proof.
  intros HI Hreq. unfold ProcessWrapper.read_until. wp_run.
  destruct (reading (ProcessWrapper.httpstream s)) as [r|] eqn:Hread;
    [assumption|].
  destruct HI as (fed & Hz & Hfed & Hrest). rewrite Hreq, Hread in Hrest.
  destruct Hrest as (rp & Hrp & Hsplit & Hmagic).
  destruct (ProcessWrapper.find CRLF _) as [loc|] eqn:Hfind.
  - apply chunk_length_safe with (rp := rp) (fed := fed); assumption.
  - wp_run. exists fed. unfold unread. st_simpl. rewrite Hz, Hreq.
    split; [reflexivity|]. split; [assumption|]. exists rp. auto.
Qed.

Lemma read_chunks_loop_safe (fuel : nat) (s : ProcessWrapper.State) :
  I s -> wp (ProcessWrapper.read_chunks_loop env fuel) (fun _ => I) I s.
Proof.
  revert s. induction fuel as [|fuel IH]; intros s HI; [exact HI|].
  cbn [ProcessWrapper.read_chunks_loop]. wp_run.
  destruct (ProcessWrapper.got_request (ProcessWrapper.self s)) eqn:Hreq;
    [exact HI|].
  wp_run.
  eapply wp_mono.
  - apply read_until_safe.
    + eapply inbound_inv_view; [|exact HI]. reflexivity.
    + st_simpl. exact Hreq.
  - intros a s' HI'. cbv beta in *. wp_run.
    assert (HI2 : I (ProcessWrapper.set_self
                       (ProcessWrapper.set_reading_chunks false (ProcessWrapper.self s'))
                       s')).
    { eapply inbound_inv_view; [|exact HI']. reflexivity. }
    st_simpl. destruct (ProcessWrapper.got_chunk (ProcessWrapper.self s')).
    + now apply IH.
    + exact HI2.
  - intros s' HI'. exact HI'.
Qed.

Lemma read_chunks_safe (s : ProcessWrapper.State) :
  I s -> wp (ProcessWrapper.read_chunks env) (fun _ => I) I s.
Proof.
  intros HI. unfold ProcessWrapper.read_chunks. wp_run.
  destruct (_ && _); [exact HI|]. wp_run. now apply read_chunks_loop_safe.
Qed.

End Inbound.

(** ** What the outbound handlers leave alone *)

Ltac keeps_head :=
  lazymatch goal with
  | |- keeps _ (bind _ _) => apply keeps_bind
  | |- keeps _ (ret _) => apply keeps_ret
  | |- keeps _ (raise _) => apply keeps_raise
  | |- keeps _ (read _) => apply keeps_read
  | |- keeps _ (when _ _) => apply keeps_when
  | |- keeps _ (assert _ _) => apply keeps_assert
  | |- keeps _ (effect _) => apply keeps_effect; intros; reflexivity
  | |- keeps _ (if ?b then _ else _) => destruct b
  | |- keeps _ (match ?x with _ => _ end) => destruct x
  | |- keeps _ (ProcessWrapper.upd_self _) => unfold ProcessWrapper.upd_self
  | |- keeps _ (ProcessWrapper.upd_process _) => unfold ProcessWrapper.upd_process
  | |- keeps _ (ProcessWrapper.upd_ioloop _) => unfold ProcessWrapper.upd_ioloop
  | |- keeps _ (ProcessWrapper.upd_stream _) => unfold ProcessWrapper.upd_stream
  | |- keeps _ (ProcessWrapper.write _) => unfold ProcessWrapper.write
  | |- keeps _ ProcessWrapper.finish => unfold ProcessWrapper.finish
  | |- keeps _ ProcessWrapper.stdin_close => unfold ProcessWrapper.stdin_close
  | |- keeps _ ProcessWrapper.add_callback => unfold ProcessWrapper.add_callback
  | |- keeps _ ProcessWrapper._get_date => unfold ProcessWrapper._get_date
  | |- keeps _ (ProcessWrapper.add_handler _ _) => unfold ProcessWrapper.add_handler
  | |- keeps _ (ProcessWrapper.remove_handler _) => unfold ProcessWrapper.remove_handler
  | |- keeps _ (ProcessWrapper.update_handler _ _) => unfold ProcessWrapper.update_handler
  | |- keeps _ (ProcessWrapper.file_close _) => unfold ProcessWrapper.file_close
  | |- keeps _ (ProcessWrapper.file_read _) => unfold ProcessWrapper.file_read
  | |- keeps _ (ProcessWrapper.os_read _ _) => unfold ProcessWrapper.os_read
  end.

Ltac keeps_go := repeat (intros; keeps_head).

Lemma keeps_update_handler (f : fd) (interest : Z) :
  keeps inbound (ProcessWrapper.update_handler f interest).
Proof. keeps_go. Qed.

Lemma keeps_graceful_finish : keeps inbound ProcessWrapper._graceful_finish.
Proof. unfold ProcessWrapper._graceful_finish. keeps_go. Qed.

Lemma keeps_drain (fuel : nat) (payload : bytes) :
  keeps inbound (ProcessWrapper.drain fuel payload).
Proof.
  revert payload. induction fuel as [|fuel IH]; intros payload;
    cbn [ProcessWrapper.drain]; [keeps_go|].
  apply keeps_bind; [keeps_go|]. intros [|c r]; [keeps_go|]. apply IH.
Qed.

Lemma keeps_handle_stdout (env : Env) (ev : Z) :
  keeps inbound (ProcessWrapper._handle_stdout_event env ev).
Proof.
  unfold ProcessWrapper._handle_stdout_event.
  repeat (intros; first [apply keeps_graceful_finish | apply keeps_drain | keeps_head]).
Qed.

Lemma keeps_handle_stderr (env : Env) (ev : Z) :
  keeps inbound (ProcessWrapper._handle_stderr_event env ev).
Proof.
  unfold ProcessWrapper._handle_stderr_event.
  repeat (intros; first [apply keeps_graceful_finish | keeps_head]).
Qed.

Lemma keeps_inv (env : Env) (payload : bytes) {A} (m : ProcessWrapper.B A)
  (s : ProcessWrapper.State) :
  keeps inbound m -> inbound_inv env payload s ->
  wp m (fun _ => inbound_inv env payload) (inbound_inv env payload) s.
Proof.
  intros Hk HI. unfold wp. specialize (Hk s).
  destruct (m s) as [[a|e] s']; simpl in Hk;
    eapply inbound_inv_view; eauto.
Qed.

Section InboundRun.
Variables (env : Env) (payload plain : bytes).
Hypothesis Hstream : streaming (inflate env).
Hypothesis Hplain : inflate env payload = Some plain.

Local Abbreviation I := (inbound_inv env payload).

Lemma handle_stdin_safe (ev : Z) (s : ProcessWrapper.State) :
  I s -> wp (ProcessWrapper._handle_stdin_event ev) (fun _ => I) I s.
Proof.
  intros HI. unfold ProcessWrapper._handle_stdin_event.
  destruct (has ev ERROR).
  - apply keeps_inv; [|assumption].
    repeat (intros; first [apply keeps_graceful_finish | keeps_head]).
  - match goal with
    | |- wp (bind _ (fun b => bind _ (fun _ => ?t))) _ _ _ => set (tail := t)
    end.
    assert (Htail : forall s1 : ProcessWrapper.State, I s1 ->
              wp tail (fun _ => I) I s1).
    { intros s1 HI1. apply keeps_inv; [|assumption]. subst tail. keeps_go. }
    wp_run.
    destruct (negb (bytes_eqb _ [])); [|now apply Htail].
    unfold ProcessWrapper.os_write. wp_run.
    destruct (stdin_closed _ || stdin_hup _); [wp_run; assumption|].
    wp_run. apply Htail.
    destruct HI as (fed & Hz & Hfed & Hrest).
    exists fed. unfold unread in *. st_simpl.
    split; [assumption|]. split; [|assumption].
    now rewrite <- app_assoc, firstn_skipn.
Qed.

Lemma run_logged_safe (m : ProcessWrapper.B unit) (s : ProcessWrapper.State) :
  wp m (fun _ => I) I s -> I (Run.run_logged m s).
Proof.
  unfold wp, Run.run_logged. destruct (m s) as [[a|e] s']; [auto|].
  intros HI. eapply inbound_inv_view; [|exact HI]. reflexivity.
Qed.

Lemma stream_read_safe (n : nat) (s : ProcessWrapper.State) :
  I s -> I (Run.stream_read env n s).
Proof.
  intros HI. unfold Run.stream_read.
  destruct (reading (ProcessWrapper.httpstream s)) as [r|] eqn:Hread; [|assumption].
  destruct (firstn n (socket (ProcessWrapper.httpstream s))) as [|c chunk] eqn:Hchunk;
    [assumption|].
  rewrite <- Hchunk. clear c chunk Hchunk.
  set (st := ProcessWrapper.httpstream s).
  set (b := read_buffer st ++ firstn n (socket st)).
  set (s1 := ProcessWrapper.set_httpstream
               (ProcessWrapper.set_read_buffer b
                  (ProcessWrapper.set_socket (skipn n (socket st)) st)) s).
  assert (Hun : unread s1 = unread s).
  { unfold unread. subst s1 b st. st_simpl. now rewrite <- app_assoc, firstn_skipn. }
  destruct HI as (fed & Hz & Hfed & Hrest).
  destruct (ProcessWrapper.got_request (ProcessWrapper.self s)) eqn:Hreq.
  { destruct Hrest as [_ Hnone]. congruence. }
  rewrite Hread in Hrest.
  assert (HI1 : I s1).
  { exists fed. rewrite Hun. subst s1 b st. st_simpl. rewrite Hreq, Hread. auto. }
  destruct r as [|k].
  - (* a chunk-size line is awaited *)
    destruct (ProcessWrapper.find CRLF b) as [loc|] eqn:Hfind; [|assumption].
    apply run_logged_safe. do 3 wp_head.
    destruct Hrest as (rp & Hrp & Hsplit & Hmagic).
    apply chunk_length_safe with (plain := plain) (rp := rp) (fed := fed);
      try assumption; try reflexivity; try (subst s1 b st; st_simpl; assumption).
    + change (Dechunk (unread s1) rp). now rewrite Hun.
    + intros Hseen. change (fed = [] /\ magic_first (unread s1)). rewrite Hun.
      now apply Hmagic.
  - (* the data of a chunk is awaited *)
    destruct (Z.leb_spec k (Z.of_nat (length b))) as [Hin|Hout]; [|assumption].
    apply run_logged_safe. do 3 wp_head.
    destruct Hrest as (m & rp & -> & Hm & Hlen & Hcrlf & Hrp & Hsplit & Hmagic).
    apply chunk_data_safe with (plain := plain) (rp := rp) (fed := fed);
      try assumption; try reflexivity; try (subst s1 b st; st_simpl; assumption).
    + subst s1 b st. st_simpl. lia.
    + change (firstn 2 (skipn m (unread s1)) = CRLF). now rewrite Hun.
    + change (Dechunk (skipn (m + 2) (unread s1)) rp). now rewrite Hun.
    + change (fed ++ firstn m (unread s1) ++ rp = payload). now rewrite Hun.
    + intros Hseen.
      change (fed = [] /\ firstn 2 (unread s1) = ProcessWrapper.gzip_magic).
      rewrite Hun. now apply Hmagic.
Qed.

Lemma run_callback_safe (s : ProcessWrapper.State) :
  I s -> I (Run.run_callback env s).
Proof.
  intros HI. unfold Run.run_callback.
  destruct (callbacks (ProcessWrapper.ioloop s)); [assumption|].
  apply run_logged_safe. apply read_chunks_safe with (plain := plain); assumption.
Qed.

Lemma dispatch_safe (f : fd) (room : nat) (s : ProcessWrapper.State) :
  I s -> I (Run.dispatch env f room s).
Proof.
  intros HI. unfold Run.dispatch.
  destruct (ProcessWrapper.lookup_fd f (events _)) as [ev|]; [|assumption].
  match goal with
  | |- I (match ?o with Some _ => Run.run_logged _ ?s1 | None => _ end) =>
      assert (HI1 : I s1) by (eapply inbound_inv_view; [|exact HI]; reflexivity);
      destruct o; [|exact HI1]
  end.
  apply run_logged_safe. destruct f; cbn [Run.handler].
  - now apply handle_stdin_safe.
  - apply keeps_inv; [apply keeps_handle_stdout|assumption].
  - apply keeps_inv; [apply keeps_handle_stderr|assumption].
Qed.

Lemma step_safe (a : action) (s : ProcessWrapper.State) :
  I s -> I (Run.step env s a).
Proof.
  intros HI. destruct a as [f n|f|w|f room|n|]; cbn [Run.step].
  - eapply inbound_inv_view; [|exact HI]. unfold inbound. st_simpl.
    destruct f; cbn [Run.child_write]; [reflexivity| |];
      destruct (hup _); reflexivity.
  - eapply inbound_inv_view; [|exact HI]. unfold inbound. st_simpl.
    destruct f; cbn [Run.child_close]; [reflexivity| |];
      st_simpl; destruct (todo _); reflexivity.
  - unfold Run.poll. destruct (events _); [|assumption].
    eapply inbound_inv_view; [|exact HI]. reflexivity.
  - now apply dispatch_safe.
  - now apply stream_read_safe.
  - now apply run_callback_safe.
Qed.

Lemma run_safe (trace : list action) (s : ProcessWrapper.State) :
  I s -> I (Run.run env trace s).
Proof.
  revert s. induction trace as [|a trace IH]; intros s HI; [assumption|].
  apply IH. now apply step_safe.
Qed.

End InboundRun.

(** ** A chunked, gzipped request from construction on *)

Lemma init_chunked_gzip (env : Env) (spawn : Spawn) (child : Child)
  (c : Connection) (buffered on_socket : bytes) :
  chunked_gzip_request (request env) ->
  child_exited child = false ->
  ProcessWrapper.__init__ env child
    (ProcessWrapper.blank spawn child c buffered on_socket)
  = ProcessWrapper.read_chunks env (armed spawn child c buffered on_socket).
Proof.
  intros (Hm & He & Ht & Hg) Hc. unfold ProcessWrapper.__init__.
  unfold request_headers. rewrite Hc, Hm, He, Ht, Hg. reflexivity.
Qed.

Lemma armed_inv (env : Env) (spawn : Spawn) (child : Child) (c : Connection)
  (buffered on_socket payload : bytes) :
  streaming (inflate env) ->
  Dechunk (buffered ++ on_socket) payload ->
  magic_first (buffered ++ on_socket) ->
  inbound_inv env payload (armed spawn child c buffered on_socket).
Proof.
  intros [Hnil _] Hbody Hmagic. exists []. unfold unread. cbn.
  repeat split; auto. exists payload. auto.
Qed.

Lemma start_inv (env : Env) (spawn : Spawn) (child : Child) (c : Connection)
  (buffered on_socket payload plain : bytes) (s0 : ProcessWrapper.State) :
  chunked_gzip_request (request env) ->
  streaming (inflate env) ->
  inflate env payload = Some plain ->
  Dechunk (buffered ++ on_socket) payload ->
  magic_first (buffered ++ on_socket) ->
  Run.start env spawn child c buffered on_socket = Ok s0 ->
  inbound_inv env payload s0.
Proof.
  intros Hreq Hstream Hplain Hbody Hmagic. unfold Run.start.
  destruct (child_exited child) eqn:Hc.
  { unfold ProcessWrapper.__init__. rewrite Hc. discriminate. }
  rewrite (init_chunked_gzip env spawn child c buffered on_socket Hreq Hc).
  pose proof (read_chunks_safe env payload plain Hstream Hplain
                (armed spawn child c buffered on_socket)
                (armed_inv env spawn child c buffered on_socket payload
                   Hstream Hbody Hmagic)) as Hwp.
  unfold wp in Hwp.
  destruct (ProcessWrapper.read_chunks env _) as [[a|e] s']; [|discriminate].
  now intros [= <-].
Qed.

(** Once the request is complete and the buffer empty, stdin has
    received the decompressed payload, whatever happened on the way. *)
Lemma inbound_inv_complete (env : Env) (payload plain : bytes)
  (s : ProcessWrapper.State) :
  inflate env payload = Some plain ->
  inbound_inv env payload s ->
  ProcessWrapper.got_request (ProcessWrapper.self s) = true ->
  ProcessWrapper.process_input_buffer (ProcessWrapper.self s) = [] ->
  stdin_received (ProcessWrapper.process s) = plain.
Proof.
  intros Hplain (fed & _ & Hfed & Hrest) Hreq Hbuf.
  rewrite Hreq in Hrest. destruct Hrest as [-> _].
  rewrite Hbuf, app_nil_r, Hplain in Hfed. now injection Hfed.
Qed.

(** ** A request that is buffered whole is read in one go *)

Lemma wp_conj {S A} (m : ST S A) (Q1 Q2 : A -> S -> Prop) (E1 E2 : S -> Prop) s :
  wp m Q1 E1 s -> wp m Q2 E2 s ->
  wp m (fun a s' => Q1 a s' /\ Q2 a s') (fun s' => E1 s' /\ E2 s') s.
Proof. unfold wp. destruct (m s) as [[a|e] s']; auto. Qed.

Lemma update_stdin_settled (p0 : Process) (s : ProcessWrapper.State)
  (Q : unit -> ProcessWrapper.State -> Prop) (E : ProcessWrapper.State -> Prop) :
  settled p0 s -> stdin_closed p0 = false ->
  Q tt (ProcessWrapper.set_ioloop
          (ProcessWrapper.set_handlers registered (ProcessWrapper.ioloop s)) s) ->
  wp (ProcessWrapper.update_handler Stdin (Z.lor WRITE ERROR)) Q E s.
Proof.
  intros (Hp & Hh & _) Hopen HQ.
  unfold ProcessWrapper.update_handler. wp_run. rewrite Hh.
  cbn [registered ProcessWrapper.lookup_fd fd_eqb].
  st_simpl. rewrite Hp, Hopen. wp_run. rewrite Hh. exact HQ.
Qed.

Section InboundLive.
Variables (env : Env) (payload plain : bytes) (p0 : Process).
Hypothesis Hstream : streaming (inflate env).
Hypothesis Hplain : inflate env payload = Some plain.
Hypothesis Hopen : stdin_closed p0 = false.

Local Abbreviation I := (inbound_inv env payload).

Lemma read_until_live (s : ProcessWrapper.State) :
  I s -> settled p0 s ->
  ProcessWrapper.got_request (ProcessWrapper.self s) = false ->
  wp (ProcessWrapper.read_until env) (fun _ => advanced p0 s) (fun _ => False) s.
Proof.
  intros (fed & Hz & Hfed & Hrest) Hset Hreq.
  pose proof Hset as (Hp & Hh & Hev & Hsock & Hread).
  rewrite Hreq, Hread in Hrest. destruct Hrest as (rp & Hrp & Hsplit & Hmagic).
  set (b := read_buffer (ProcessWrapper.httpstream s)) in *.
  assert (Hun : unread s = b).
  { unfold unread. fold b. now rewrite Hsock, app_nil_r. }
  rewrite Hun in *.
  assert (Hline : exists loc len,
             ProcessWrapper.find CRLF b = Some loc
             /\ Py.int16 (Py.strip (hd [] (Py.split ";" (firstn loc b)))) = Some len
             /\ chunk_size b = Some (len, skipn (loc + 2) b)).
  { assert (Hsome : exists len rest, chunk_size b = Some (len, rest))
      by (inversion Hrp; eauto).
    destruct Hsome as (len & rest & Hs). pose proof Hs as Hs'.
    unfold chunk_size in Hs.
    destruct (ProcessWrapper.find CRLF b) as [loc|] eqn:Hfind; [|discriminate].
    destruct (Py.int16 _) as [len'|] eqn:Hint; [|discriminate].
    injection Hs as <- <-. exists loc, len'. auto. }
  destruct Hline as (loc & len & Hfind & Hint & Hsize).
  pose proof (find_bound _ _ _ Hfind) as Hb. simpl in Hb.
  assert (Hcr : firstn 2 (skipn loc b) = CRLF).
  { apply (startswith_firstn _ CRLF). now apply find_startswith. }
  assert (Hadv : forall s' : ProcessWrapper.State,
            settled p0 s' ->
            (ProcessWrapper.got_request (ProcessWrapper.self s') = true
             /\ ProcessWrapper.got_chunk (ProcessWrapper.self s')
                = ProcessWrapper.got_chunk (ProcessWrapper.self s))
            \/ (ProcessWrapper.got_request (ProcessWrapper.self s') = false
                /\ ProcessWrapper.got_chunk (ProcessWrapper.self s') = true
                /\ length (read_buffer (ProcessWrapper.httpstream s')) < length b) ->
            advanced p0 s s').
  { intros s' H1 H2. split; assumption. }
  unfold ProcessWrapper.read_until. wp_run. rewrite Hread. cbv iota. wp_run.
  fold b. rewrite Hfind.
  unfold ProcessWrapper._chunk_length. wp_run. fold b.
  rewrite slice_to_nat, slice_from_nat.
  rewrite (last_n_firstn 2 loc b Hb), Hcr, bytes_eqb_refl.
  rewrite (drop_last_firstn 2 loc b Hb), Hint.
  inversion Hrp as [s0 rest Hs0 Es0 Erp|s0 rest p n Hs0 Hn Hlen Hcrlf Hp' Es0 Erp];
    subst s0 rp; rewrite Hsize in Hs0; injection Hs0 as -> <-.
  - (* the last chunk *)
    cbn [Z.eqb negb]. wp_run.
    apply update_stdin_settled with (p0 := p0); [|assumption|].
    + unfold settled. st_simpl. auto.
    + apply Hadv; [unfold settled; st_simpl; auto|]. left. st_simpl. auto.
  - (* a chunk: its data is in the buffer already *)
    replace (negb (Z.of_nat n =? 0)%Z) with true
      by (symmetry; apply negb_true_iff, Z.eqb_neq; lia).
    unfold ProcessWrapper.read_bytes. wp_run. st_simpl. rewrite Hread.
    cbv iota. wp_run. st_simpl.
    set (b1 := skipn (loc + 2) b) in *.
    replace (Z.of_nat n + 2 <=? Z.of_nat (length b1))%Z with true
      by (symmetry; apply Z.leb_le; lia).
    replace (Z.of_nat n + 2)%Z with (Z.of_nat (n + 2)) by lia.
    unfold ProcessWrapper._chunk_data. wp_run. st_simpl.
    rewrite slice_to_nat, slice_from_nat.
    rewrite (last_n_firstn 2 n b1 Hlen), Hcrlf, bytes_eqb_refl.
    wp_run. st_simpl. rewrite Hz. wp_run. st_simpl.
    destruct (inflate_step env payload plain Hstream Hplain fed (firstn n b1) p _
                Hsplit Hfed) as [more Hmore].
    assert (Hshort : length (skipn (n + 2) b1) < length b).
    { subst b1. rewrite !length_skipn. lia. }
    assert (Hgo : forall s1 : ProcessWrapper.State,
      settled p0 s1 ->
      ProcessWrapper.gzip_decompressor (ProcessWrapper.self s1) = Some fed ->
      ProcessWrapper.got_request (ProcessWrapper.self s1) = false ->
      read_buffer (ProcessWrapper.httpstream s1) = skipn (n + 2) b1 ->
      wp (ProcessWrapper.decompress env (Py.drop_last 2 (firstn (n + 2) b1)))
        (fun out s' =>
           wp (ProcessWrapper.upd_self
                 (fun r => ProcessWrapper.set_process_input_buffer
                             (ProcessWrapper.process_input_buffer r ++ out) r))
             (fun _ s'0 =>
                wp (ProcessWrapper.upd_self (ProcessWrapper.set_got_chunk true) ;;;
                    b0 <- read (fun s2 => ProcessWrapper.process_input_buffer
                                            (ProcessWrapper.self s2)) ;;
                    when (negb (bytes_eqb b0 []))
                      (ProcessWrapper.update_handler Stdin (Z.lor WRITE ERROR)) ;;;
                    ProcessWrapper.add_callback)
                  (fun _ => advanced p0 s) (fun _ => False) s'0)
             (fun _ => False) s')
        (fun _ => False) s1).
    { intros s1 Hset1 Hz1 Hreq1 Hbuf1.
      pose proof Hset1 as (Hp1 & Hh1 & Hev1 & Hsock1 & Hread1).
      unfold ProcessWrapper.decompress. wp_run. rewrite Hz1.
      rewrite (drop_last_firstn 2 n b1 Hlen), Hfed, Hmore.
      wp_run. st_simpl.
      assert (Hdone : forall s2 : ProcessWrapper.State,
                settled p0 s2 ->
                ProcessWrapper.got_request (ProcessWrapper.self s2) = false ->
                ProcessWrapper.got_chunk (ProcessWrapper.self s2) = true ->
                read_buffer (ProcessWrapper.httpstream s2) = skipn (n + 2) b1 ->
                wp ProcessWrapper.add_callback
                  (fun _ => advanced p0 s) (fun _ => False) s2).
      { intros s2 (Hp2 & Hh2 & Hev2 & Hsock2 & Hread2) Hreq2 Hgot2 Hbuf2.
        wp_run. apply Hadv; st_simpl; [unfold settled; st_simpl; auto|].
        right. rewrite Hbuf2. auto. }
      destruct (negb (bytes_eqb _ [])).
      - apply update_stdin_settled with (p0 := p0); [|assumption|].
        + unfold settled. st_simpl. auto.
        + apply Hdone; st_simpl; auto; unfold settled; st_simpl; auto.
      - wp_run. apply Hdone; st_simpl; auto; unfold settled; st_simpl; auto. }
    destruct (ProcessWrapper.gzip_header_seen (ProcessWrapper.self s)) eqn:Hseen;
      cbn [negb].
    + wp_head. apply Hgo; st_simpl; auto; unfold settled; st_simpl; auto.
    + destruct (Hmagic eq_refl) as [-> Hm].
      assert (Hm2 : firstn 2 (firstn (n + 2) b1) = ProcessWrapper.gzip_magic).
      { rewrite firstn_firstn, Nat.min_l by lia. apply (Hm _ _ Hsize). lia. }
      wp_run. rewrite Hm2, bytes_eqb_refl. wp_run.
      apply Hgo; st_simpl; auto; unfold settled; st_simpl; auto.
Qed.

Lemma read_chunks_loop_live (fuel : nat) (s : ProcessWrapper.State) :
  I s -> settled p0 s ->
  length (read_buffer (ProcessWrapper.httpstream s)) < fuel ->
  wp (ProcessWrapper.read_chunks_loop env fuel)
    (fun _ s' =>
       I s' /\ settled p0 s'
       /\ ProcessWrapper.got_request (ProcessWrapper.self s') = true)
    (fun _ => False) s.
Proof.
  revert s. induction fuel as [|fuel IH]; intros s HI Hset Hlen; [lia|].
  cbn [ProcessWrapper.read_chunks_loop]. wp_run.
  destruct (ProcessWrapper.got_request (ProcessWrapper.self s)) eqn:Hreq;
    [wp_run; split; [exact HI|split; [exact Hset|exact Hreq]]|].
  wp_run.
  match goal with |- wp _ _ _ ?st => set (sa := st) end.
  assert (HIa : I sa) by (eapply inbound_inv_view; [|exact HI]; reflexivity).
  assert (Hseta : settled p0 sa) by exact Hset.
  assert (Hreqa : ProcessWrapper.got_request (ProcessWrapper.self sa) = false)
    by exact Hreq.
  eapply wp_mono.
  - apply wp_conj.
    + apply (read_until_safe env payload plain Hstream Hplain sa HIa Hreqa).
    + apply (read_until_live sa HIa Hseta Hreqa).
  - intros a s' [HI' [Hset' Hcase]]. cbv beta. wp_run.
    match goal with
    | |- context [ProcessWrapper.set_self ?t s'] =>
        set (sb := ProcessWrapper.set_self t s')
    end.
    assert (HIb : I sb) by (eapply inbound_inv_view; [|exact HI']; reflexivity).
    assert (Hsetb : settled p0 sb) by exact Hset'.
    change (ProcessWrapper.got_chunk (ProcessWrapper.self sb))
      with (ProcessWrapper.got_chunk (ProcessWrapper.self s')).
    destruct Hcase as [[Hr Hg] | (Hr & Hg & Hshort)]; rewrite Hg.
    + wp_run. split; [exact HIb|split; [exact Hsetb|exact Hr]].
    + apply IH; try assumption.
      change (read_buffer (ProcessWrapper.httpstream sb))
        with (read_buffer (ProcessWrapper.httpstream s')).
      change (read_buffer (ProcessWrapper.httpstream sa))
        with (read_buffer (ProcessWrapper.httpstream s)) in Hshort.
      lia.
  - intros s' [_ []].
Qed.

Lemma read_chunks_live (s : ProcessWrapper.State) :
  I s -> settled p0 s ->
  ProcessWrapper.reading_chunks (ProcessWrapper.self s) = false ->
  wp (ProcessWrapper.read_chunks env)
    (fun _ s' =>
       I s' /\ settled p0 s'
       /\ ProcessWrapper.got_request (ProcessWrapper.self s') = true)
    (fun _ => False) s.
Proof.
  intros HI Hset Hflag. unfold ProcessWrapper.read_chunks. wp_run.
  rewrite Hflag. cbn [andb]. wp_run. apply read_chunks_loop_live; auto.
Qed.

(** With the child's pipes quiet and its stdin open, a poll reports
    stdin writable and nothing else. *)
Lemma poll_settled (s : ProcessWrapper.State) :
  settled p0 s ->
  stdin_hup p0 = false ->
  closed (stdout p0) = false -> buf (stdout p0) = [] -> hup (stdout p0) = false ->
  closed (stderr p0) = false -> buf (stderr p0) = [] -> hup (stderr p0) = false ->
  Run.poll true s
  = ProcessWrapper.set_ioloop
      (ProcessWrapper.set_events [(Stdin, WRITE)] (ProcessWrapper.ioloop s)) s.
Proof.
  intros (Hp & Hh & Hev & Hsock & Hread) Hhup Hoc Hob Hoh Hec Heb Heh.
  unfold Run.poll. rewrite Hev, Hh. unfold registered. cbn [map fst snd].
  unfold Run.ready, Run.pipe_ready.
  rewrite Hp, Hopen, Hhup, Hoc, Hob, Hoh, Hec, Heb, Heh. reflexivity.
Qed.

(** With the request complete, the first writable event on stdin with
    room for the whole buffer writes it and closes stdin. *)
Lemma flush_closes_stdin (s : ProcessWrapper.State) :
  I s -> settled p0 s ->
  stdin_hup p0 = false -> stdin_received p0 = [] ->
  closed (stdout p0) = false -> buf (stdout p0) = [] -> hup (stdout p0) = false ->
  closed (stderr p0) = false -> buf (stderr p0) = [] -> hup (stderr p0) = false ->
  ProcessWrapper.got_request (ProcessWrapper.self s) = true ->
  let s' := Run.run env [Poll true; Dispatch Stdin (length plain)] s in
  stdin_closed (ProcessWrapper.process s') = true
  /\ ProcessWrapper.got_request (ProcessWrapper.self s') = true
  /\ ProcessWrapper.process_input_buffer (ProcessWrapper.self s') = []
  /\ stdin_received (ProcessWrapper.process s') = plain.
Proof.
  intros HI Hset Hhup Hrecv Hoc Hob Hoh Hec Heb Heh Hreq.
  pose proof Hset as (Hp & Hh & Hev & Hsock & Hread).
  assert (Hbuf : ProcessWrapper.process_input_buffer (ProcessWrapper.self s) = plain).
  { destruct HI as (fed & _ & Hfed & Hrest). rewrite Hreq in Hrest.
    destruct Hrest as [-> _]. rewrite Hp, Hrecv, Hplain in Hfed. now injection Hfed. }
  cbn [Run.run fold_left Run.step].
  rewrite (poll_settled s Hset Hhup Hoc Hob Hoh Hec Heb Heh).
  unfold Run.dispatch. st_simpl.
  change (ProcessWrapper.lookup_fd Stdin [(Stdin, WRITE)]) with (Some WRITE).
  cbv iota beta zeta. st_simpl. rewrite Hh.
  change (ProcessWrapper.lookup_fd Stdin registered)
    with (Some (Z.lor WRITE ERROR)).
  cbv iota beta. cbn [Run.handler].
  unfold Run.run_logged, ProcessWrapper._handle_stdin_event.
  replace (has WRITE ERROR) with false by reflexivity.
  match goal with
  | |- context [bind ?m ?k ?s0] =>
      assert (Hwp : wp (bind m k)
                (fun _ s' =>
                   stdin_closed (ProcessWrapper.process s') = true
                   /\ ProcessWrapper.got_request (ProcessWrapper.self s') = true
                   /\ ProcessWrapper.process_input_buffer (ProcessWrapper.self s') = []
                   /\ stdin_received (ProcessWrapper.process s') = plain)
                (fun _ => False) s0)
  end.
  { wp_run. st_simpl. rewrite Hbuf.
    destruct (bytes_eqb plain []) eqn:Hnil; cbn [negb].
    - apply bytes_eqb_eq in Hnil. wp_run. st_simpl. rewrite Hbuf, Hnil, Hreq.
      cbn [bytes_eqb]. rewrite bytes_eqb_refl. wp_run. st_simpl.
      rewrite Hp, Hrecv. repeat split; congruence.
    - unfold ProcessWrapper.os_write. wp_run. st_simpl.
      rewrite Hp, Hopen, Hhup. cbn [orb]. wp_run. st_simpl.
      rewrite Nat.min_id, skipn_all, firstn_all, Hrecv, bytes_eqb_refl, Hreq.
      wp_run. st_simpl. auto. }
  unfold wp in Hwp.
  match type of Hwp with
  | match ?x with _ => _ end => destruct x as [[a|e] s']
  end; [exact Hwp|contradiction].
Qed.

End InboundLive.

(** ** The chunked, gzipped request body reaches the child's stdin *)

(** What stdin has received is at every moment a prefix of the
    decompressed payload. *)
Lemma inbound_inv_prefix (env : Env) (payload plain : bytes)
  (s : ProcessWrapper.State) :
  streaming (inflate env) ->
  inflate env payload = Some plain ->
  inbound_inv env payload s ->
  exists rest, plain = stdin_received (ProcessWrapper.process s) ++ rest.
Proof.
  intros [_ Hs] Hplain (fed & _ & Hfed & Hrest).
  assert (Hpre : exists x, payload = fed ++ x).
  { destruct (ProcessWrapper.got_request (ProcessWrapper.self s)).
    - destruct Hrest as [-> _]. exists []. now rewrite app_nil_r.
    - destruct (reading (ProcessWrapper.httpstream s)) as [[|k]|].
      + destruct Hrest as (rp & _ & <- & _). eauto.
      + destruct Hrest as (n & rp & _ & _ & _ & _ & _ & <- & _). eauto.
      + destruct Hrest as (rp & _ & <- & _). eauto. }
  destruct Hpre as [x ->].
  destruct (Hs _ _ _ Hplain) as (o1 & o2 & Ho1 & ->).
  rewrite Hfed in Ho1. injection Ho1 as <-.
  rewrite <- app_assoc. eauto.
Qed.

(** A body that is buffered whole when the bridge is constructed is read
    to its end by the constructor. *)
Lemma start_buffered (env : Env) (spawn : Spawn) (child : Child)
  (c : Connection) (body payload plain : bytes) :
  chunked_gzip_request (request env) ->
  child_exited child = false ->
  streaming (inflate env) ->
  inflate env payload = Some plain ->
  Dechunk body payload ->
  magic_first body ->
  exists s0 : ProcessWrapper.State,
    Run.start env spawn child c body [] = Ok s0
    /\ inbound_inv env payload s0
    /\ settled (ProcessWrapper.process (ProcessWrapper.blank spawn child c body [])) s0
    /\ ProcessWrapper.got_request (ProcessWrapper.self s0) = true.
Proof.
  intros Hreq Hc Hstream Hplain Hbody Hmagic. unfold Run.start.
  rewrite (init_chunked_gzip env spawn child c body [] Hreq Hc).
  assert (HI : inbound_inv env payload (armed spawn child c body [])).
  { apply armed_inv; rewrite ?app_nil_r; assumption. }
  assert (Hset : settled (ProcessWrapper.process
                            (ProcessWrapper.blank spawn child c body []))
                   (armed spawn child c body []))
    by (repeat split).
  pose proof (read_chunks_live env payload plain
                (ProcessWrapper.process (ProcessWrapper.blank spawn child c body []))
                Hstream Hplain eq_refl
                (armed spawn child c body []) HI Hset eq_refl) as Hwp.
  unfold wp in Hwp.
  destruct (ProcessWrapper.read_chunks env _) as [[a|e] s']; [|contradiction].
  exists s'. split; [reflexivity|exact Hwp].
Qed.

(** C2 (amended).  For a POST request with [Expect: 100-continue],
    [Transfer-Encoding: chunked] and [Content-Encoding: gzip] whose body
    is a well-formed chunked encoding -- each chunk-size line parsed as
    the hexadecimal length in its first [;]-separated field, followed by
    that many bytes and a CRLF, a zero length ending the body -- of a
    stream the decompressor accepts, and whose first chunk starts with
    the two gzip magic bytes:
    - however the body is split between the stream's buffer and the
      socket, and whatever the child and the loop do, the bytes written
      to the child's stdin are at every moment a prefix of
      [gunzip(dechunk(body))], and are equal to it once the zero-length
      chunk has been read and the input buffer is empty;
    - if the whole body is buffered when the bridge is constructed, the
      constructor reads the request to its end, and the first writable
      event on stdin with room for the data writes all of it and closes
      stdin, which has then received exactly [gunzip(dechunk(body))]. *)
Theorem chunked_gzip_body_reaches_stdin (env : Env) (spawn : Spawn)
  (child : Child) (c : Connection) (body payload plain : bytes) :
  chunked_gzip_request (request env) ->
  child_exited child = false ->
  streaming (inflate env) ->
  dechunk body = Some payload ->
  inflate env payload = Some plain ->
  magic_firstb body = true ->
  (forall (buffered on_socket : bytes) (trace : list action)
          (s0 : ProcessWrapper.State),
      buffered ++ on_socket = body ->
      Run.start env spawn child c buffered on_socket = Ok s0 ->
      let s := Run.run env trace s0 in
      (exists rest, plain = stdin_received (ProcessWrapper.process s) ++ rest)
      /\ (ProcessWrapper.got_request (ProcessWrapper.self s) = true ->
          ProcessWrapper.process_input_buffer (ProcessWrapper.self s) = [] ->
          stdin_received (ProcessWrapper.process s) = plain))
  /\ exists s0 : ProcessWrapper.State,
       Run.start env spawn child c body [] = Ok s0
       /\ ProcessWrapper.got_request (ProcessWrapper.self s0) = true
       /\ let s := Run.run env [Poll true; Dispatch Stdin (length plain)] s0 in
          stdin_closed (ProcessWrapper.process s) = true
          /\ ProcessWrapper.got_request (ProcessWrapper.self s) = true
          /\ ProcessWrapper.process_input_buffer (ProcessWrapper.self s) = []
          /\ stdin_received (ProcessWrapper.process s) = plain.
Proof.
  intros Hreq Hc Hstream Hbody Hplain Hmagic.
  apply dechunk_sound in Hbody. apply magic_firstb_sound in Hmagic. split.
  - intros buffered on_socket trace s0 <- Hstart s.
    assert (HI : inbound_inv env payload s).
    { apply (run_safe env payload plain Hstream Hplain).
      exact (start_inv env spawn child c buffered on_socket payload plain s0
               Hreq Hstream Hplain Hbody Hmagic Hstart). }
    split.
    + exact (inbound_inv_prefix env payload plain s Hstream Hplain HI).
    + exact (inbound_inv_complete env payload plain s Hplain HI).
  - destruct (start_buffered env spawn child c body payload plain
                Hreq Hc Hstream Hplain Hbody Hmagic)
      as (s0 & Hstart & HI & Hset & Hgot).
    exists s0. split; [exact Hstart|]. split; [exact Hgot|].
    exact (flush_closes_stdin env payload plain
             (ProcessWrapper.process (ProcessWrapper.blank spawn child c body []))
             Hplain eq_refl s0
             HI Hset eq_refl eq_refl eq_refl eq_refl eq_refl eq_refl eq_refl
             eq_refl Hgot).
Qed.

Lemma stored_streaming : streaming SampleBridge.stored.
Proof.
  split; [reflexivity|]. intros a b o H.
  destruct a as [|x [|y r]].
  - exists [], o. auto.
  - destruct b as [|y r].
    + exists o, []. now rewrite app_nil_r.
    + cbn [app SampleBridge.stored] in H.
      destruct (bytes_eqb [x; y] ProcessWrapper.gzip_magic) eqn:E; [|discriminate].
      injection H as <-. apply bytes_eqb_eq in E. injection E as -> ->.
      exists [], r. auto.
  - cbn [app SampleBridge.stored] in H |- *.
    destruct (bytes_eqb [x; y] ProcessWrapper.gzip_magic); [|discriminate].
    injection H as <-. eauto.
Qed.

Lemma chunked_gzip_body_reaches_stdin_witness :
  (forall (buffered on_socket : bytes) (trace : list action)
          (s0 : ProcessWrapper.State),
      buffered ++ on_socket = SampleBridge.body_two_chunks ->
      Run.start SampleBridge.upload_env SampleBridge.upload
        (SampleBridge.child "" "") fresh_connection buffered on_socket = Ok s0 ->
      let s := Run.run SampleBridge.upload_env trace s0 in
      (exists rest, str "abcdef" = stdin_received (ProcessWrapper.process s) ++ rest)
      /\ (ProcessWrapper.got_request (ProcessWrapper.self s) = true ->
          ProcessWrapper.process_input_buffer (ProcessWrapper.self s) = [] ->
          stdin_received (ProcessWrapper.process s) = str "abcdef"))
  /\ exists s0 : ProcessWrapper.State,
       Run.start SampleBridge.upload_env SampleBridge.upload
         (SampleBridge.child "" "") fresh_connection SampleBridge.body_two_chunks []
       = Ok s0
       /\ ProcessWrapper.got_request (ProcessWrapper.self s0) = true
       /\ let s := Run.run SampleBridge.upload_env
                     [Poll true; Dispatch Stdin 6] s0 in
          stdin_closed (ProcessWrapper.process s) = true
          /\ ProcessWrapper.got_request (ProcessWrapper.self s) = true
          /\ ProcessWrapper.process_input_buffer (ProcessWrapper.self s) = []
          /\ stdin_received (ProcessWrapper.process s) = str "abcdef".
Proof.
  apply (chunked_gzip_body_reaches_stdin SampleBridge.upload_env
           SampleBridge.upload (SampleBridge.child "" "") fresh_connection
           SampleBridge.body_two_chunks
           (ProcessWrapper.gzip_magic ++ str "abcdef") (str "abcdef")).
  - repeat split; reflexivity.
  - reflexivity.
  - exact stored_streaming.
  - vm_compute. reflexivity.
  - reflexivity.
  - vm_compute. reflexivity.
Defined.

(** ** What holds of the outbound path *)

(** Completion waits until both outputs of the child are closed. *)
Lemma graceful_finish_waits (s : ProcessWrapper.State) :
  closed (stdout (ProcessWrapper.process s)) = false
  \/ closed (stderr (ProcessWrapper.process s)) = false ->
  ProcessWrapper._graceful_finish s = (Ok tt, s).
Proof.
  intros H. unfold ProcessWrapper._graceful_finish, bind, read.
  destruct H as [-> | ->]; cbn [negb orb]; [reflexivity|].
  now rewrite orb_true_r.
Qed.

(** Once they are, and the response is a chunked one, it closes stdin,
    writes the last chunk and finishes the request. *)
Lemma graceful_finish_chunked (s : ProcessWrapper.State) :
  closed (stdout (ProcessWrapper.process s)) = true ->
  closed (stderr (ProcessWrapper.process s)) = true ->
  ProcessWrapper.headers_sent (ProcessWrapper.self s) = true ->
  ProcessWrapper.sent_chunks (ProcessWrapper.self s) = true ->
  wp ProcessWrapper._graceful_finish
    (fun _ s' =>
       stdin_closed (ProcessWrapper.process s') = true
       /\ written (ProcessWrapper.connection s')
          = written (ProcessWrapper.connection s) ++ str "0" ++ CRLF ++ CRLF
       /\ finish_calls (ProcessWrapper.connection s')
          = S (finish_calls (ProcessWrapper.connection s)))
    (fun _ => False) s.
Proof.
  intros Ho He Hsent Hchunked. unfold ProcessWrapper._graceful_finish.
  wp_run. rewrite Ho, He. cbn [negb orb].
  destruct (stdin_closed (ProcessWrapper.process s)) eqn:Hin; cbn [negb];
    wp_run; st_simpl; rewrite Hsent, Hchunked; cbn [negb]; wp_run; st_simpl;
    unfold request_write, request_finish; cbn [written finish_calls];
    rewrite <- ?app_assoc; auto.
Qed.

(** Output of the child on stderr before any header has been sent is
    answered by a 500 response that carries it, with its length. *)
Lemma stderr_before_headers_answers_500 (env : Env) (ev : Z)
  (s : ProcessWrapper.State) :
  has ev READ = true -> has ev ERROR = false ->
  ProcessWrapper.headers_sent (ProcessWrapper.self s) = false ->
  closed (stderr (ProcessWrapper.process s)) = false ->
  let payload := buf (stderr (ProcessWrapper.process s))
                 ++ todo (stderr (ProcessWrapper.process s)) in
  wp (ProcessWrapper._handle_stderr_event env ev)
    (fun _ s' =>
       ProcessWrapper.headers_sent (ProcessWrapper.self s') = true
       /\ written (ProcessWrapper.connection s')
          = written (ProcessWrapper.connection s)
            ++ (str "HTTP/1.1 500 Internal Server Error" ++ CRLF
                ++ str "Date: " ++ date_header env ++ CRLF
                ++ str "Content-Length: " ++ Py.str_of_nat (length payload)
                ++ CRLF ++ CRLF)
            ++ payload
       /\ buf (stderr (ProcessWrapper.process s')) = []
       /\ todo (stderr (ProcessWrapper.process s')) = []
       /\ finish_calls (ProcessWrapper.connection s')
          = finish_calls (ProcessWrapper.connection s))
    (fun _ => False) s.
Proof.
  intros Hr He Hsent Hc payload. unfold ProcessWrapper._handle_stderr_event.
  rewrite Hr, He. wp_run. rewrite Hsent. cbn [negb].
  unfold ProcessWrapper.file_read. wp_run. st_simpl.
  cbn [ProcessWrapper.pipe_of]. rewrite Hc. wp_run. st_simpl.
  unfold request_write. cbn [written finish_calls ProcessWrapper.set_pipe].
  st_simpl. rewrite <- !app_assoc. repeat split; reflexivity.
Qed.

(** On the run of C1 without the output on stderr the body de-chunks to
    the prelude followed by the child's stdout. *)
Lemma chunked_stream_without_stderr :
  exists s0 : ProcessWrapper.State,
    Run.start SampleBridge.advert_env SampleBridge.advert
      (SampleBridge.child "abcdefgh" "") fresh_connection [] [] = Ok s0
    /\ let s := Run.run SampleBridge.advert_env
                  [ChildWrite Stdout 3; Poll true; Dispatch Stdin 0;
                   Dispatch Stdout 0;
                   ChildWrite Stdout 5;
                   ChildClose Stdout; ChildClose Stderr;
                   Poll false; Dispatch Stderr 0; Dispatch Stdout 0] s0 in
       ProcessWrapper.sent_chunks (ProcessWrapper.self s) = true
       /\ finish_calls (ProcessWrapper.connection s) = 1
       /\ exists body : bytes,
            written (ProcessWrapper.connection s) = SampleBridge.advert_head ++ body
            /\ dechunk body
               = Some (str "001d# service=git-upload-pack0000" ++ str "abcdefgh").
Proof.
  eexists. split; [reflexivity|]. cbv zeta.
  split; [vm_compute; reflexivity|]. split; [vm_compute; reflexivity|].
  exists (ProcessWrapper.chunk (str "001d# service=git-upload-pack0000")
          ++ ProcessWrapper.chunk (str "abc")
          ++ ProcessWrapper.chunk (str "defgh")
          ++ str "0" ++ CRLF ++ CRLF).
  split; vm_compute; reflexivity.
Qed.

(** The request is not always read to its end.  With the first chunk
    buffered at construction and the rest still to come, the reader is
    left waiting on the socket while the callback of the first chunk is
    queued; the callback finds the stream reading and raises, and
    [reading_chunks] stays set.  The callback after the next chunk then
    takes the fast-path exit, and the last chunk is never read: stdin has
    received the whole payload and stays open. *)
Lemma pending_read_then_callback_stalls :
  exists s0 : ProcessWrapper.State,
    Run.start SampleBridge.upload_env SampleBridge.upload
      (SampleBridge.child "" "") fresh_connection
      (firstn 10 SampleBridge.body_two_chunks)
      (skipn 10 SampleBridge.body_two_chunks) = Ok s0
    /\ let s := Run.run SampleBridge.upload_env
                  [RunCallback; StreamRead 100; RunCallback;
                   Poll true; Dispatch Stdin 100] s0 in
       logged (ProcessWrapper.ioloop s) = [AssertionError (str "Already reading")]
       /\ ProcessWrapper.reading_chunks (ProcessWrapper.self s) = true
       /\ ProcessWrapper.got_request (ProcessWrapper.self s) = false
       /\ callbacks (ProcessWrapper.ioloop s) = 0
       /\ reading (ProcessWrapper.httpstream s) = None
       /\ read_buffer (ProcessWrapper.httpstream s) = str "0" ++ CRLF ++ CRLF
       /\ socket (ProcessWrapper.httpstream s) = []
       /\ stdin_received (ProcessWrapper.process s) = str "abcdef"
       /\ stdin_closed (ProcessWrapper.process s) = false.
Proof.
  eexists. split; [vm_compute; reflexivity|].
  vm_compute. repeat split; reflexivity.
Qed.

(** ** More on the authenticator and the handlers *)

Lemma mem_In (x : bytes) (l : list bytes) : mem x l = true <-> In x l.
Proof.
  unfold mem. rewrite existsb_exists. split.
  - intros (y & Hin & Heq). apply bytes_eqb_eq in Heq. now subst.
  - intros Hin. exists x. split; [assumption|apply bytes_eqb_refl].
Qed.

(** [auth] grants write access exactly when the request carries Basic
    credentials [user:pw] whose password is the one stored for [user] in
    the [users] section and whose [access] entry lists the repository
    segment of the path between its commas. *)
Theorem auth_grants_write_iff (options : Options) (request : HTTPRequest) :
  Server.auth options request = Ok (true, true)
  <-> exists author userpw user pw allowed : bytes,
        headers_get (str "Authorization") (headers request) = Some author
        /\ firstn 5 (Py.lower (Py.strip author)) = str "basic"
        /\ Base64.decode (Py.strip (skipn 5 (Py.strip author))) = Some userpw
        /\ Py.split1 ":" userpw = [user; pw]
        /\ has_option (accessfile options) (str "users") user = true
        /\ get (accessfile options) (str "users") user = Ok pw
        /\ has_option (accessfile options) (str "access") user = true
        /\ get (accessfile options) (str "access") user = Ok allowed
        /\ In (repo_segment request) (Py.split "," allowed).
Proof.
  unfold Server.auth. fold (repo_segment request). split.
  - destruct (headers_get _ _) as [author|]; [|discriminate].
    destruct (bytes_eqb (firstn 5 _) (str "basic")) eqn:Hscheme;
      cbn [negb]; [|discriminate].
    apply bytes_eqb_eq in Hscheme.
    destruct (Base64.decode _) as [userpw|] eqn:Hdec; [|discriminate].
    destruct (Py.split1 ":" userpw) as [|user [|pw [|? ?]]] eqn:Hsplit;
      try discriminate.
    destruct (has_option _ (str "users") user) eqn:Hu; [|discriminate].
    destruct (get _ (str "users") user) as [stored|] eqn:Hgu; cbn [rbind];
      [|discriminate].
    destruct (bytes_eqb stored pw) eqn:Hpw; [|discriminate].
    apply bytes_eqb_eq in Hpw. subst stored.
    destruct (has_option _ (str "access") user) eqn:Ha; [|discriminate].
    destruct (get _ (str "access") user) as [allowed|] eqn:Hga; cbn [rbind];
      [|discriminate].
    intros [= Hmem].
    exists author, userpw, user, pw, allowed. repeat split; try assumption.
    now apply mem_In.
  - intros (author & userpw & user & pw & allowed
            & -> & Hscheme & -> & -> & -> & -> & -> & -> & Hin).
    rewrite Hscheme, bytes_eqb_refl. cbn [negb rbind].
    rewrite bytes_eqb_refl. cbn [rbind].
    apply mem_In in Hin. now rewrite Hin.
Qed.

Example auth_alice_may_push :
  Server.auth Sample.options
    (Sample.request "POST" "/repo.git/git-receive-pack" ""
       [(str "Authorization", str "Basic YWxpY2U6c2VjcmV0")])
  = Ok (true, true).
Proof. reflexivity. Qed.

(** A handler set up without an [auth] hook serves reads and refuses
    every push: [public_readble] is [True] and [public_writable] is
    [False], and [initialize] cannot change them.  The push is answered
    through [auth_failed] and the request finished, or, without that
    hook, refused with an HTTP 403 error and nothing written. *)
Theorem no_auth_hook_is_read_only (conf : Conf) (request : HTTPRequest)
  (c : Connection) (rpc : bytes) :
  conf_auth conf = None ->
  let self := BaseHandler.initialize conf request in
  (In rpc [str "git-upload-pack"; str "upload-pack"] ->
   BaseHandler.enforce_perms self rpc c = (Ok true, c))
  /\ (In rpc [str "git-receive-pack"; str "receive-pack"] ->
      BaseHandler.enforce_perms self rpc c
      = match conf_auth_failed conf with
        | Some failed => (Ok false, request_finish (failed request c))
        | None =>
            (Raise (HTTPError 403
                      (str "You are not allowed to perform this action")), c)
        end).
Proof.
  intros Hconf self. subst self.
  unfold BaseHandler.enforce_perms, BaseHandler.check_auth, BaseHandler.deny, bind.
  cbn [BaseHandler.auth BaseHandler.auth_failed BaseHandler.request
       BaseHandler.public_readble BaseHandler.public_writable
       BaseHandler.initialize].
  rewrite Hconf. cbn [ret negb].
  split.
  - intros [<- | [<- | []]]; reflexivity.
  - intros [<- | [<- | []]]; destruct (conf_auth_failed conf); reflexivity.
Qed.

Lemma no_auth_hook_is_read_only_witness :
  let conf := {| conf_auth := None;
                 conf_auth_failed := Some (Server.auth_failed Sample.options);
                 conf_gitlookup := Some (Server.gitlookup Sample.options);
                 conf_gitcommand := None |} in
  let request := Sample.request "POST" "/repo.git/git-receive-pack" "" [] in
  let self := BaseHandler.initialize conf request in
  (In (str "git-receive-pack") [str "git-upload-pack"; str "upload-pack"] ->
   BaseHandler.enforce_perms self (str "git-receive-pack") fresh_connection
   = (Ok true, fresh_connection))
  /\ (In (str "git-receive-pack") [str "git-receive-pack"; str "receive-pack"] ->
      BaseHandler.enforce_perms self (str "git-receive-pack") fresh_connection
      = (Ok false,
         request_finish
           (Server.auth_failed Sample.options request fresh_connection))).
Proof.
  intros conf request.
  apply (no_auth_hook_is_read_only conf request fresh_connection
           (str "git-receive-pack")).
  reflexivity.
Defined.

(** Whenever [RPCHandler.post] ends by spawning the child, the last
    segment of the path is one of the four RPC names and the permission
    it needs was granted by [check_auth] -- write for a receive-pack,
    read for an upload-pack --, nothing has been written to the
    connection, and the command is [gitcommand], the name without its
    first four characters, [--stateless-rpc] and the repository, with
    the matching [-result] content type and no prelude. *)
Theorem post_spawns_only_when_permitted (self : BaseHandler.t)
  (c c' : Connection) (s : Spawn) :
  RPCHandler.post self c = (Ok (Some s), c') ->
  let rpc := last (Py.split "/" (Py.strip_char "/" (path (BaseHandler.request self)))) [] in
  c' = c
  /\ exists (gitdir : bytes) (r w : bool),
       BaseHandler.get_gitdir self c = (Ok gitdir, c)
       /\ BaseHandler.check_auth self c = (Ok (r, w), c)
       /\ ((In rpc [str "git-receive-pack"; str "receive-pack"] /\ w = true)
           \/ (In rpc [str "git-upload-pack"; str "upload-pack"] /\ r = true))
       /\ s = {| command := [BaseHandler.gitcommand self; skipn 4 rpc;
                             str "--stateless-rpc"; gitdir];
                 success_headers :=
                   [(str "Content-Type",
                     str "application/x-git-" ++ skipn 4 rpc ++ str "-result")];
                 spawn_prelude := [] |}.
Proof.
  intros H rpc. unfold RPCHandler.post, bind in H. fold rpc in H.
  pose proof (get_gitdir_pure self c) as Hpure.
  destruct (BaseHandler.get_gitdir self c) as [[gitdir|e] c1] eqn:Hdir;
    simpl in Hpure; subst c1; [|discriminate].
  destruct (BaseHandler.enforce_perms self rpc c) as [[[|]|e] c1] eqn:Hperm;
    try discriminate.
  destruct (enforce_perms_true _ _ _ _ Hperm) as (-> & r & w & Hauth & Hcase).
  cbn [negb] in H. unfold ret in H. injection H as <- <-.
  split; [reflexivity|]. exists gitdir, r, w. auto.
Qed.

Lemma post_spawns_only_when_permitted_witness :
  let self := Sample.handler
                (Sample.request "POST" "/repo.git/git-receive-pack" ""
                   [(str "Authorization", str "Basic YWxpY2U6c2VjcmV0")]) in
  let rpc := str "git-receive-pack" in
  fresh_connection = fresh_connection
  /\ exists (gitdir : bytes) (r w : bool),
       BaseHandler.get_gitdir self fresh_connection = (Ok gitdir, fresh_connection)
       /\ BaseHandler.check_auth self fresh_connection
          = (Ok (r, w), fresh_connection)
       /\ ((In rpc [str "git-receive-pack"; str "receive-pack"] /\ w = true)
           \/ (In rpc [str "git-upload-pack"; str "upload-pack"] /\ r = true))
       /\ {| command := [str "git"; str "receive-pack"; str "--stateless-rpc";
                         str "/srv/git/repo.git"];
             success_headers :=
               [(str "Content-Type", str "application/x-git-receive-pack-result")];
             spawn_prelude := [] |}
          = {| command := [BaseHandler.gitcommand self; skipn 4 rpc;
                           str "--stateless-rpc"; gitdir];
               success_headers :=
                 [(str "Content-Type",
                   str "application/x-git-" ++ skipn 4 rpc ++ str "-result")];
               spawn_prelude := [] |}.
Proof.
  intros self rpc.
  apply (post_spawns_only_when_permitted self fresh_connection fresh_connection
           {| command := [str "git"; str "receive-pack"; str "--stateless-rpc";
                          str "/srv/git/repo.git"];
              success_headers :=
                [(str "Content-Type", str "application/x-git-receive-pack-result")];
              spawn_prelude := [] |}).
  reflexivity.
Defined.

(** A handler that raises has written nothing: an HTTP error never
    follows part of a response.  The only writing a handler does itself
    is the answer of [auth_failed], after which it returns. *)
Theorem handlers_raise_before_writing (self : BaseHandler.t) (c c' : Connection)
  (e : exn) :
  (RPCHandler.post self c = (Raise e, c') -> c' = c)
  /\ (InfoRefsHandler.get self c = (Raise e, c') -> c' = c).
Proof.
  assert (Hperm : forall rpc c1,
            BaseHandler.enforce_perms self rpc c = (Raise e, c1) -> c1 = c).
  { intros rpc c1. unfold BaseHandler.enforce_perms, bind.
    pose proof (check_auth_pure self c) as Hpure.
    destruct (BaseHandler.check_auth self c) as [[[r w]|e0] c0];
      simpl in Hpure; subst c0; [|now intros [= _ <-]].
    unfold BaseHandler.deny, bind, effect, ret, raise.
    destruct (mem rpc _); [destruct (negb w)|destruct (mem rpc _);
      [destruct (negb r)|]];
      try destruct (BaseHandler.auth_failed self);
      intros H; try discriminate; now injection H as _ <-. }
  split.
  - unfold RPCHandler.post, bind.
    pose proof (get_gitdir_pure self c) as Hpure.
    destruct (BaseHandler.get_gitdir self c) as [[gitdir|e0] c0];
      simpl in Hpure; subst c0; [|now intros [= _ <-]].
    destruct (BaseHandler.enforce_perms self _ c) as [[[|]|e0] c0] eqn:Hp;
      cbn [negb]; unfold ret; try discriminate.
    intros [= <- <-]. eapply Hperm. exact Hp.
  - unfold InfoRefsHandler.get, bind.
    pose proof (get_gitdir_pure self c) as Hpure.
    destruct (BaseHandler.get_gitdir self c) as [[gitdir|e0] c0];
      simpl in Hpure; subst c0; [|now intros [= _ <-]].
    destruct (BaseHandler.enforce_perms self _ c) as [[[|]|e0] c0] eqn:Hp;
      cbn [negb]; unfold ret; try discriminate.
    intros [= <- <-]. eapply Hperm. exact Hp.
Qed.

(** ** Requests that are not streamed *)

Lemma keeps_of_wp {S A V} (view : S -> V) (m : ST S A) :
  (forall s, wp m (fun _ s' => view s' = view s) (fun s' => view s' = view s) s) ->
  keeps view m.
Proof.
  intros H s. specialize (H s). unfold wp in H.
  destruct (m s) as [[a|e] s']; exact H.
Qed.

Lemma handle_stdin_moves (ev : Z) (s : ProcessWrapper.State) :
  wp (ProcessWrapper._handle_stdin_event ev) (fun _ => moved s) (moved s) s.
Proof.
  set (view := fun s0 : ProcessWrapper.State =>
                 (stdin_received (ProcessWrapper.process s0),
                  ProcessWrapper.process_input_buffer (ProcessWrapper.self s0),
                  ProcessWrapper.got_request (ProcessWrapper.self s0),
                  ProcessWrapper.httpstream s0)).
  assert (Hkeep : forall {A} (m : ProcessWrapper.B A) s1,
            keeps view m -> moved s s1 ->
            wp m (fun _ => moved s) (moved s) s1).
  { intros A m s1 Hk HP. unfold wp. specialize (Hk s1).
    destruct (m s1) as [[a|e] s2]; cbn [snd] in Hk;
      injection Hk as H1 H2 H3 H4; unfold moved in *;
      rewrite H1, H2, H3, H4; exact HP. }
  assert (HP : moved s s).
  { unfold moved. repeat split; auto. exists []. now rewrite app_nil_r. }
  unfold ProcessWrapper._handle_stdin_event.
  destruct (has ev ERROR).
  - apply Hkeep; [|assumption].
    unfold ProcessWrapper._graceful_finish. keeps_go.
  - match goal with
    | |- wp (bind _ (fun b => bind _ (fun _ => ?t))) _ _ _ => set (tail := t)
    end.
    assert (Htail : forall s1 : ProcessWrapper.State, moved s s1 ->
              wp tail (fun _ => moved s) (moved s) s1).
    { intros s1 HP1. apply Hkeep; [|assumption]. subst tail. keeps_go. }
    wp_run.
    destruct (negb (bytes_eqb _ [])); [|now apply Htail].
    unfold ProcessWrapper.os_write. wp_run.
    destruct (stdin_closed _ || stdin_hup _); [wp_run; assumption|].
    wp_run. apply Htail. unfold moved. st_simpl.
    repeat split; eauto.
    now rewrite <- app_assoc, firstn_skipn.
Qed.

(** The handler of stdin loses no byte and writes none twice, whatever
    the event and however little the pipe takes: what the child has
    received followed by what is still buffered stays the same, what the
    child has received only grows, and the end-of-request flag and the
    client's stream are left alone. *)
Theorem handle_stdin_conserves_input (ev : Z) (s : ProcessWrapper.State) :
  let s' := snd (ProcessWrapper._handle_stdin_event ev s) in
  stdin_received (ProcessWrapper.process s')
  ++ ProcessWrapper.process_input_buffer (ProcessWrapper.self s')
  = stdin_received (ProcessWrapper.process s)
    ++ ProcessWrapper.process_input_buffer (ProcessWrapper.self s)
  /\ (exists w, stdin_received (ProcessWrapper.process s')
                = stdin_received (ProcessWrapper.process s) ++ w)
  /\ ProcessWrapper.got_request (ProcessWrapper.self s')
     = ProcessWrapper.got_request (ProcessWrapper.self s)
  /\ ProcessWrapper.httpstream s' = ProcessWrapper.httpstream s.
Proof.
  pose proof (handle_stdin_moves ev s) as Hwp. unfold wp in Hwp. cbv zeta.
  destruct (ProcessWrapper._handle_stdin_event ev s) as [[a|e] s']; exact Hwp.
Qed.

(** *** The invariant of a bridge that holds its whole input *)

Lemma whole_inv_intake (input : bytes) (s s' : ProcessWrapper.State) :
  intake s' = intake s -> whole_inv input s -> whole_inv input s'.
Proof.
  unfold intake, whole_inv. intros [= Hd Hg Hs]. now rewrite Hd, Hg, Hs.
Qed.

Lemma inbound_intake (s s' : ProcessWrapper.State) :
  inbound s' = inbound s -> intake s' = intake s.
Proof.
  unfold inbound, intake, delivered. intros [= _ _ Hb Hg Hr Hs].
  now rewrite Hb, Hg, Hr, Hs.
Qed.

Lemma whole_inv_moved (input : bytes) (s s' : ProcessWrapper.State) :
  moved s s' -> whole_inv input s -> whole_inv input s'.
Proof.
  intros (Hd & _ & Hg & Hs). apply whole_inv_intake.
  unfold intake, delivered. now rewrite Hd, Hg, Hs.
Qed.

Lemma whole_inv_run_logged (input : bytes) (m : ProcessWrapper.B unit)
  (s : ProcessWrapper.State) :
  wp m (fun _ => whole_inv input) (whole_inv input) s ->
  whole_inv input (Run.run_logged m s).
Proof.
  unfold wp, Run.run_logged. destruct (m s) as [[a|e] s']; [auto|].
  apply whole_inv_intake. reflexivity.
Qed.

Lemma whole_inv_keeps (input : bytes) (m : ProcessWrapper.B unit)
  (s : ProcessWrapper.State) :
  keeps inbound m -> whole_inv input s ->
  wp m (fun _ => whole_inv input) (whole_inv input) s.
Proof.
  intros Hk HI. unfold wp. specialize (Hk s).
  destruct (m s) as [[a|e] s']; cbn [snd] in Hk;
    (eapply whole_inv_intake; [apply inbound_intake; exact Hk|exact HI]).
Qed.

Lemma whole_inv_step (env : Env) (input : bytes) (a : action)
  (s : ProcessWrapper.State) :
  whole_inv input s -> whole_inv input (Run.step env s a).
Proof.
  intros HI. destruct a as [f n|f|w|f room|n|]; cbn [Run.step].
  - eapply whole_inv_intake; [|exact HI]. unfold intake, delivered. st_simpl.
    destruct f; cbn [Run.child_write]; [reflexivity| |];
      destruct (hup _); reflexivity.
  - eapply whole_inv_intake; [|exact HI]. unfold intake, delivered. st_simpl.
    destruct f; cbn [Run.child_close]; [reflexivity| |];
      st_simpl; destruct (todo _); reflexivity.
  - unfold Run.poll. destruct (events _); [|assumption].
    eapply whole_inv_intake; [|exact HI]. reflexivity.
  - unfold Run.dispatch.
    destruct (ProcessWrapper.lookup_fd f (events _)) as [ev|]; [|assumption].
    match goal with
    | |- whole_inv _ (match ?o with Some _ => Run.run_logged _ ?s1 | None => _ end) =>
        assert (HI1 : whole_inv input s1)
          by (eapply whole_inv_intake; [|exact HI]; reflexivity);
        destruct o; [|exact HI1]
    end.
    apply whole_inv_run_logged. destruct f; cbn [Run.handler].
    + eapply wp_mono; [apply handle_stdin_moves| |];
        intros; cbv beta in *; eapply whole_inv_moved; eassumption.
    + apply whole_inv_keeps; [apply keeps_handle_stdout|assumption].
    + apply whole_inv_keeps; [apply keeps_handle_stderr|assumption].
  - unfold Run.stream_read. destruct HI as (Hg & Hd & Hr). rewrite Hr.
    repeat split; assumption.
  - unfold Run.run_callback.
    destruct (callbacks (ProcessWrapper.ioloop s)) as [|n]; [assumption|].
    apply whole_inv_run_logged.
    match goal with
    | |- wp _ _ _ ?s1 =>
        assert (HI1 : whole_inv input s1)
          by (eapply whole_inv_intake; [|exact HI]; reflexivity);
        generalize dependent s1
    end.
    intros s1 HI1. pose proof HI1 as (Hg & _).
    unfold ProcessWrapper.read_chunks. wp_run.
    destruct (_ && _); wp_run; [assumption|].
    cbn [ProcessWrapper.read_chunks_loop]. wp_run. rewrite Hg. wp_run.
    assumption.
Qed.

Lemma whole_inv_run (env : Env) (input : bytes) (trace : list action)
  (s : ProcessWrapper.State) :
  whole_inv input s -> whole_inv input (Run.run env trace s).
Proof.
  revert s. induction trace as [|a trace IH]; intros s HI; [assumption|].
  apply IH. now apply whole_inv_step.
Qed.

(** A constructed bridge that holds its whole input feeds it to the
    child. *)
Lemma whole_inv_feeds (env : Env) (child : Child) (input : bytes)
  (s0 : ProcessWrapper.State) :
  constructed child s0 -> whole_inv input s0 -> feeds_stdin env s0 input.
Proof.
  intros (Hh & Hev & Hp) HI. split.
  - intros trace s.
    destruct (whole_inv_run env input trace s0 HI) as (Hg & Hd & _). auto.
  - destruct HI as (Hg & Hd & _). unfold delivered in Hd. rewrite Hp in Hd.
    cbn [stdin_received app] in Hd.
    cbn [Run.run fold_left Run.step].
    assert (Hpoll : Run.poll true s0
                    = ProcessWrapper.set_ioloop
                        (ProcessWrapper.set_events [(Stdin, WRITE)]
                           (ProcessWrapper.ioloop s0)) s0).
    { unfold Run.poll. rewrite Hev, Hh, Hp. reflexivity. }
    rewrite Hpoll. unfold Run.dispatch. st_simpl.
    change (ProcessWrapper.lookup_fd Stdin [(Stdin, WRITE)]) with (Some WRITE).
    cbv iota beta zeta. st_simpl. rewrite Hh.
    change (ProcessWrapper.lookup_fd Stdin registered)
      with (Some (Z.lor WRITE ERROR)).
    cbv iota beta. cbn [Run.handler].
    unfold Run.run_logged, ProcessWrapper._handle_stdin_event.
    replace (has WRITE ERROR) with false by reflexivity.
    match goal with
    | |- context [bind ?m ?k ?s1] =>
        assert (Hwp : wp (bind m k)
                  (fun _ s' =>
                     stdin_closed (ProcessWrapper.process s') = true
                     /\ stdin_received (ProcessWrapper.process s') = input
                     /\ ProcessWrapper.process_input_buffer (ProcessWrapper.self s') = [])
                  (fun _ => False) s1)
    end.
    { wp_run. st_simpl. rewrite Hd.
      destruct (bytes_eqb input []) eqn:Hnil; cbn [negb].
      - apply bytes_eqb_eq in Hnil. wp_run. st_simpl. rewrite Hd, Hnil, Hg.
        cbn [bytes_eqb]. rewrite bytes_eqb_refl. wp_run. st_simpl.
        rewrite Hp. cbn [stdin_received]. repeat split; congruence.
      - unfold ProcessWrapper.os_write. wp_run. st_simpl.
        rewrite Hp. cbn [stdin_closed stdin_hup stdin_received orb]. wp_run. st_simpl.
        rewrite Nat.min_id, skipn_all, firstn_all, bytes_eqb_refl, Hg.
        wp_run. st_simpl. auto. }
    unfold wp in Hwp.
    match type of Hwp with
    | match ?x with _ => _ end => destruct x as [[a|e] s']
    end; [exact Hwp|contradiction].
Qed.

(** *** What the constructor does with a request that is not streamed *)

Lemma init_unstreamed_post (env : Env) (spawn : Spawn) (child : Child)
  (c : Connection) (buffered on_socket : bytes) :
  child_exited child = false ->
  method (request env) = str "POST" ->
  streamed (request env) = false ->
  gzipped (request env) = false ->
  exists s0 : ProcessWrapper.State,
    Run.start env spawn child c buffered on_socket = Ok s0
    /\ ProcessWrapper.connection s0 = c
    /\ constructed child s0
    /\ whole_inv (body (request env)) s0.
Proof.
  intros Hc Hm Hs Hg. unfold streamed in Hs. unfold gzipped in Hg.
  unfold Run.start, ProcessWrapper.__init__, request_headers.
  rewrite Hc, Hm, Hs, Hg. eexists. split; [reflexivity|].
  repeat split.
Qed.

Lemma init_unstreamed_gzip (env : Env) (spawn : Spawn) (child : Child)
  (c : Connection) (buffered on_socket plain : bytes) :
  child_exited child = false ->
  method (request env) = str "POST" ->
  streamed (request env) = false ->
  gzipped (request env) = true ->
  firstn 2 (body (request env)) = ProcessWrapper.gzip_magic ->
  inflate env [] = Some [] ->
  inflate env (body (request env)) = Some plain ->
  exists s0 : ProcessWrapper.State,
    Run.start env spawn child c buffered on_socket = Ok s0
    /\ ProcessWrapper.connection s0 = c
    /\ constructed child s0
    /\ whole_inv plain s0.
Proof.
  intros Hc Hm Hs Hg Hmagic Hnil Hplain. unfold streamed in Hs. unfold gzipped in Hg.
  unfold Run.start, ProcessWrapper.__init__, request_headers.
  rewrite Hc, Hm, Hs, Hg, Hmagic, !bytes_eqb_refl.
  unfold ProcessWrapper.decompress.
  match goal with
  | |- context [match ?m ?s with _ => _ end] =>
      assert (Hwp : wp m
                (fun _ s0 => ProcessWrapper.connection s0 = c
                             /\ constructed child s0 /\ whole_inv plain s0)
                (fun _ => False) s)
  end.
  { wp_run. st_simpl. cbv iota. wp_run. cbv iota. wp_run. st_simpl. cbv iota.
    cbn [app]. rewrite Hnil, Hplain. wp_run. st_simpl.
    repeat split. }
  unfold wp in Hwp.
  match type of Hwp with
  | match ?x with _ => _ end => destruct x as [[a|e] s0]
  end; [|contradiction].
  exists s0. split; [reflexivity|exact Hwp].
Qed.

Lemma init_no_body (env : Env) (spawn : Spawn) (child : Child)
  (c : Connection) (buffered on_socket : bytes) :
  child_exited child = false ->
  method (request env) <> str "POST" ->
  exists s0 : ProcessWrapper.State,
    Run.start env spawn child c buffered on_socket = Ok s0
    /\ ProcessWrapper.connection s0 = c
    /\ constructed child s0
    /\ whole_inv [] s0.
Proof.
  intros Hc Hm. apply bytes_eqb_neq in Hm.
  unfold Run.start, ProcessWrapper.__init__, request_headers.
  rewrite Hc, Hm.
  destruct (Py.contains _ _); (eexists; split; [reflexivity|]; repeat split).
Qed.

(** A POST request that is not streamed (not both [Expect: 100-continue]
    and [Transfer-Encoding: chunked]) and not gzipped is constructed
    without anything being written to the client, and its body is what
    the child gets on stdin: on every run the bytes handed to the child
    followed by the buffered ones are the body, and the first writable
    event with room for it writes it all and closes stdin. *)
Theorem whole_body_reaches_stdin (env : Env) (spawn : Spawn) (child : Child)
  (c : Connection) (buffered on_socket : bytes) :
  child_exited child = false ->
  method (request env) = str "POST" ->
  streamed (request env) = false ->
  gzipped (request env) = false ->
  exists s0 : ProcessWrapper.State,
    Run.start env spawn child c buffered on_socket = Ok s0
    /\ ProcessWrapper.connection s0 = c
    /\ feeds_stdin env s0 (body (request env)).
Proof.
  intros Hc Hm Hs Hg.
  destruct (init_unstreamed_post env spawn child c buffered on_socket Hc Hm Hs Hg)
    as (s0 & Hstart & Hconn & Hcons & HI).
  exists s0. split; [assumption|]. split; [assumption|].
  exact (whole_inv_feeds env child _ s0 Hcons HI).
Qed.

(** The same for a gzipped body that starts with the gzip magic and
    that the decompressor accepts: the child gets the decompressed
    body. *)
Theorem gzip_body_reaches_stdin (env : Env) (spawn : Spawn) (child : Child)
  (c : Connection) (buffered on_socket plain : bytes) :
  child_exited child = false ->
  method (request env) = str "POST" ->
  streamed (request env) = false ->
  gzipped (request env) = true ->
  firstn 2 (body (request env)) = ProcessWrapper.gzip_magic ->
  inflate env [] = Some [] ->
  inflate env (body (request env)) = Some plain ->
  exists s0 : ProcessWrapper.State,
    Run.start env spawn child c buffered on_socket = Ok s0
    /\ ProcessWrapper.connection s0 = c
    /\ feeds_stdin env s0 plain.
Proof.
  intros Hc Hm Hs Hg Hmagic Hnil Hplain.
  destruct (init_unstreamed_gzip env spawn child c buffered on_socket plain
              Hc Hm Hs Hg Hmagic Hnil Hplain)
    as (s0 & Hstart & Hconn & Hcons & HI).
  exists s0. split; [assumption|]. split; [assumption|].
  exact (whole_inv_feeds env child _ s0 Hcons HI).
Qed.

(** A gzipped body that does not start with the two magic bytes makes
    the constructor raise, whatever the decompressor would say, and a
    body with the magic that the decompressor refuses makes it raise
    [zlib.error]. *)
Theorem gzip_body_refused (env : Env) (spawn : Spawn) (child : Child)
  (c : Connection) (buffered on_socket : bytes) :
  child_exited child = false ->
  method (request env) = str "POST" ->
  streamed (request env) = false ->
  gzipped (request env) = true ->
  (firstn 2 (body (request env)) <> ProcessWrapper.gzip_magic ->
   Run.start env spawn child c buffered on_socket
   = Raise (AssertionError (str "gzip header")))
  /\ (firstn 2 (body (request env)) = ProcessWrapper.gzip_magic ->
      inflate env (body (request env)) = None ->
      Run.start env spawn child c buffered on_socket = Raise ZlibError).
Proof.
  intros Hc Hm Hs Hg. unfold streamed in Hs. unfold gzipped in Hg.
  unfold Run.start, ProcessWrapper.__init__, request_headers.
  rewrite Hc, Hm, Hs, Hg, !bytes_eqb_refl. split.
  - intros Hmagic. apply bytes_eqb_neq in Hmagic. rewrite Hmagic. reflexivity.
  - intros Hmagic Hnone. rewrite Hmagic, bytes_eqb_refl.
    cbv [bind when ret read effect assert raise ProcessWrapper.add_handler
         ProcessWrapper.upd_ioloop ProcessWrapper.upd_self
         ProcessWrapper.decompress].
    st_simpl. cbn [app]. rewrite Hnone. destruct (inflate env []); reflexivity.
Qed.

(** A request that is not a POST has no input: whatever its headers and
    body, nothing is ever handed to the child, and the first writable
    event closes stdin. *)
Theorem request_without_body_closes_stdin (env : Env) (spawn : Spawn)
  (child : Child) (c : Connection) (buffered on_socket : bytes) :
  child_exited child = false ->
  method (request env) <> str "POST" ->
  exists s0 : ProcessWrapper.State,
    Run.start env spawn child c buffered on_socket = Ok s0
    /\ ProcessWrapper.connection s0 = c
    /\ feeds_stdin env s0 [].
Proof.
  intros Hc Hm.
  destruct (init_no_body env spawn child c buffered on_socket Hc Hm)
    as (s0 & Hstart & Hconn & Hcons & HI).
  exists s0. split; [assumption|]. split; [assumption|].
  exact (whole_inv_feeds env child _ s0 Hcons HI).
Qed.

Lemma whole_body_reaches_stdin_witness :
  exists s0 : ProcessWrapper.State,
    Run.start (whole_post_env [] (str "0000")) SampleBridge.upload
      (SampleBridge.child "" "") fresh_connection [] [] = Ok s0
    /\ ProcessWrapper.connection s0 = fresh_connection
    /\ feeds_stdin (whole_post_env [] (str "0000")) s0 (str "0000").
Proof.
  apply (whole_body_reaches_stdin (whole_post_env [] (str "0000"))
           SampleBridge.upload (SampleBridge.child "" "") fresh_connection [] []);
    reflexivity.
Defined.

Lemma gzip_body_reaches_stdin_witness :
  let env := whole_post_env [(str "Content-Encoding", str "gzip")]
               (ProcessWrapper.gzip_magic ++ str "0000") in
  exists s0 : ProcessWrapper.State,
    Run.start env SampleBridge.upload (SampleBridge.child "" "")
      fresh_connection [] [] = Ok s0
    /\ ProcessWrapper.connection s0 = fresh_connection
    /\ feeds_stdin env s0 (str "0000").
Proof.
  intros env.
  apply (gzip_body_reaches_stdin env SampleBridge.upload
           (SampleBridge.child "" "") fresh_connection [] [] (str "0000"));
    reflexivity.
Defined.

Lemma gzip_body_refused_witness :
  let env := whole_post_env [(str "Content-Encoding", str "x-gzip")] (str "0000") in
  (firstn 2 (str "0000") <> ProcessWrapper.gzip_magic ->
   Run.start env SampleBridge.upload (SampleBridge.child "" "")
     fresh_connection [] []
   = Raise (AssertionError (str "gzip header")))
  /\ (firstn 2 (str "0000") = ProcessWrapper.gzip_magic ->
      SampleBridge.stored (str "0000") = None ->
      Run.start env SampleBridge.upload (SampleBridge.child "" "")
        fresh_connection [] [] = Raise ZlibError).
Proof.
  intros env.
  apply (gzip_body_refused env SampleBridge.upload (SampleBridge.child "" "")
           fresh_connection [] []);
    reflexivity.
Defined.

Lemma request_without_body_closes_stdin_witness :
  exists s0 : ProcessWrapper.State,
    Run.start SampleBridge.advert_env SampleBridge.advert
      (SampleBridge.child "" "") fresh_connection [] [] = Ok s0
    /\ ProcessWrapper.connection s0 = fresh_connection
    /\ feeds_stdin SampleBridge.advert_env s0 [].
Proof.
  apply (request_without_body_closes_stdin SampleBridge.advert_env
           SampleBridge.advert (SampleBridge.child "" "") fresh_connection [] []).
  - reflexivity.
  - discriminate.
Defined.

(** ** The handlers of the child's output, one event at a time *)

Lemma wp_returns {S A} (m : ST S A) (Q : A -> S -> Prop) (s : S) :
  wp m Q (fun _ => False) s -> exists a s', m s = (Ok a, s') /\ Q a s'.
Proof.
  unfold wp. destruct (m s) as [[a|e] s']; [eauto|contradiction].
Qed.

Lemma wp_returns_unit {S} (m : ST S unit) (Q : unit -> S -> Prop) (s : S) :
  wp m Q (fun _ => False) s -> exists s', m s = (Ok tt, s') /\ Q tt s'.
Proof.
  unfold wp. destruct (m s) as [[[]|e] s']; [eauto|contradiction].
Qed.

Lemma headers_get_dict_set (k v : bytes) (d : list (bytes * bytes)) :
  headers_get k (ProcessWrapper.dict_set k v d) = Some v.
Proof.
  induction d as [|[k' v'] d IH]; cbn [ProcessWrapper.dict_set headers_get].
  - now rewrite bytes_eqb_refl.
  - destruct (bytes_eqb k' k) eqn:E; cbn [headers_get]; now rewrite E.
Qed.

Lemma headers_get_dict_set_other (k k' v : bytes) (d : list (bytes * bytes)) :
  k' <> k ->
  headers_get k' (ProcessWrapper.dict_set k v d) = headers_get k' d.
Proof.
  intros Hne. induction d as [|[k0 v0] d IH]; cbn [ProcessWrapper.dict_set headers_get].
  - apply not_eq_sym, bytes_eqb_neq in Hne. now rewrite Hne.
  - destruct (bytes_eqb k0 k) eqn:E; cbn [headers_get].
    + apply bytes_eqb_eq in E. subst k0.
      apply not_eq_sym, bytes_eqb_neq in Hne. now rewrite Hne.
    + now rewrite IH.
Qed.

(** To an HTTP/1.0 client the first readable event on stdout sends the
    whole answer: the head, the prelude and everything the child writes
    until it closes stdout.  The [Content-Length] header counts the
    child's output only, so the body that follows it is longer than
    announced by the length of the prelude. *)
Theorem http10_content_length_leaves_out_prelude (env : Env) (ev : Z)
  (s : ProcessWrapper.State) :
  supports_http_1_1 (request env) = false ->
  has ev READ = true -> has ev ERROR = false ->
  ProcessWrapper.headers_sent (ProcessWrapper.self s) = false ->
  closed (stdout (ProcessWrapper.process s)) = false ->
  let payload := buf (stdout (ProcessWrapper.process s))
                 ++ todo (stdout (ProcessWrapper.process s)) in
  let prelude := ProcessWrapper.output_prelude (ProcessWrapper.self s) in
  exists (s' : ProcessWrapper.State) (hs : list (bytes * bytes)),
    ProcessWrapper._handle_stdout_event env ev s = (Ok tt, s')
    /\ written (ProcessWrapper.connection s')
       = written (ProcessWrapper.connection s)
         ++ ProcessWrapper.response_head (str "HTTP/1.0 200 OK") hs
         ++ prelude ++ payload
    /\ headers_get (str "Content-Length") hs
       = Some (Py.str_of_nat (length payload))
    /\ headers_get (str "Date") hs = Some (date_header env)
    /\ length (prelude ++ payload) = length prelude + length payload
    /\ ProcessWrapper.headers_sent (ProcessWrapper.self s') = true
    /\ ProcessWrapper.sent_chunks (ProcessWrapper.self s')
       = ProcessWrapper.sent_chunks (ProcessWrapper.self s).
Proof.
  intros H10 Hr He Hsent Hc payload prelude.
  enough (Hwp : wp (ProcessWrapper._handle_stdout_event env ev)
            (fun _ s' =>
               exists hs,
                 written (ProcessWrapper.connection s')
                 = written (ProcessWrapper.connection s)
                   ++ ProcessWrapper.response_head (str "HTTP/1.0 200 OK") hs
                   ++ prelude ++ payload
                 /\ headers_get (str "Content-Length") hs
                    = Some (Py.str_of_nat (length payload))
                 /\ headers_get (str "Date") hs = Some (date_header env)
                 /\ length (prelude ++ payload) = length prelude + length payload
                 /\ ProcessWrapper.headers_sent (ProcessWrapper.self s') = true
                 /\ ProcessWrapper.sent_chunks (ProcessWrapper.self s')
                    = ProcessWrapper.sent_chunks (ProcessWrapper.self s))
            (fun _ => False) s).
  { destruct (wp_returns _ _ _ Hwp) as ([] & s' & Hrun & hs & Hrest).
    exists s', hs. auto. }
  unfold ProcessWrapper._handle_stdout_event. rewrite Hr, He, H10.
  wp_run. rewrite Hsent. cbn [negb].
  unfold ProcessWrapper.file_read. wp_run. st_simpl. rewrite Hc. wp_run. st_simpl.
  eexists. split; [reflexivity|].
  split; [apply headers_get_dict_set|].
  split.
  { rewrite headers_get_dict_set_other by discriminate.
    apply headers_get_dict_set. }
  split; [apply length_app|]. auto.
Qed.

(** To an HTTP/1.1 client a readable event on stdout sends what one
    [os.read] of at most 8192 bytes returns, as one chunk; the first
    such event sends before it the status line, the headers with [Date]
    and [Transfer-Encoding: chunked], and the prelude as a chunk of its
    own when there is one.  Nothing else is written, and the rest of the
    pipe's buffer stays for the next event. *)
Theorem stdout_event_sends_one_chunk (env : Env) (ev : Z)
  (s : ProcessWrapper.State) :
  supports_http_1_1 (request env) = true ->
  has ev READ = true -> has ev ERROR = false ->
  closed (stdout (ProcessWrapper.process s)) = false ->
  buf (stdout (ProcessWrapper.process s)) <> [] ->
  let self := ProcessWrapper.self s in
  let data := buf (stdout (ProcessWrapper.process s)) in
  let hs := ProcessWrapper.dict_set (str "Transfer-Encoding") (str "chunked")
              (ProcessWrapper.dict_set (str "Date") (date_header env)
                 (ProcessWrapper.headers self)) in
  let head :=
    if ProcessWrapper.headers_sent self then []
    else ProcessWrapper.response_head (str "HTTP/1.1 200 OK") hs
         ++ match ProcessWrapper.output_prelude self with
            | [] => []
            | prelude => ProcessWrapper.chunk prelude
            end in
  exists s' : ProcessWrapper.State,
    ProcessWrapper._handle_stdout_event env ev s = (Ok tt, s')
    /\ written (ProcessWrapper.connection s')
       = written (ProcessWrapper.connection s)
         ++ head ++ ProcessWrapper.chunk (firstn 8192 data)
    /\ finish_calls (ProcessWrapper.connection s')
       = finish_calls (ProcessWrapper.connection s)
    /\ buf (stdout (ProcessWrapper.process s')) = skipn 8192 data
    /\ ProcessWrapper.headers_sent (ProcessWrapper.self s') = true
    /\ ProcessWrapper.sent_chunks (ProcessWrapper.self s')
       = (if ProcessWrapper.headers_sent self
          then ProcessWrapper.sent_chunks self else true).
Proof.
  intros H11 Hr He Hc Hbuf self data hs head.
  enough (Hwp : wp (ProcessWrapper._handle_stdout_event env ev)
            (fun _ s' =>
               written (ProcessWrapper.connection s')
               = written (ProcessWrapper.connection s)
                 ++ head ++ ProcessWrapper.chunk (firstn 8192 data)
               /\ finish_calls (ProcessWrapper.connection s')
                  = finish_calls (ProcessWrapper.connection s)
               /\ buf (stdout (ProcessWrapper.process s')) = skipn 8192 data
               /\ ProcessWrapper.headers_sent (ProcessWrapper.self s') = true
               /\ ProcessWrapper.sent_chunks (ProcessWrapper.self s')
                  = (if ProcessWrapper.headers_sent self
                     then ProcessWrapper.sent_chunks self else true))
            (fun _ => False) s).
  { destruct (wp_returns _ _ _ Hwp) as ([] & s' & Hrun & Hrest).
    exists s'. auto. }
  unfold ProcessWrapper._handle_stdout_event. rewrite Hr, He, H11.
  subst head hs self data.
  destruct (buf (stdout (ProcessWrapper.process s))) as [|b0 bs] eqn:Hdata;
    [contradiction|].
  wp_run.
  destruct (ProcessWrapper.headers_sent (ProcessWrapper.self s)) eqn:Hsent;
    cbn [negb].
  - wp_run. unfold ProcessWrapper.os_read. wp_run. st_simpl.
    rewrite Hc, Hdata. wp_run. st_simpl. rewrite Hsent.
    unfold ProcessWrapper.chunk. cbn [app]. repeat split.
  - wp_run. st_simpl. unfold ProcessWrapper.os_read. wp_run. st_simpl.
    rewrite Hc, Hdata. wp_run. st_simpl.
    unfold ProcessWrapper.chunk.
    destruct (ProcessWrapper.output_prelude (ProcessWrapper.self s));
      repeat rewrite <- app_assoc; cbn [app]; repeat split.
Qed.

Lemma http10_content_length_leaves_out_prelude_witness :
  let s := advert_state http10_env "abcdefgh" "" [ChildWrite Stdout 3] in
  let payload := buf (stdout (ProcessWrapper.process s))
                 ++ todo (stdout (ProcessWrapper.process s)) in
  let prelude := ProcessWrapper.output_prelude (ProcessWrapper.self s) in
  exists (s' : ProcessWrapper.State) (hs : list (bytes * bytes)),
    ProcessWrapper._handle_stdout_event http10_env READ s = (Ok tt, s')
    /\ written (ProcessWrapper.connection s')
       = written (ProcessWrapper.connection s)
         ++ ProcessWrapper.response_head (str "HTTP/1.0 200 OK") hs
         ++ prelude ++ payload
    /\ headers_get (str "Content-Length") hs
       = Some (Py.str_of_nat (length payload))
    /\ headers_get (str "Date") hs = Some (date_header http10_env)
    /\ length (prelude ++ payload) = length prelude + length payload
    /\ ProcessWrapper.headers_sent (ProcessWrapper.self s') = true
    /\ ProcessWrapper.sent_chunks (ProcessWrapper.self s')
       = ProcessWrapper.sent_chunks (ProcessWrapper.self s).
Proof.
  intros s.
  apply (http10_content_length_leaves_out_prelude http10_env READ s);
    reflexivity.
Defined.

(** On the sample: the body is [001d# service=git-upload-pack0000abcdefgh],
    41 bytes, behind [Content-Length: 8]. *)
Example http10_advertisement_is_cut_short :
  exists s' : ProcessWrapper.State,
    ProcessWrapper._handle_stdout_event http10_env READ
      (advert_state http10_env "abcdefgh" "" [ChildWrite Stdout 3]) = (Ok tt, s')
    /\ written (ProcessWrapper.connection s')
       = str "HTTP/1.0 200 OK" ++ CRLF
         ++ str "Content-Type: application/x-git-upload-pack-advertisement" ++ CRLF
         ++ str "Expires: Fri, 01 Jan 1980 00:00:00 GMT" ++ CRLF
         ++ str "Pragma: no-cache" ++ CRLF
         ++ str "Cache-Control: no-cache, max-age=0, must-revalidate" ++ CRLF
         ++ str "Date: Thu, 05 Nov 2026 00:00:00 GMT" ++ CRLF
         ++ str "Content-Length: 8" ++ CRLF ++ CRLF
         ++ str "001d# service=git-upload-pack0000abcdefgh".
Proof. eexists. split; vm_compute; reflexivity. Qed.

Lemma stdout_event_sends_one_chunk_witness :
  let s := advert_state SampleBridge.advert_env "abcdefgh" "" [ChildWrite Stdout 3] in
  let self := ProcessWrapper.self s in
  let data := buf (stdout (ProcessWrapper.process s)) in
  let hs := ProcessWrapper.dict_set (str "Transfer-Encoding") (str "chunked")
              (ProcessWrapper.dict_set (str "Date")
                 (date_header SampleBridge.advert_env)
                 (ProcessWrapper.headers self)) in
  let head :=
    if ProcessWrapper.headers_sent self then []
    else ProcessWrapper.response_head (str "HTTP/1.1 200 OK") hs
         ++ match ProcessWrapper.output_prelude self with
            | [] => []
            | prelude => ProcessWrapper.chunk prelude
            end in
  exists s' : ProcessWrapper.State,
    ProcessWrapper._handle_stdout_event SampleBridge.advert_env READ s = (Ok tt, s')
    /\ written (ProcessWrapper.connection s')
       = written (ProcessWrapper.connection s)
         ++ head ++ ProcessWrapper.chunk (firstn 8192 data)
    /\ finish_calls (ProcessWrapper.connection s')
       = finish_calls (ProcessWrapper.connection s)
    /\ buf (stdout (ProcessWrapper.process s')) = skipn 8192 data
    /\ ProcessWrapper.headers_sent (ProcessWrapper.self s') = true
    /\ ProcessWrapper.sent_chunks (ProcessWrapper.self s')
       = (if ProcessWrapper.headers_sent self
          then ProcessWrapper.sent_chunks self else true).
Proof.
  intros s.
  apply (stdout_event_sends_one_chunk SampleBridge.advert_env READ s);
    try reflexivity.
  vm_compute. discriminate.
Defined.

Lemma stderr_before_headers_answers_500_witness :
  let env := SampleBridge.advert_env in
  let s := advert_state env "" "fatal" [ChildWrite Stderr 5] in
  let payload := buf (stderr (ProcessWrapper.process s))
                 ++ todo (stderr (ProcessWrapper.process s)) in
  wp (ProcessWrapper._handle_stderr_event env READ)
    (fun _ s' =>
       ProcessWrapper.headers_sent (ProcessWrapper.self s') = true
       /\ written (ProcessWrapper.connection s')
          = written (ProcessWrapper.connection s)
            ++ (str "HTTP/1.1 500 Internal Server Error" ++ CRLF
                ++ str "Date: " ++ date_header env ++ CRLF
                ++ str "Content-Length: " ++ Py.str_of_nat (length payload)
                ++ CRLF ++ CRLF)
            ++ payload
       /\ buf (stderr (ProcessWrapper.process s')) = []
       /\ todo (stderr (ProcessWrapper.process s')) = []
       /\ finish_calls (ProcessWrapper.connection s')
          = finish_calls (ProcessWrapper.connection s))
    (fun _ => False) s.
Proof.
  intros env s.
  apply (stderr_before_headers_answers_500 env READ s); reflexivity.
Defined.

(** Completion after a response has been started: while stdout or
    stderr is open it does nothing; once both are closed it closes
    stdin, writes the last chunk [0 CRLF CRLF] if the response is a
    chunked one and nothing otherwise, and finishes the request. *)
Theorem completion_of_started_response (s : ProcessWrapper.State) :
  ProcessWrapper.headers_sent (ProcessWrapper.self s) = true ->
  if closed (stdout (ProcessWrapper.process s))
     && closed (stderr (ProcessWrapper.process s))
  then
    exists s' : ProcessWrapper.State,
      ProcessWrapper._graceful_finish s = (Ok tt, s')
      /\ stdin_closed (ProcessWrapper.process s') = true
      /\ written (ProcessWrapper.connection s')
         = written (ProcessWrapper.connection s)
           ++ (if ProcessWrapper.sent_chunks (ProcessWrapper.self s)
               then str "0" ++ CRLF ++ CRLF else [])
      /\ finish_calls (ProcessWrapper.connection s')
         = S (finish_calls (ProcessWrapper.connection s))
  else ProcessWrapper._graceful_finish s = (Ok tt, s).
Proof.
  intros Hsent.
  destruct (closed (stdout (ProcessWrapper.process s))) eqn:Ho;
    [destruct (closed (stderr (ProcessWrapper.process s))) eqn:He|];
    cbn [andb].
  - apply (wp_returns_unit ProcessWrapper._graceful_finish
             (fun _ s' =>
                stdin_closed (ProcessWrapper.process s') = true
                /\ written (ProcessWrapper.connection s')
                   = written (ProcessWrapper.connection s)
                     ++ (if ProcessWrapper.sent_chunks (ProcessWrapper.self s)
                         then str "0" ++ CRLF ++ CRLF else [])
                /\ finish_calls (ProcessWrapper.connection s')
                   = S (finish_calls (ProcessWrapper.connection s)))).
    unfold ProcessWrapper._graceful_finish.
    wp_run. rewrite Ho, He. cbn [negb orb].
    destruct (stdin_closed (ProcessWrapper.process s)) eqn:Hin; cbn [negb];
      wp_run; st_simpl; rewrite Hsent; cbn [negb];
      destruct (ProcessWrapper.sent_chunks (ProcessWrapper.self s));
      wp_run; st_simpl; rewrite <- ?app_assoc, ?app_nil_r; auto.
  - apply graceful_finish_waits. auto.
  - apply graceful_finish_waits. auto.
Qed.

Lemma completion_of_started_response_witness :
  let s := advert_state SampleBridge.advert_env "abc" ""
             [ChildWrite Stdout 3; ChildClose Stdout; ChildClose Stderr;
              Poll false; Dispatch Stdout 0; Dispatch Stderr 0] in
  if closed (stdout (ProcessWrapper.process s))
     && closed (stderr (ProcessWrapper.process s))
  then
    exists s' : ProcessWrapper.State,
      ProcessWrapper._graceful_finish s = (Ok tt, s')
      /\ stdin_closed (ProcessWrapper.process s') = true
      /\ written (ProcessWrapper.connection s')
         = written (ProcessWrapper.connection s)
           ++ (if ProcessWrapper.sent_chunks (ProcessWrapper.self s)
               then str "0" ++ CRLF ++ CRLF else [])
      /\ finish_calls (ProcessWrapper.connection s')
         = S (finish_calls (ProcessWrapper.connection s))
  else ProcessWrapper._graceful_finish s = (Ok tt, s).
Proof.
  intros s. apply (completion_of_started_response s). vm_compute. reflexivity.
Defined.

(** ** The chunk framing of the response and its decoding *)

(** *** Hexadecimal digits *)

Lemma digit_char_hex (d : nat) :
  d < 16 ->
  Py.hex_value (Py.digit_char d) = Some d
  /\ Py.isspace (Py.digit_char d) = false
  /\ ~ In (Py.digit_char d) (str "-+xX;" ++ CRLF).
Proof.
  intros H.
  do 16 (destruct d as [|d];
         [repeat split; try reflexivity;
          intros Hin; cbn in Hin;
          repeat (destruct Hin as [Hin|Hin]; [discriminate Hin|]); exact Hin|]).
  lia.
Qed.

Lemma digits_go_digits (base fuel n : nat) :
  0 < base <= 16 -> Forall digit (Py.digits_go base fuel n).
Proof.
  intros Hb. revert n. induction fuel as [|fuel IH]; intros n;
    cbn [Py.digits_go]; [constructor|].
  destruct (Nat.ltb_spec n base).
  - constructor; [|constructor]. exists n. split; [lia|reflexivity].
  - apply Forall_app. split; [apply IH|].
    constructor; [|constructor]. exists (n mod base). split; [|reflexivity].
    pose proof (Nat.mod_upper_bound n base). lia.
Qed.

Lemma digits_go_nonempty (base fuel n : nat) :
  Py.digits_go base (S fuel) n <> [].
Proof.
  cbn [Py.digits_go]. destruct (n <? base); [discriminate|].
  intros H. apply app_eq_nil in H. destruct H; discriminate.
Qed.

Lemma hex_fold_app (acc : nat) (a b : bytes) :
  Py.hex_fold acc (a ++ b)
  = match Py.hex_fold acc a with
    | Some x => Py.hex_fold x b
    | None => None
    end.
Proof.
  revert acc. induction a as [|c a IH]; intros acc; cbn [app Py.hex_fold];
    [reflexivity|].
  destruct (Py.hex_value c); [apply IH|reflexivity].
Qed.

Lemma hex_fold_digits (fuel n : nat) :
  n < fuel -> Py.hex_fold 0 (Py.digits_go 16 fuel n) = Some n.
Proof.
  revert n. induction fuel as [|fuel IH]; intros n H; [lia|].
  cbn [Py.digits_go]. destruct (Nat.ltb_spec n 16) as [Hlt|Hge].
  - cbn [Py.hex_fold]. destruct (digit_char_hex n Hlt) as [-> _].
    cbn [Py.hex_fold]. f_equal; lia.
  - rewrite hex_fold_app, IH.
    + cbn [Py.hex_fold].
      destruct (digit_char_hex (n mod 16)) as [-> _].
      { apply Nat.mod_upper_bound. lia. }
      cbn [Py.hex_fold]. pose proof (Nat.div_mod_eq n 16). f_equal; lia.
    + pose proof (Nat.div_lt n 16). lia.
Qed.

Lemma lstrip_by_id (f : ascii -> bool) (s : bytes) :
  Forall (fun c => f c = false) s -> Py.lstrip_by f s = s.
Proof. intros H. destruct H as [|c s Hc _]; cbn; [reflexivity|now rewrite Hc]. Qed.

Lemma strip_by_id (f : ascii -> bool) (s : bytes) :
  Forall (fun c => f c = false) s -> Py.strip_by f s = s.
Proof.
  intros H. unfold Py.strip_by, Py.rstrip_by.
  rewrite (lstrip_by_id f s H), lstrip_by_id, rev_involutive; [reflexivity|].
  now apply Forall_rev.
Qed.

Lemma digit_facts (c : ascii) :
  digit c ->
  Py.isspace c = false /\ c <> "-"%char /\ c <> "+"%char /\ c <> "x"%char
  /\ c <> "X"%char /\ c <> ";"%char /\ c <> CR /\ (exists d, Py.hex_value c = Some d).
Proof.
  intros (d & Hd & ->). destruct (digit_char_hex d Hd) as (Hv & Hs & Hin).
  cbn [app In] in Hin.
  repeat split; eauto; intros E; apply Hin; rewrite E; cbn; tauto.
Qed.

(** [int(hex(n)[2:], 16) == n] *)
Lemma int16_hex_digits (n : nat) :
  Py.int16 (Py.hex_digits n) = Some (Z.of_nat n).
Proof.
  unfold Py.int16, Py.hex_digits.
  pose proof (digits_go_digits 16 (S n) n ltac:(lia)) as Hd.
  pose proof (digits_go_nonempty 16 n n) as Hne.
  pose proof (hex_fold_digits (S n) n ltac:(lia)) as Hfold.
  rewrite (strip_by_id Py.isspace).
  2:{ eapply Forall_impl; [|exact Hd]. intros c Hc. now apply digit_facts. }
  destruct (Py.digits_go 16 (S n) n) as [|c0 s]; [contradiction|].
  inversion Hd as [|? ? Hc0 Hs]; subst.
  destruct (digit_facts c0 Hc0) as (_ & Hm & Hp & _).
  apply Ascii.eqb_neq in Hm, Hp. rewrite Hm, Hp.
  destruct s as [|cx s']; [now rewrite Hfold|].
  inversion Hs as [|? ? Hcx _]; subst.
  destruct (digit_facts cx Hcx) as (_ & _ & _ & Hx & HX & _).
  apply Ascii.eqb_neq in Hx, HX. rewrite Hx, HX, andb_false_r.
  now rewrite Hfold.
Qed.

(** *** One chunk and the decoder *)

Lemma find_past_prefix (s t : bytes) :
  ~ In CR s -> ProcessWrapper.find CRLF (s ++ CRLF ++ t) = Some (length s).
Proof.
  induction s as [|c s IH]; intros Hin.
  - reflexivity.
  - cbn [app ProcessWrapper.find length].
    assert (Hc : Py.startswith (c :: s ++ CRLF ++ t) CRLF = false).
    { cbn [Py.startswith CRLF]. destruct (Ascii.eqb_spec CR c) as [E|_];
        [|reflexivity]. exfalso. apply Hin. now left. }
    rewrite Hc, IH; [reflexivity|]. intros H. apply Hin. now right.
Qed.

Lemma hex_digits_digits (n : nat) : Forall digit (Py.hex_digits n).
Proof. apply digits_go_digits. lia. Qed.

Lemma digits_not_in (c : ascii) (s : bytes) :
  Forall digit s -> In c (str ";" ++ CRLF) -> ~ In c s.
Proof.
  intros Hs Hc Hin. rewrite Forall_forall in Hs.
  destruct (digit_facts c (Hs c Hin)) as (_ & _ & _ & _ & _ & H1 & H2 & _).
  cbn in Hc. destruct Hc as [<-|[<-|[<-|[]]]]; try congruence.
  destruct (Hs _ Hin) as (d & Hd & E).
  destruct (digit_char_hex d Hd) as (_ & _ & Hno). apply Hno.
  rewrite <- E. cbn. tauto.
Qed.

(** The size line of a chunk [hex(len(p))[2:] CRLF p CRLF] is read back as
    [len(p)]. *)
Lemma chunk_size_chunk (p rest : bytes) :
  chunk_size (ProcessWrapper.chunk p ++ rest)
  = Some (Z.of_nat (length p), p ++ CRLF ++ rest).
Proof.
  unfold ProcessWrapper.chunk, chunk_size.
  set (h := Py.hex_digits (length p)).
  assert (Hd : Forall digit h) by apply hex_digits_digits.
  replace ((h ++ CRLF ++ p ++ CRLF) ++ rest)
    with (h ++ CRLF ++ (p ++ CRLF ++ rest))
    by (now rewrite <- !app_assoc).
  rewrite find_past_prefix by (apply digits_not_in; [assumption|cbn; tauto]).
  rewrite firstn_app, firstn_all, Nat.sub_diag, firstn_O, app_nil_r.
  rewrite split_no_sep by (apply digits_not_in; [assumption|cbn; tauto]).
  cbn [hd]. unfold Py.strip. rewrite strip_by_id.
  2:{ eapply Forall_impl; [|exact Hd]. intros c Hc. now apply digit_facts. }
  subst h. rewrite int16_hex_digits.
  rewrite skipn_app, skipn_all2 by lia.
  replace (length (Py.hex_digits (length p)) + 2 - length (Py.hex_digits (length p)))
    with 2 by lia.
  reflexivity.
Qed.

Lemma Dechunk_chunk_app (p rest rp : bytes) :
  p <> [] -> Dechunk rest rp -> Dechunk (ProcessWrapper.chunk p ++ rest) (p ++ rp).
Proof.
  intros Hp Hrest.
  assert (Hlen : 0 < length p) by (destruct p; [contradiction|cbn; lia]).
  pose proof (Dechunk_chunk (ProcessWrapper.chunk p ++ rest) (p ++ CRLF ++ rest)
                rp (length p) (chunk_size_chunk p rest) Hlen) as H.
  rewrite firstn_app, firstn_all, Nat.sub_diag, firstn_O, app_nil_r in H.
  apply H.
  - rewrite !length_app. cbn. lia.
  - rewrite skipn_app, skipn_all, Nat.sub_diag. reflexivity.
  - rewrite skipn_app, skipn_all2 by lia.
    replace (length p + 2 - length p) with 2 by lia. exact Hrest.
Qed.

(** The last chunk [0 CRLF CRLF] ends the body, whatever follows it. *)
Lemma Dechunk_terminator (junk : bytes) :
  Dechunk (str "0" ++ CRLF ++ CRLF ++ junk) [].
Proof. now apply Dechunk_last with (rest := CRLF ++ junk). Qed.

(** The decoder computes what [Dechunk] describes. *)
Lemma dechunk_go_complete (s p : bytes) :
  Dechunk s p -> forall fuel, length s < fuel -> dechunk_go fuel s = Some p.
Proof.
  induction 1 as [s rest Hs|s rest p n Hs Hn Hlen Hcrlf Hp IH];
    intros fuel Hfuel; (destruct fuel as [|fuel]; [lia|]);
    cbn [dechunk_go]; unfold chunk_size in Hs;
    destruct (ProcessWrapper.find CRLF s) as [loc|] eqn:Hfind; try discriminate;
    destruct (Py.int16 _) as [k|]; try discriminate;
    injection Hs as -> <-.
  - reflexivity.
  - replace (Z.of_nat n =? 0)%Z with false by (symmetry; apply Z.eqb_neq; lia).
    replace (Z.of_nat n <? 0)%Z with false by (symmetry; apply Z.ltb_ge; lia).
    rewrite Nat2Z.id.
    replace (n + 2 <=? length (skipn (loc + 2) s)) with true
      by (symmetry; now apply Nat.leb_le).
    rewrite Hcrlf, bytes_eqb_refl. cbn [andb].
    rewrite IH; [reflexivity|].
    rewrite !length_skipn in *. lia.
Qed.

Lemma Dechunk_dechunk (s p : bytes) : Dechunk s p -> dechunk s = Some p.
Proof. intros H. apply dechunk_go_complete; [assumption|lia]. Qed.

Lemma Frames_Dechunk (frames data rest rp : bytes) :
  Frames frames data -> Dechunk rest rp -> Dechunk (frames ++ rest) (data ++ rp).
Proof.
  intros HF. revert rest rp.
  induction HF as [|frames data p HF IH Hp]; intros rest rp Hrest; [assumption|].
  rewrite <- !app_assoc. apply IH. now apply Dechunk_chunk_app.
Qed.

Lemma Frames_concat (ps : list bytes) :
  Forall (fun p => p <> []) ps ->
  Frames (concat (map ProcessWrapper.chunk ps)) (concat ps).
Proof.
  induction ps as [|p ps IH] using rev_ind; intros H; [constructor|].
  apply Forall_app in H. destruct H as [Hps Hp]. inversion Hp; subst.
  rewrite map_app, !concat_app. cbn [map concat]. rewrite !app_nil_r.
  constructor; auto.
Qed.

(** The framing of the response is undone by the decoder: chunks of
    non-empty payloads followed by the last chunk [0 CRLF CRLF] decode
    to the payloads in order, whatever follows the last chunk; and the
    frame of an empty payload is that last chunk, so that an empty
    payload would end the body. *)
Theorem chunk_frames_decode (ps : list bytes) (junk : bytes) :
  Forall (fun p => p <> []) ps ->
  dechunk (concat (map ProcessWrapper.chunk ps) ++ str "0" ++ CRLF ++ CRLF ++ junk)
  = Some (concat ps)
  /\ ProcessWrapper.chunk [] = str "0" ++ CRLF ++ CRLF
  /\ dechunk (ProcessWrapper.chunk []
              ++ concat (map ProcessWrapper.chunk ps) ++ str "0" ++ CRLF ++ CRLF)
     = Some [].
Proof.
  intros Hps. split; [|split].
  - apply Dechunk_dechunk.
    rewrite <- (app_nil_r (concat ps)).
    apply Frames_Dechunk; [now apply Frames_concat|apply Dechunk_terminator].
  - reflexivity.
  - apply Dechunk_dechunk.
    change (ProcessWrapper.chunk []) with (str "0" ++ CRLF ++ CRLF).
    rewrite <- !app_assoc. apply (Dechunk_terminator
      (concat (map ProcessWrapper.chunk ps) ++ str "0" ++ CRLF ++ CRLF)).
Qed.

Lemma chunk_frames_decode_witness :
  dechunk (concat (map ProcessWrapper.chunk [str "abc"; str "defgh"])
           ++ str "0" ++ CRLF ++ CRLF ++ [])
  = Some (concat [str "abc"; str "defgh"])
  /\ ProcessWrapper.chunk [] = str "0" ++ CRLF ++ CRLF
  /\ dechunk (ProcessWrapper.chunk []
              ++ concat (map ProcessWrapper.chunk [str "abc"; str "defgh"])
              ++ str "0" ++ CRLF ++ CRLF)
     = Some [].
Proof.
  apply (chunk_frames_decode [str "abc"; str "defgh"] []).
  repeat constructor; discriminate.
Defined.

(** ** The chunked response on every run *)

Lemma outbound_inv_view (env : Env) (hs0 : list (bytes * bytes))
  (prelude out w0 : bytes) (f0 : nat) (s s' : ProcessWrapper.State) :
  outbound s' = outbound s ->
  outbound_inv env hs0 prelude out w0 f0 s ->
  outbound_inv env hs0 prelude out w0 f0 s'.
Proof.
  unfold outbound. intros [= Hc Hsent Hch Hh Hp Ho He Hhs Hev].
  unfold outbound_inv, pending_ok. rewrite Hc, Hsent, Hch, Hh, Hp, Ho, He, Hhs, Hev.
  trivial.
Qed.

(** *** The inbound path leaves the response alone *)

Lemma remove_fd_idem (f : fd) (l : list (fd * Z)) :
  ProcessWrapper.remove_fd f (ProcessWrapper.remove_fd f l)
  = ProcessWrapper.remove_fd f l.
Proof.
  unfold ProcessWrapper.remove_fd. induction l as [|e l IH]; cbn [filter];
    [reflexivity|].
  destruct (negb (fd_eqb (fst e) f)) eqn:E; cbn [filter]; now rewrite ?E, IH.
Qed.

Lemma remove_fd_update (f : fd) (v : Z) (l : list (fd * Z)) :
  ProcessWrapper.remove_fd f
    (map (fun e => if fd_eqb (fst e) f then (f, v) else e) l)
  = ProcessWrapper.remove_fd f l.
Proof.
  unfold ProcessWrapper.remove_fd. induction l as [|e l IH]; cbn [filter map];
    [reflexivity|].
  destruct (fd_eqb (fst e) f) eqn:E; cbn [fst negb]; rewrite ?E; cbn [negb].
  - assert (fd_eqb f f = true) as -> by (now destruct f). exact IH.
  - now rewrite IH.
Qed.

Lemma keeps_outbound_update_stdin (interest : Z) :
  keeps outbound (ProcessWrapper.update_handler Stdin interest).
Proof.
  unfold ProcessWrapper.update_handler. apply keeps_bind; [apply keeps_read|].
  intros s0. destruct (ProcessWrapper.lookup_fd _ _); [|apply keeps_raise].
  destruct (ProcessWrapper.fd_closed _ _); [apply keeps_raise|].
  unfold ProcessWrapper.upd_ioloop. apply keeps_effect. intros s.
  unfold outbound. st_simpl. now rewrite remove_fd_update.
Qed.

Lemma keeps_outbound_remove_stdin :
  keeps outbound (ProcessWrapper.remove_handler Stdin).
Proof.
  unfold ProcessWrapper.remove_handler, ProcessWrapper.upd_ioloop.
  apply keeps_effect. intros s. unfold outbound. st_simpl.
  now rewrite !remove_fd_idem.
Qed.

Ltac keeps_out_head :=
  first
    [ apply keeps_outbound_update_stdin
    | apply keeps_outbound_remove_stdin
    | lazymatch goal with
      | |- keeps _ (ProcessWrapper.decompress _ _) => unfold ProcessWrapper.decompress
      | |- keeps _ (ProcessWrapper.consume _) => unfold ProcessWrapper.consume
      | |- keeps _ (ProcessWrapper.os_write _) => unfold ProcessWrapper.os_write
      | |- keeps _ (ProcessWrapper._chunk_data _ _) => unfold ProcessWrapper._chunk_data
      | |- keeps _ (ProcessWrapper.read_bytes _ _) => unfold ProcessWrapper.read_bytes
      | |- keeps _ (ProcessWrapper._chunk_length _ _) =>
          unfold ProcessWrapper._chunk_length
      | |- keeps _ (ProcessWrapper.read_until _) => unfold ProcessWrapper.read_until
      | |- keeps _ (let '(_, _) := ?x in _) => destruct x
      end
    | keeps_head ].

Ltac keeps_out := repeat (intros; keeps_out_head).

Lemma keeps_outbound_chunk_data (env : Env) (data : bytes) :
  keeps outbound (ProcessWrapper._chunk_data env data).
Proof. keeps_out. Qed.

Lemma keeps_outbound_chunk_length (env : Env) (data : bytes) :
  keeps outbound (ProcessWrapper._chunk_length env data).
Proof. keeps_out. Qed.

Lemma keeps_outbound_read_until (env : Env) :
  keeps outbound (ProcessWrapper.read_until env).
Proof. keeps_out. Qed.

Lemma keeps_outbound_read_chunks_loop (env : Env) (fuel : nat) :
  keeps outbound (ProcessWrapper.read_chunks_loop env fuel).
Proof.
  induction fuel as [|fuel IH]; cbn [ProcessWrapper.read_chunks_loop];
    [apply keeps_ret|].
  repeat (intros; first [apply IH | apply keeps_outbound_read_until | keeps_head]).
Qed.

Lemma keeps_outbound_read_chunks (env : Env) :
  keeps outbound (ProcessWrapper.read_chunks env).
Proof.
  unfold ProcessWrapper.read_chunks.
  repeat (intros; first [apply keeps_outbound_read_chunks_loop | keeps_head]).
Qed.

(** *** The handlers keep the invariant *)

Lemma Forall_remove_fd {P : fd * Z -> Prop} (f : fd) (l : list (fd * Z)) :
  Forall P l -> Forall P (ProcessWrapper.remove_fd f l).
Proof.
  unfold ProcessWrapper.remove_fd. rewrite !Forall_forall.
  intros H e He. apply filter_In in He. now apply H.
Qed.

Lemma remove_fd_comm (f g : fd) (l : list (fd * Z)) :
  ProcessWrapper.remove_fd f (ProcessWrapper.remove_fd g l)
  = ProcessWrapper.remove_fd g (ProcessWrapper.remove_fd f l).
Proof.
  unfold ProcessWrapper.remove_fd. induction l as [|e l IH]; cbn [filter];
    [reflexivity|].
  destruct (negb (fd_eqb (fst e) g)) eqn:Eg, (negb (fd_eqb (fst e) f)) eqn:Ef;
    cbn [filter]; rewrite ?Eg, ?Ef, ?IH; reflexivity.
Qed.

Section Outbound.
Variables (env : Env) (hs0 : list (bytes * bytes)) (prelude out w0 : bytes)
  (f0 : nat).

Local Abbreviation Inv := (outbound_inv env hs0 prelude out w0 f0).

Lemma keeps_outbound_inv {A} (m : ProcessWrapper.B A) (s : ProcessWrapper.State) :
  keeps outbound m -> Inv s -> wp m (fun _ => Inv) Inv s.
Proof.
  intros Hk HI. unfold wp. specialize (Hk s).
  destruct (m s) as [[a|e] s']; cbn [snd] in Hk;
    (eapply outbound_inv_view; [exact Hk|exact HI]).
Qed.

Lemma graceful_finish_outbound (s : ProcessWrapper.State) :
  Inv s -> wp ProcessWrapper._graceful_finish (fun _ => Inv) Inv s.
Proof.
  intros HI. unfold ProcessWrapper._graceful_finish. wp_run.
  destruct (negb (closed (stdout (ProcessWrapper.process s)))
            || negb (closed (stderr (ProcessWrapper.process s)))) eqn:Hopen;
    [wp_run; exact HI|].
  apply orb_false_iff in Hopen. destruct Hopen as [Ho He].
  apply negb_false_iff in Ho, He.
  assert (Hnext : forall s1 : ProcessWrapper.State,
            outbound s1 = outbound s ->
            wp (sent <- read (fun s => ProcessWrapper.headers_sent (ProcessWrapper.self s)) ;;
                chunked <- read (fun s => ProcessWrapper.sent_chunks (ProcessWrapper.self s)) ;;
                (if negb sent then
                   let payload := str "did not produce any data" in
                   date <- ProcessWrapper._get_date ;;
                   let data := str "HTTP/1.1 500 Internal Server Error" ++ CRLF
                               ++ str "Date: " ++ date ++ CRLF
                               ++ str "Content-Length: "
                               ++ Py.str_of_nat (length payload)
                               ++ CRLF ++ CRLF in
                   ProcessWrapper.upd_self (ProcessWrapper.set_headers_sent true) ;;;
                   ProcessWrapper.write (data ++ payload)
                 else if chunked then
                   ProcessWrapper.write (str "0" ++ CRLF) ;;;
                   ProcessWrapper.write CRLF
                 else ret tt) ;;;
                ProcessWrapper.finish)
              (fun _ => Inv) Inv s1).
  { intros s1 Hview.
    assert (HI1 : Inv s1) by (eapply outbound_inv_view; eassumption).
    injection Hview as Hc Hsent Hch Hh Hp Hso Hse Hhs Hev.
    wp_run.
    destruct (ProcessWrapper.headers_sent (ProcessWrapper.self s1)) eqn:Hs1;
      cbn [negb].
    - unfold outbound_inv in HI1. cbv zeta in HI1. rewrite Hs1 in HI1.
      destruct HI1 as (Hbe & Hte & Hhup & Hcl & Hhand & Hpend & Hpre & Hchunk
                       & frames & data & tail & Hw & HF & Hdata & Htail).
      rewrite Hchunk. wp_run. st_simpl.
      unfold outbound_inv. cbv zeta. st_simpl. rewrite Hs1.
      repeat (split; [assumption|]).
      exists frames, data, (tail ++ str "0" ++ CRLF ++ CRLF).
      split; [rewrite Hw, <- !app_assoc; reflexivity|].
      split; [assumption|]. split; [assumption|].
      right. rewrite Hso, Ho. split; [reflexivity|].
      destruct Htail as [[-> Hf]|(_ & Hf & junk & ->)].
      + split; [lia|]. exists []. now rewrite app_nil_r.
      + split; [lia|]. exists (junk ++ str "0" ++ CRLF ++ CRLF).
        now rewrite <- !app_assoc.
    - unfold ProcessWrapper._get_date. wp_run. exact HI1. }
  do 2 wp_head.
  destruct (stdin_closed (ProcessWrapper.process s)); cbn [negb].
  - apply Hnext. reflexivity.
  - do 3 wp_head. apply Hnext. reflexivity.
Qed.

Lemma handle_stdin_outbound (ev : Z) (s : ProcessWrapper.State) :
  Inv s -> wp (ProcessWrapper._handle_stdin_event ev) (fun _ => Inv) Inv s.
Proof.
  intros HI. unfold ProcessWrapper._handle_stdin_event.
  destruct (has ev ERROR).
  - apply wp_bind_intro. apply wp_read_intro.
    apply wp_bind_intro.
    eapply wp_mono; [apply keeps_outbound_inv; [keeps_out|exact HI]| |auto].
    intros a1 s1 HI1. cbv beta in *.
    apply wp_bind_intro.
    eapply wp_mono; [apply keeps_outbound_inv; [keeps_out|exact HI1]| |auto].
    intros a2 s2 HI2. cbv beta in *. now apply graceful_finish_outbound.
  - apply keeps_outbound_inv; [|assumption]. keeps_out.
Qed.


Lemma pending_ok_other (p p' : Process) (l : list (fd * Z)) :
  Forall (fun e => fst e <> Stdout) l ->
  Forall (pending_ok p) l -> Forall (pending_ok p') l.
Proof.
  rewrite !Forall_forall. intros Hno H e He. specialize (H e He).
  specialize (Hno e He). unfold pending_ok in *.
  destruct (fst e); [exact I|contradiction|exact H].
Qed.

Lemma no_stdout_remove (l : list (fd * Z)) :
  Forall (fun e => fst e <> Stdout) (ProcessWrapper.remove_fd Stdout l).
Proof.
  unfold ProcessWrapper.remove_fd. apply Forall_forall. intros e He.
  apply filter_In in He. destruct He as [_ He]. intros E. rewrite E in He.
  discriminate.
Qed.

Lemma firstn_nonempty {A} (n : nat) (l : list A) :
  0 < n -> l <> [] -> firstn n l <> [].
Proof. destruct n, l; cbn; intros; try lia; congruence. Qed.

(** [os.read] on a pipe that holds bytes takes at most [n] of them. *)
Lemma os_read_some (n : nat) (s : ProcessWrapper.State)
  (Q : bytes -> ProcessWrapper.State -> Prop) (E : ProcessWrapper.State -> Prop) :
  closed (stdout (ProcessWrapper.process s)) = false ->
  buf (stdout (ProcessWrapper.process s)) <> [] ->
  Q (firstn n (buf (stdout (ProcessWrapper.process s))))
    (ProcessWrapper.set_process
       (ProcessWrapper.set_stdout
          (ProcessWrapper.set_buf
             (skipn n (buf (stdout (ProcessWrapper.process s))))
             (stdout (ProcessWrapper.process s)))
          (ProcessWrapper.process s)) s) ->
  wp (ProcessWrapper.os_read Stdout n) Q E s.
Proof.
  intros Hc Hb HQ. unfold ProcessWrapper.os_read. wp_run. st_simpl.
  rewrite Hc. destruct (buf (stdout (ProcessWrapper.process s))) eqn:Hbuf;
    [contradiction|].
  wp_run. st_simpl. exact HQ.
Qed.

(** After a hang-up the loop of [os.read] empties the pipe. *)
Lemma drain_all (fuel : nat) (payload : bytes) (s : ProcessWrapper.State)
  (Q : bytes -> ProcessWrapper.State -> Prop) (E : ProcessWrapper.State -> Prop) :
  closed (stdout (ProcessWrapper.process s)) = false ->
  hup (stdout (ProcessWrapper.process s)) = true ->
  length (buf (stdout (ProcessWrapper.process s))) < fuel ->
  (forall s' : ProcessWrapper.State,
      s' = s \/ s' = ProcessWrapper.set_process
                       (ProcessWrapper.set_stdout
                          (ProcessWrapper.set_buf []
                             (stdout (ProcessWrapper.process s)))
                          (ProcessWrapper.process s)) s ->
      buf (stdout (ProcessWrapper.process s')) = [] ->
      Q (payload ++ buf (stdout (ProcessWrapper.process s))) s') ->
  wp (ProcessWrapper.drain fuel payload) Q E s.
Proof.
  revert payload s Q. induction fuel as [|fuel IH]; intros payload s Q Hc Hh Hlen HQ;
    [lia|].
  cbn [ProcessWrapper.drain]. wp_head.
  destruct (buf (stdout (ProcessWrapper.process s))) as [|b0 bs] eqn:Hbuf.
  - unfold ProcessWrapper.os_read. wp_run. st_simpl. rewrite Hc, Hbuf, Hh.
    wp_run. rewrite app_nil_r in *. apply HQ; auto.
  - apply os_read_some; [assumption|congruence|]. rewrite Hbuf.
    assert (Hn : 0 < 8192) by (vm_compute; lia).
    generalize dependent 8192. intros n Hn.
    set (r := firstn n (b0 :: bs)).
    assert (Hr : r <> []) by (apply firstn_nonempty; [assumption|discriminate]).
    destruct r as [|r0 rs] eqn:Er; [contradiction|]. rewrite <- Er.
    apply IH.
    + st_simpl. assumption.
    + st_simpl. assumption.
    + st_simpl. rewrite length_skipn. cbn [length] in *. lia.
    + intros s' Hs' Hempty. st_simpl.
      replace ((payload ++ r) ++ skipn n (b0 :: bs)) with (payload ++ b0 :: bs).
      2:{ subst r. now rewrite <- app_assoc, firstn_skipn. }
      apply HQ; [|assumption]. right.
      destruct Hs' as [Es|Es]; rewrite Es in *; [|reflexivity].
      st_simpl. now rewrite Hempty.
Qed.


(** What one event takes from the pipe: the first 8192 bytes, or, with a
    hang-up, everything. *)
Lemma stdout_payload (ev : Z) (data : bytes) (s : ProcessWrapper.State)
  (Q : bytes -> ProcessWrapper.State -> Prop) (E : ProcessWrapper.State -> Prop) :
  closed (stdout (ProcessWrapper.process s)) = false ->
  buf (stdout (ProcessWrapper.process s)) <> [] ->
  (has ev ERROR = true -> hup (stdout (ProcessWrapper.process s)) = true) ->
  (forall payload b' : bytes,
      payload <> [] ->
      payload ++ b' = buf (stdout (ProcessWrapper.process s)) ->
      (has ev ERROR = true -> b' = []) ->
      Q (data ++ Py.hex_digits (length payload) ++ CRLF ++ payload ++ CRLF)
        (ProcessWrapper.set_process
           (ProcessWrapper.set_stdout
              (ProcessWrapper.set_buf b' (stdout (ProcessWrapper.process s)))
              (ProcessWrapper.process s)) s)) ->
  wp (payload <- ProcessWrapper.os_read Stdout 8192 ;;
      payload <-
        (if has ev ERROR then
           rest <- read (fun s => buf (stdout (ProcessWrapper.process s))) ;;
           ProcessWrapper.drain (S (length rest)) payload
         else ret payload) ;;
      ret (data ++ Py.hex_digits (length payload) ++ CRLF ++ payload ++ CRLF))
    Q E s.
Proof.
  intros Hc Hb Hh HQ.
  assert (Hn : 0 < 8192) by (vm_compute; lia).
  generalize dependent 8192. intros n Hn.
  wp_head. apply os_read_some; [assumption|assumption|].
  set (b := buf (stdout (ProcessWrapper.process s))) in *.
  assert (Hr : firstn n b <> []) by now apply firstn_nonempty.
  wp_head. destruct (has ev ERROR) eqn:He.
  - wp_run. st_simpl. apply drain_all; st_simpl; auto.
    intros s' Hs' Hempty. wp_run. st_simpl.
    rewrite firstn_skipn.
    assert (Es : s' = ProcessWrapper.set_process
                        (ProcessWrapper.set_stdout
                           (ProcessWrapper.set_buf [] (stdout (ProcessWrapper.process s)))
                           (ProcessWrapper.process s)) s).
    { destruct Hs' as [Es|Es]; rewrite Es in *; [|reflexivity].
      st_simpl. now rewrite Hempty. }
    rewrite Es. apply HQ.
    + fold b. intros Eb. apply Hr. now rewrite Eb, firstn_nil.
    + now rewrite app_nil_r.
    + reflexivity.
  - wp_run. apply HQ.
    + assumption.
    + apply firstn_skipn.
    + discriminate.
Qed.

Lemma Frames_prelude (p : bytes) :
  Frames match p with
         | [] => []
         | _ => ProcessWrapper.chunk p
         end p.
Proof.
  destruct p as [|c p]; [constructor|].
  apply (Frames_snoc [] [] (c :: p)); [constructor|discriminate].
Qed.

(** The invariant once stdout has been closed with its buffer empty. *)
Lemma outbound_inv_close_stdout (s : ProcessWrapper.State) :
  Inv s ->
  buf (stdout (ProcessWrapper.process s)) = [] ->
  hup (stdout (ProcessWrapper.process s)) = true ->
  Inv (ProcessWrapper.set_ioloop
         (ProcessWrapper.set_events
            (ProcessWrapper.remove_fd Stdout (events (ProcessWrapper.ioloop s)))
            (ProcessWrapper.set_handlers
               (ProcessWrapper.remove_fd Stdout (handlers (ProcessWrapper.ioloop s)))
               (ProcessWrapper.ioloop s)))
         (ProcessWrapper.set_process
            (ProcessWrapper.set_stdout
               (ProcessWrapper.set_closed true (stdout (ProcessWrapper.process s)))
               (ProcessWrapper.process s)) s)).
Proof.
  intros HI Hb Hh. unfold outbound_inv in *. cbv zeta in *. st_simpl.
  destruct HI as (Hbe & Hte & Hhup & Hcl & Hhand & Hpend & Hpre & Hresp).
  repeat (split; [assumption|]).
  split; [auto|].
  split; [rewrite remove_fd_comm; now apply Forall_remove_fd|].
  split.
  { rewrite remove_fd_comm.
    eapply pending_ok_other; [apply no_stdout_remove|].
    apply Forall_remove_fd. exact Hpend. }
  split; [assumption|].
  destruct (ProcessWrapper.headers_sent (ProcessWrapper.self s)); [|assumption].
  destruct Hresp as (Hch & frames & data & tail & Hw & HF & Hdata & Htail).
  split; [assumption|]. exists frames, data, tail.
  repeat (split; [assumption|]).
  destruct Htail as [Ht|(_ & Hf & Hj)]; [left; assumption|right; auto].
Qed.

(** The same for stderr, which never holds anything. *)
Lemma outbound_inv_close_stderr (s : ProcessWrapper.State) :
  Inv s ->
  Inv (ProcessWrapper.set_ioloop
         (ProcessWrapper.set_events
            (ProcessWrapper.remove_fd Stderr (events (ProcessWrapper.ioloop s)))
            (ProcessWrapper.set_handlers
               (ProcessWrapper.remove_fd Stderr (handlers (ProcessWrapper.ioloop s)))
               (ProcessWrapper.ioloop s)))
         (ProcessWrapper.set_process
            (ProcessWrapper.set_stderr
               (ProcessWrapper.set_closed true (stderr (ProcessWrapper.process s)))
               (ProcessWrapper.process s)) s)).
Proof.
  intros HI. unfold outbound_inv in *. cbv zeta in *. st_simpl.
  destruct HI as (Hbe & Hte & Hhup & Hcl & Hhand & Hpend & Hpre & Hresp).
  repeat (split; [assumption|]).
  split; [rewrite remove_fd_comm; now apply Forall_remove_fd|].
  split; [rewrite remove_fd_comm; now apply Forall_remove_fd|].
  split; assumption.
Qed.


(** The part of the handlers of stdout and stderr that follows a
    hang-up. *)
Lemma hangup_outbound (f : fd) (s : ProcessWrapper.State) :
  f <> Stdin ->
  Inv s ->
  (f = Stdout ->
   buf (stdout (ProcessWrapper.process s)) = []
   /\ hup (stdout (ProcessWrapper.process s)) = true) ->
  wp (p <- read ProcessWrapper.process ;;
      when (negb (closed (ProcessWrapper.pipe_of f p))) (ProcessWrapper.file_close f) ;;;
      ProcessWrapper.remove_handler f ;;;
      ProcessWrapper._graceful_finish)
    (fun _ => Inv) Inv s.
Proof.
  intros Hf HI Hout. do 3 wp_head.
  assert (Hclosed : Inv (ProcessWrapper.set_ioloop
            (ProcessWrapper.set_events
               (ProcessWrapper.remove_fd f (events (ProcessWrapper.ioloop s)))
               (ProcessWrapper.set_handlers
                  (ProcessWrapper.remove_fd f (handlers (ProcessWrapper.ioloop s)))
                  (ProcessWrapper.ioloop s)))
            (ProcessWrapper.set_process
               (ProcessWrapper.set_pipe f
                  (ProcessWrapper.set_closed true
                     (ProcessWrapper.pipe_of f (ProcessWrapper.process s)))
                  (ProcessWrapper.process s)) s))).
  { destruct f; [contradiction| |].
    - destruct (Hout eq_refl). now apply outbound_inv_close_stdout.
    - now apply outbound_inv_close_stderr. }
  destruct (closed (ProcessWrapper.pipe_of f (ProcessWrapper.process s))) eqn:Hc;
    cbn [negb].
  - (* closed already: only the handler goes *)
    do 3 wp_head. apply graceful_finish_outbound.
    eapply outbound_inv_view; [|exact Hclosed].
    unfold outbound. st_simpl.
    destruct f; [contradiction| |]; st_simpl;
      repeat f_equal;
      match goal with
      | |- ?p = _ => destruct p as [b t h c] eqn:Ep; cbn in Hc |- *; now subst
      end.
  - do 2 wp_head. do 3 wp_head. apply graceful_finish_outbound.
    exact Hclosed.
Qed.

Lemma handle_stderr_outbound (ev : Z) (s : ProcessWrapper.State) :
  Inv s -> has ev READ = false ->
  wp (ProcessWrapper._handle_stderr_event env ev) (fun _ => Inv) Inv s.
Proof.
  intros HI Hr. unfold ProcessWrapper._handle_stderr_event. rewrite Hr.
  do 2 wp_head. cbv iota. wp_head. cbv iota.
  destruct (has ev ERROR); [|exact HI].
  apply (hangup_outbound Stderr); [discriminate|assumption|discriminate].
Qed.


Lemma handle_stdout_outbound (ev : Z) (s : ProcessWrapper.State) :
  supports_http_1_1 (request env) = true ->
  Inv s ->
  pending_ok (ProcessWrapper.process s) (Stdout, ev) ->
  Forall (fun e => fst e <> Stdout) (events (ProcessWrapper.ioloop s)) ->
  wp (ProcessWrapper._handle_stdout_event env ev) (fun _ => Inv) Inv s.
Proof.
  intros H11 HI (Hread & Herr & Honly) Hno. cbn [fst snd] in *.
  unfold ProcessWrapper._handle_stdout_event. rewrite H11.
  set (tail := when (has ev ERROR) _).
  assert (Htail : forall s1 : ProcessWrapper.State,
            Inv s1 ->
            (has ev ERROR = true ->
             buf (stdout (ProcessWrapper.process s1)) = []
             /\ hup (stdout (ProcessWrapper.process s1)) = true) ->
            wp tail (fun _ => Inv) Inv s1).
  { intros s1 HI1 H1. subst tail. wp_head.
    destruct (has ev ERROR); [|exact HI1].
    apply (hangup_outbound Stdout); [discriminate|assumption|auto]. }
  wp_head. wp_head.
  destruct (has ev READ) eqn:Hr.
  2:{ (* a hang-up alone *)
      apply Htail; [assumption|]. intros He. split; auto. }
  destruct (Hread eq_refl) as [Hbuf Hopen].
  pose proof HI as HI0.
  unfold outbound_inv in HI. cbv zeta in HI.
  destruct HI as (Hbe & Hte & Hhup & Hcl & Hhand & Hpend & Hpre & Hresp).
  assert (Hpend' : forall p' : Process,
            Forall (pending_ok p')
              (ProcessWrapper.remove_fd Stdin (events (ProcessWrapper.ioloop s)))).
  { intros p'. eapply pending_ok_other; [|exact Hpend].
    now apply Forall_remove_fd. }
  do 3 wp_head.
  destruct (ProcessWrapper.headers_sent (ProcessWrapper.self s)) eqn:Hsent;
    cbn [negb].
  - (* a further chunk *)
    destruct Hresp as (Hch & frames & data & tl & Hw & HF & Hdata & Htl).
    destruct Htl as [[-> Hf]|(Hc & _)]; [|congruence].
    do 2 wp_head.
    apply stdout_payload; [assumption|assumption|assumption|].
    intros payload b' Hp Hsplit Hall. do 2 wp_head.
    apply Htail.
    + unfold outbound_inv. cbv zeta. st_simpl. rewrite Hsent.
      repeat (split; [assumption|]).
      split; [intros; congruence|].
      split; [assumption|]. split; [apply Hpend'|]. split; [assumption|].
      split; [assumption|].
      exists (frames ++ ProcessWrapper.chunk payload), (data ++ payload), [].
      split.
      { rewrite Hw. unfold ProcessWrapper.chunk.
        rewrite !app_nil_r, <- !app_assoc. reflexivity. }
      split; [now constructor|].
      split; [|left; auto].
      rewrite <- Hdata, <- Hsplit, <- !app_assoc. reflexivity.
    + intros He. st_simpl. split; [auto|auto].
  - (* the head, the prelude and the first chunk *)
    destruct Hresp as (Hw & Hf & Hhs & Hout).
    wp_run. st_simpl.
    match goal with
    | |- wp _ _ _ ?st => set (s1 := st)
    end.
    apply (proj1 (wp_bind _ _ _ _ _)).
    apply stdout_payload; [exact Hopen|exact Hbuf|exact Herr|].
    intros payload b' Hp Hsplit Hall. subst s1. st_simpl. do 2 wp_head.
    apply Htail.
    + unfold outbound_inv. cbv zeta. st_simpl.
      repeat (split; [assumption|]).
      split; [intros; congruence|].
      split; [assumption|]. split; [apply Hpend'|]. split; [assumption|].
      split; [reflexivity|].
      exists (match prelude with
              | [] => []
              | _ => ProcessWrapper.chunk prelude
              end ++ ProcessWrapper.chunk payload),
        (prelude ++ payload), [].
      split.
      { rewrite Hw, Hhs, Hpre. unfold response_start, ProcessWrapper.chunk.
        destruct prelude; rewrite ?app_nil_r, <- ?app_assoc; reflexivity. }
      split; [constructor; [apply Frames_prelude|assumption]|].
      split; [|left; auto].
      rewrite <- Hout, <- Hsplit, <- !app_assoc. reflexivity.
    + intros He. st_simpl. split; [auto|auto].
Qed.


(** *** Every step keeps the invariant *)

Lemma lookup_fd_In (f : fd) (l : list (fd * Z)) (ev : Z) :
  ProcessWrapper.lookup_fd f l = Some ev -> In (f, ev) l.
Proof.
  induction l as [|[g v] l IH]; cbn [ProcessWrapper.lookup_fd]; [discriminate|].
  destruct (fd_eqb g f) eqn:E.
  - intros [= ->]. left. destruct g, f; try discriminate; reflexivity.
  - intros H. right. now apply IH.
Qed.

Lemma In_remove_fd (f : fd) (e : fd * Z) (l : list (fd * Z)) :
  In e l -> fst e <> f -> In e (ProcessWrapper.remove_fd f l).
Proof.
  intros Hin Hne. unfold ProcessWrapper.remove_fd. apply filter_In.
  split; [assumption|]. destruct (fst e), f; try reflexivity; contradiction.
Qed.

Lemma run_logged_outbound (m : ProcessWrapper.B unit) (s : ProcessWrapper.State) :
  wp m (fun _ => Inv) Inv s -> Inv (Run.run_logged m s).
Proof.
  unfold wp, Run.run_logged. destruct (m s) as [[a|e] s']; [auto|].
  apply outbound_inv_view. reflexivity.
Qed.

Lemma poll_outbound (w : bool) (s : ProcessWrapper.State) :
  Inv s -> Inv (Run.poll w s).
Proof.
  intros HI. unfold Run.poll.
  destruct (events (ProcessWrapper.ioloop s)) eqn:Hev; [|assumption].
  unfold outbound_inv in *. cbv zeta in *. st_simpl.
  destruct HI as (Hbe & Hte & Hhup & Hcl & Hhand & Hpend & Hrest).
  repeat (split; [assumption|]). split; [|assumption].
  apply Forall_forall. intros [f ev] Hin.
  unfold ProcessWrapper.remove_fd in Hin. apply filter_In in Hin.
  destruct Hin as [Hin Hf]. apply filter_In in Hin. destruct Hin as [Hin _].
  apply in_map_iff in Hin. destruct Hin as ([g interest] & [= <- <-] & Hin).
  cbn [fst snd] in *.
  assert (Hint : interest = Z.lor READ ERROR).
  { rewrite Forall_forall in Hhand.
    apply (Hhand (g, interest)). apply In_remove_fd; [assumption|].
    cbn [fst]. intros ->. discriminate. }
  subst interest. unfold pending_ok. cbn [fst snd].
  destruct g; [exact I| |]; cbn [Run.ready]; unfold Run.pipe_ready.
  - destruct (closed (stdout (ProcessWrapper.process s))) eqn:Hc;
      [repeat split; discriminate|].
    destruct (buf (stdout (ProcessWrapper.process s))) eqn:Hb,
             (hup (stdout (ProcessWrapper.process s))) eqn:Hh;
      repeat split; try discriminate; reflexivity.
  - rewrite Hbe.
    destruct (closed (stderr (ProcessWrapper.process s))),
             (hup (stderr (ProcessWrapper.process s))); reflexivity.
Qed.

Lemma dispatch_outbound (f : fd) (room : nat) (s : ProcessWrapper.State) :
  supports_http_1_1 (request env) = true ->
  Inv s -> Inv (Run.dispatch env f room s).
Proof.
  intros H11 HI. unfold Run.dispatch.
  destruct (ProcessWrapper.lookup_fd f (events _)) as [ev|] eqn:Hev; [|assumption].
  apply lookup_fd_In in Hev.
  match goal with
  | |- Inv (match ?o with Some _ => Run.run_logged _ ?st | None => _ end) =>
      set (s1 := st);
      assert (HI1 : Inv s1);
      [|destruct (ProcessWrapper.lookup_fd f (handlers _)); [|exact HI1]]
  end.
  { unfold outbound_inv in *. cbv zeta in *. subst s1. st_simpl.
    destruct HI as (Hbe & Hte & Hhup & Hcl & Hhand & Hpend & Hrest).
    repeat (split; [assumption|]). split; [|assumption].
    rewrite remove_fd_comm. now apply Forall_remove_fd. }
  assert (Hok : f <> Stdin -> pending_ok (ProcessWrapper.process s1) (f, ev)).
  { intros Hf. unfold outbound_inv in HI. cbv zeta in HI.
    destruct HI as (_ & _ & _ & _ & _ & Hpend & _).
    rewrite Forall_forall in Hpend.
    specialize (Hpend (f, ev) (In_remove_fd Stdin _ _ Hev Hf)).
    exact Hpend. }
  apply run_logged_outbound. destruct f; cbn [Run.handler].
  - now apply handle_stdin_outbound.
  - apply handle_stdout_outbound; try assumption.
    + apply Hok. discriminate.
    + subst s1. st_simpl. apply no_stdout_remove.
  - apply handle_stderr_outbound; [assumption|].
    apply (Hok ltac:(discriminate)).
Qed.

Lemma child_outbound (p' : Process) (s : ProcessWrapper.State) :
  Inv s ->
  stderr p' = stderr (ProcessWrapper.process s) ->
  closed (stdout p') = closed (stdout (ProcessWrapper.process s)) ->
  (hup (stdout (ProcessWrapper.process s)) = true ->
   stdout p' = stdout (ProcessWrapper.process s)) ->
  (hup (stdout p') = true -> todo (stdout p') = []) ->
  buf (stdout p') ++ todo (stdout p')
  = buf (stdout (ProcessWrapper.process s))
    ++ todo (stdout (ProcessWrapper.process s)) ->
  (buf (stdout (ProcessWrapper.process s)) <> [] -> buf (stdout p') <> []) ->
  Inv (ProcessWrapper.set_process p' s).
Proof.
  intros HI He Hc Hsame Hhup' Hdata Hgrow.
  unfold outbound_inv in *. cbv zeta in *. st_simpl.
  destruct HI as (Hbe & Hte & Hhup & Hcl & Hhand & Hpend & Hpre & Hresp).
  rewrite He. repeat (split; [assumption|]).
  split.
  { rewrite Hc. intros Hclosed. destruct (Hcl Hclosed) as [Hb Hh].
    rewrite (Hsame Hh). auto. }
  split; [assumption|].
  split.
  { eapply Forall_impl; [|exact Hpend]. intros [f ev]. unfold pending_ok.
    cbn [fst snd]. destruct f; [trivial| |trivial].
    intros (H1 & H2 & H3). rewrite Hc. repeat split.
    - apply Hgrow. now apply H1.
    - now apply H1.
    - intros H. now rewrite (Hsame (H2 H)), (H2 H).
    - intros Hr Herr. rewrite (Hsame (H2 Herr)). auto. }
  split; [assumption|].
  rewrite Hc, Hdata. exact Hresp.
Qed.

Lemma step_outbound (a : action) (s : ProcessWrapper.State) :
  supports_http_1_1 (request env) = true ->
  Inv s -> Inv (Run.step env s a).
Proof.
  intros H11 HI. destruct a as [f n|f|w|f room|n|]; cbn [Run.step].
  - (* the child writes *)
    pose proof HI as HI0. unfold outbound_inv in HI0. cbv zeta in HI0.
    destruct HI0 as (Hbe & Hte & Hhup & _).
    destruct f; cbn [Run.child_write].
    + eapply outbound_inv_view; [|exact HI]. reflexivity.
    + st_simpl.
      destruct (hup (stdout (ProcessWrapper.process s))) eqn:Hh.
      * eapply outbound_inv_view; [|exact HI]. reflexivity.
      * apply child_outbound; st_simpl; try assumption; try reflexivity;
          try congruence.
        -- now rewrite <- app_assoc, firstn_skipn.
        -- intros Hne E. apply app_eq_nil in E. now destruct E.
    + st_simpl.
      destruct (hup (stderr (ProcessWrapper.process s))) eqn:Hh.
      * eapply outbound_inv_view; [|exact HI]. reflexivity.
      * eapply outbound_inv_view; [|exact HI]. unfold outbound. st_simpl.
        rewrite Hbe, Hte, firstn_nil, skipn_nil. cbn [app].
        destruct (ProcessWrapper.process s) as [pa pb pc pd o e].
        destruct e as [eb et eh ec]. cbn in *. subst. reflexivity.
  - (* the child closes *)
    pose proof HI as HI0. unfold outbound_inv in HI0. cbv zeta in HI0.
    destruct HI0 as (Hbe & Hte & Hhup & _).
    destruct f; cbn [Run.child_close].
    + eapply outbound_inv_view; [|exact HI]. reflexivity.
    + st_simpl.
      destruct (todo (stdout (ProcessWrapper.process s))) eqn:Ht.
      * apply child_outbound; st_simpl; try assumption; try reflexivity.
        -- intros Hh.
           destruct (ProcessWrapper.process s) as [pa pb pc pd o e].
           destruct o as [ob ot oh oc]. cbn in *. subst. reflexivity.
        -- now rewrite Ht.
        -- auto.
      * eapply outbound_inv_view; [|exact HI].
        unfold outbound. st_simpl.
        destruct (ProcessWrapper.process s) as [pa pb pc pd o e]. reflexivity.
    + st_simpl. rewrite Hte.
      eapply outbound_inv_view with (s := ProcessWrapper.set_process
          (ProcessWrapper.set_stderr
             (ProcessWrapper.set_hup true (stderr (ProcessWrapper.process s)))
             (ProcessWrapper.process s)) s).
      { reflexivity. }
      unfold outbound_inv in *. cbv zeta in *. st_simpl. exact HI.
  - now apply poll_outbound.
  - now apply dispatch_outbound.
  - (* the stream serves a pending read *)
    unfold Run.stream_read.
    destruct (reading (ProcessWrapper.httpstream s)) as [r|]; [|assumption].
    destruct (firstn n (socket (ProcessWrapper.httpstream s))); [assumption|].
    match goal with
    | |- Inv (match r with _ => _ end) => idtac
    end.
    set (s1 := ProcessWrapper.set_httpstream _ s).
    assert (HI1 : Inv s1) by (eapply outbound_inv_view; [|exact HI]; reflexivity).
    destruct r as [|k].
    + destruct (ProcessWrapper.find CRLF _); [|assumption].
      apply run_logged_outbound. apply keeps_outbound_inv; [|assumption].
      repeat (intros; first [apply keeps_outbound_chunk_length | keeps_out_head]).
    + destruct (_ <=? _)%Z; [|assumption].
      apply run_logged_outbound. apply keeps_outbound_inv; [|assumption].
      repeat (intros; first [apply keeps_outbound_chunk_data | keeps_out_head]).
  - unfold Run.run_callback.
    destruct (callbacks (ProcessWrapper.ioloop s)); [assumption|].
    apply run_logged_outbound. apply keeps_outbound_inv.
    + apply keeps_outbound_read_chunks.
    + eapply outbound_inv_view; [|exact HI]. reflexivity.
Qed.

Lemma run_outbound (trace : list action) (s : ProcessWrapper.State) :
  supports_http_1_1 (request env) = true ->
  Inv s -> Inv (Run.run env trace s).
Proof.
  intros H11. revert s. induction trace as [|a trace IH]; intros s HI;
    [assumption|].
  apply IH. now apply step_outbound.
Qed.

End Outbound.

(** *** From construction on *)

(** The invariant with the connection as it is now for its start: what
    holds while the constructor runs. *)
Lemma outbound_fresh_view (env : Env) (hs0 : list (bytes * bytes))
  (prelude out : bytes) (s s' : ProcessWrapper.State) :
  outbound s' = outbound s ->
  outbound_inv env hs0 prelude out (written (ProcessWrapper.connection s))
    (finish_calls (ProcessWrapper.connection s)) s ->
  outbound_inv env hs0 prelude out (written (ProcessWrapper.connection s'))
    (finish_calls (ProcessWrapper.connection s')) s'.
Proof.
  intros Hview HI. pose proof Hview as Hv. injection Hv as -> _ _ _ _ _ _ _ _.
  eapply outbound_inv_view; eassumption.
Qed.

Lemma keeps_outbound_fresh (env : Env) (hs0 : list (bytes * bytes))
  (prelude out : bytes) {A} (m : ProcessWrapper.B A) (s : ProcessWrapper.State) :
  keeps outbound m ->
  outbound_inv env hs0 prelude out (written (ProcessWrapper.connection s))
    (finish_calls (ProcessWrapper.connection s)) s ->
  wp m
    (fun _ s' =>
       outbound_inv env hs0 prelude out (written (ProcessWrapper.connection s'))
         (finish_calls (ProcessWrapper.connection s')) s')
    (fun _ => True) s.
Proof.
  intros Hk HI. unfold wp. specialize (Hk s).
  destruct (m s) as [[a|e] s']; cbn [snd] in Hk; [|exact I].
  eapply outbound_fresh_view; eassumption.
Qed.

Lemma start_outbound (env : Env) (spawn : Spawn) (child : Child)
  (c : Connection) (buffered on_socket : bytes) (s0 : ProcessWrapper.State) :
  child_stderr child = [] ->
  Run.start env spawn child c buffered on_socket = Ok s0 ->
  outbound_inv env (success_headers spawn) (spawn_prelude spawn)
    (child_stdout child) (written (ProcessWrapper.connection s0))
    (finish_calls (ProcessWrapper.connection s0)) s0.
Proof.
  intros Herr Hstart.
  set (J := fun s' : ProcessWrapper.State =>
              outbound_inv env (success_headers spawn) (spawn_prelude spawn)
                (child_stdout child) (written (ProcessWrapper.connection s'))
                (finish_calls (ProcessWrapper.connection s')) s').
  enough (Hwp : wp (ProcessWrapper.__init__ env child) (fun _ => J) (fun _ => True)
                  (ProcessWrapper.blank spawn child c buffered on_socket)).
  { unfold Run.start in Hstart. unfold wp in Hwp.
    destruct (ProcessWrapper.__init__ env child _) as [[a|e] s']; [|discriminate].
    injection Hstart as <-. exact Hwp. }
  unfold ProcessWrapper.__init__.
  do 2 wp_head. destruct (child_exited child); cbv iota; [wp_run; exact I|].
  repeat (lazymatch goal with
          | |- wp (bind (ProcessWrapper.add_handler _ _) _) _ _ _ => do 4 wp_head
          end).
  match goal with
  | |- wp _ _ _ ?st => set (sA := st)
  end.
  assert (HA : J sA /\ ProcessWrapper.headers_sent (ProcessWrapper.self sA) = false).
  { split; [|reflexivity]. subst J sA. unfold outbound_inv. cbv zeta.
    unfold ProcessWrapper.blank. st_simpl. rewrite Herr.
    repeat split; try discriminate.
    - repeat constructor.
    - constructor. }
  clearbody sA. destruct HA as [HA HsA].
  assert (Hkeep : forall (m : ProcessWrapper.B unit) (s : ProcessWrapper.State),
            keeps outbound m -> J s -> wp m (fun _ => J) (fun _ => True) s).
  { intros m s Hk HJ. now apply keeps_outbound_fresh. }
  apply wp_bind_intro.
  eapply wp_mono; [apply Hkeep; [keeps_out|exact HA]| |auto].
  intros a1 s1 HJ1. cbv beta in *.
  destruct (bytes_eqb (method (request env)) (str "POST")).
  - destruct (_ && _).
    + (* streamed: [100 Continue], then the first chunks *)
      do 3 wp_head. apply Hkeep; [apply keeps_outbound_read_chunks|].
      subst J. cbv beta in *. unfold outbound_inv in *. cbv zeta in *. st_simpl.
      destruct HJ1 as (H1 & H2 & H3 & H4 & H5 & H6 & H7 & H8).
      repeat (split; [assumption|]).
      destruct (ProcessWrapper.headers_sent (ProcessWrapper.self s1)) eqn:Hs1.
      * destruct H8 as (Hch & frames & data & tl & Hw & _).
        exfalso. clear - Hw.
        assert (Hlen : length (written (ProcessWrapper.connection s1))
                       = length (written (ProcessWrapper.connection s1)
                                 ++ response_start env (success_headers spawn)
                                 ++ frames ++ tl)) by (now rewrite <- Hw).
        rewrite !length_app in Hlen. unfold response_start,
          ProcessWrapper.response_head in Hlen. rewrite !length_app in Hlen.
        cbn [length str list_ascii_of_string] in Hlen. lia.
      * destruct H8 as (_ & _ & Hh & Hb). auto.
    + apply Hkeep; [keeps_out|assumption].
  - apply Hkeep; [keeps_out|assumption].
Qed.

(** For an HTTP/1.1 client and a child that writes nothing to stderr,
    whatever the request, the child and the loop do: the bridge writes
    nothing, or it has written the status line and headers of a chunked
    response followed by chunks of non-empty payloads which carry, in
    order, the prelude and what has been read of the child's stdout --
    a prefix of the prelude followed by the child's output -- and then
    nothing more until the request is finished. *)
Theorem chunked_response_is_prefix (env : Env) (spawn : Spawn) (child : Child)
  (c : Connection) (buffered on_socket : bytes) (s0 : ProcessWrapper.State)
  (trace : list action) :
  supports_http_1_1 (request env) = true ->
  child_stderr child = [] ->
  Run.start env spawn child c buffered on_socket = Ok s0 ->
  let s := Run.run env trace s0 in
  let w0 := written (ProcessWrapper.connection s0) in
  if ProcessWrapper.headers_sent (ProcessWrapper.self s)
  then exists frames data rest tail : bytes,
         written (ProcessWrapper.connection s)
         = w0 ++ response_start env (success_headers spawn) ++ frames ++ tail
         /\ Frames frames data
         /\ data ++ rest = spawn_prelude spawn ++ child_stdout child
         /\ (finish_calls (ProcessWrapper.connection s)
             = finish_calls (ProcessWrapper.connection s0) -> tail = [])
  else written (ProcessWrapper.connection s) = w0
       /\ finish_calls (ProcessWrapper.connection s)
          = finish_calls (ProcessWrapper.connection s0).
Proof.
  intros H11 Herr Hstart s w0.
  pose proof (run_outbound env _ _ _ _ _ trace s0 H11
                (start_outbound env spawn child c buffered on_socket s0
                   Herr Hstart)) as HI.
  fold s in HI. unfold outbound_inv in HI. cbv zeta in HI.
  destruct HI as (_ & _ & _ & _ & _ & _ & _ & Hresp).
  destruct (ProcessWrapper.headers_sent (ProcessWrapper.self s)).
  - destruct Hresp as (_ & frames & data & tail & Hw & HF & Hdata & Htail).
    exists frames, data,
      (buf (stdout (ProcessWrapper.process s))
       ++ todo (stdout (ProcessWrapper.process s))), tail.
    repeat (split; [assumption|]).
    intros Hf. destruct Htail as [[-> _]|(_ & Hlt & _)]; [reflexivity|lia].
  - destruct Hresp as (Hw & Hf & _). auto.
Qed.

(** And once the request has been finished, the client has received
    the head and a chunked body that decodes to the prelude followed by
    everything the child wrote to stdout. *)
Theorem chunked_response_decodes (env : Env) (spawn : Spawn) (child : Child)
  (c : Connection) (buffered on_socket : bytes) (s0 : ProcessWrapper.State)
  (trace : list action) :
  supports_http_1_1 (request env) = true ->
  child_stderr child = [] ->
  Run.start env spawn child c buffered on_socket = Ok s0 ->
  let s := Run.run env trace s0 in
  finish_calls (ProcessWrapper.connection s)
  <> finish_calls (ProcessWrapper.connection s0) ->
  exists body : bytes,
    written (ProcessWrapper.connection s)
    = written (ProcessWrapper.connection s0)
      ++ response_start env (success_headers spawn) ++ body
    /\ dechunk body = Some (spawn_prelude spawn ++ child_stdout child).
Proof.
  intros H11 Herr Hstart s Hfin.
  pose proof (run_outbound env _ _ _ _ _ trace s0 H11
                (start_outbound env spawn child c buffered on_socket s0
                   Herr Hstart)) as HI.
  fold s in HI. unfold outbound_inv in HI. cbv zeta in HI.
  destruct HI as (_ & _ & Hhup & Hcl & _ & _ & _ & Hresp).
  destruct (ProcessWrapper.headers_sent (ProcessWrapper.self s)).
  2:{ destruct Hresp as (_ & Hf & _). contradiction. }
  destruct Hresp as (_ & frames & data & tail & Hw & HF & Hdata & Htail).
  destruct Htail as [[_ Hf]|(Hc & _ & junk & ->)]; [contradiction|].
  destruct (Hcl Hc) as [Hb Hh]. rewrite Hb, (Hhup Hh), !app_nil_r in Hdata.
  subst data.
  exists (frames ++ str "0" ++ CRLF ++ CRLF ++ junk). split; [exact Hw|].
  apply Dechunk_dechunk.
  rewrite <- (app_nil_r (spawn_prelude spawn ++ child_stdout child)).
  apply Frames_Dechunk; [assumption|apply Dechunk_terminator].
Qed.

Lemma chunked_response_is_prefix_witness :
  let env := SampleBridge.advert_env in
  let s0 := advert_state env "abcdefgh" "" [] in
  let s := Run.run env [ChildWrite Stdout 3; Poll true; Dispatch Stdout 0] s0 in
  let w0 := written (ProcessWrapper.connection s0) in
  if ProcessWrapper.headers_sent (ProcessWrapper.self s)
  then exists frames data rest tail : bytes,
         written (ProcessWrapper.connection s)
         = w0 ++ response_start env (success_headers SampleBridge.advert)
           ++ frames ++ tail
         /\ Frames frames data
         /\ data ++ rest
            = spawn_prelude SampleBridge.advert
              ++ child_stdout (SampleBridge.child "abcdefgh" "")
         /\ (finish_calls (ProcessWrapper.connection s)
             = finish_calls (ProcessWrapper.connection s0) -> tail = [])
  else written (ProcessWrapper.connection s) = w0
       /\ finish_calls (ProcessWrapper.connection s)
          = finish_calls (ProcessWrapper.connection s0).
Proof.
  intros env s0.
  apply (chunked_response_is_prefix env SampleBridge.advert
           (SampleBridge.child "abcdefgh" "") fresh_connection [] [] s0
           [ChildWrite Stdout 3; Poll true; Dispatch Stdout 0]);
    reflexivity.
Defined.

Lemma chunked_response_decodes_witness :
  let env := SampleBridge.advert_env in
  let s0 := advert_state env "abcdefgh" "" [] in
  let s := Run.run env
             [ChildWrite Stdout 3; Poll true; Dispatch Stdin 0; Dispatch Stdout 0;
              ChildWrite Stdout 5; ChildClose Stdout; ChildClose Stderr;
              Poll false; Dispatch Stderr 0; Dispatch Stdout 0] s0 in
  exists body : bytes,
    written (ProcessWrapper.connection s)
    = written (ProcessWrapper.connection s0)
      ++ response_start env (success_headers SampleBridge.advert) ++ body
    /\ dechunk body
       = Some (spawn_prelude SampleBridge.advert
               ++ child_stdout (SampleBridge.child "abcdefgh" "")).
Proof.
  intros env s0.
  apply (chunked_response_decodes env SampleBridge.advert
           (SampleBridge.child "abcdefgh" "") fresh_connection [] [] s0
           [ChildWrite Stdout 3; Poll true; Dispatch Stdin 0; Dispatch Stdout 0;
            ChildWrite Stdout 5; ChildClose Stdout; ChildClose Stderr;
            Poll false; Dispatch Stderr 0; Dispatch Stdout 0]).
  - reflexivity.
  - reflexivity.
  - reflexivity.
  - vm_compute. discriminate.
Defined.
